(** * Host program of the Add-One accelerator test (ocl-addon/cl_top_host.c)

    A shallow embedding of [main], [check_afi_ready], [peek_poke_example]
    and [test_add_one_operation].  The program talks to the AWS FPGA SDK
    (management library and PCI BAR access) and to the C library
    ([printf], [usleep]); every such call is recorded, with its result, as
    an [event].  The SDK is an oracle that answers each call from the
    history of the events so far, so a device may misbehave in any
    deterministic way.

    C statements are computations in a small monad that reads the
    history, adds events and may execute [return].  Format strings are
    kept as the source writes them, escapes included.  The file has three
    parts: the model (the program and the simulated devices used for the
    concrete runs), the vocabulary of the statements, and the properties:
    first those that settle the claims C1 to C10 of the specification, then
    further properties X1 to X12 of the same functions. *)

From Stdlib Require Import String ZArith List Bool Lia.
Import ListNotations.
Local Open Scope Z_scope.

(** ** Constants of the source file *)

Definition INPUT_BASE_ADDR : Z := 0x00.

Definition OUTPUT_BASE_ADDR : Z := 0x20.

Definition CONTROL_REG_ADDR : Z := 0x40.

Definition STATUS_REG_ADDR : Z := 0x44.

Definition START_BIT : Z := 0x00000001.

Definition DONE_BIT : Z := 0x00000001.

Definition NUM_REGISTERS : Z := 8.

Definition max_polls : Z := 1000.

(** Conversion to [uint32_t]: arithmetic on 32-bit unsigned words wraps. *)
Definition u32 (z : Z) : Z := z mod 2 ^ 32.

(** [a != b] and [rc != 0] on C integers. *)
Definition neq (a b : Z) : bool := negb (a =? b).

Definition nonzero (rc : Z) : bool := neq rc 0.

(** ** Events and the SDK *)

(** An argument of a [printf] call. *)
Inductive arg : Type :=
| AInt (z : Z)
| AStr (s : string).

(** [info.spec.map[pf]] of [struct fpga_mgmt_image_info]. *)
Record pci_resource_map : Type := {
  vendor_id : Z;
  device_id : Z
}.

Record fpga_mgmt_image_info : Type := {
  status : Z;
  spec_map : Z -> pci_resource_map
}.

(** One call that leaves the program, with the result it got. *)
Inductive event : Type :=
| Printf (fmt : string) (args : list arg)
| Usleep (usec : Z)
| MgmtInit (rc : Z)
| DescribeLocalImage (slot flags rc : Z) (info : fpga_mgmt_image_info)
| PciAttach (slot pf bar flags rc handle : Z)
| PciDetach (handle rc : Z)
| PciPoke (handle addr value rc : Z)
| PciPeek (handle addr rc value : Z).

Definition history : Type := list event.

(** The SDK functions the program links against.  Each one sees the events
    that happened before the call. *)
Record sdk : Type := {
  sdk_mgmt_init : history -> Z;
  sdk_describe_local_image : history -> Z -> Z -> Z * fpga_mgmt_image_info;
  sdk_pci_attach : history -> Z -> Z -> Z -> Z -> Z * Z;
  sdk_pci_detach : history -> Z -> Z;
  sdk_pci_poke : history -> Z -> Z -> Z -> Z;
  sdk_pci_peek : history -> Z -> Z -> Z * Z
}.

(** Constants of the SDK headers ([fpga_pci.h], [fpga_mgmt.h]) that the
    program names; their values are not part of this repository. *)
Record sdk_header : Type := {
  FPGA_APP_PF : Z;
  APP_PF_BAR0 : Z;
  FPGA_STATUS_LOADED : Z;
  FPGA_STATUS_CLEARED : Z;
  FPGA_STATUS_BUSY : Z;
  FPGA_STATUS_NOT_PROGRAMMED : Z
}.

(** ** The monad of C statements *)

(** How a statement ends: it falls through with a value, it executes
    [return rc], or the model's loop budget is exhausted (shown below never
    to happen). *)
Inductive outcome (A : Type) : Type :=
| Val (a : A)
| Ret (rc : Z)
| Fuel.

Arguments Val {A} a.
Arguments Ret {A} rc.
Arguments Fuel {A}.

(** A statement reads the history and yields its outcome and the events it
    adds, oldest first. *)
Definition M (A : Type) : Type := history -> outcome A * list event.

Definition ret {A : Type} (a : A) : M A := fun _ => (Val a, []).

Definition bind {A B : Type} (m : M A) (f : A -> M B) : M B :=
  fun t =>
    match m t with
    | (Val a, ev) => let (o, ev') := f a (t ++ ev) in (o, ev ++ ev')
    | (Ret rc, ev) => (Ret rc, ev)
    | (Fuel, ev) => (Fuel, ev)
    end.

(** [return rc;] *)
Definition Return {A : Type} (rc : Z) : M A := fun _ => (Ret rc, []).

Definition out_of_fuel {A : Type} : M A := fun _ => (Fuel, []).

(** A function call: the callee's [return] becomes the call's value. *)
Definition call (body : M Empty_set) : M Z :=
  fun t =>
    match body t with
    | (Val a, _) => match a with end
    | (Ret rc, ev) => (Val rc, ev)
    | (Fuel, ev) => (Fuel, ev)
    end.

(** [if (c) { body }] with no [else]. *)
Definition when (c : bool) (body : M unit) : M unit :=
  if c then body else ret tt.

Declare Scope stmt_scope.
Delimit Scope stmt_scope with stmt.
Bind Scope stmt_scope with M.

Notation "x <- m ;; k" := (bind m (fun x => k))
  (at level 61, m at next level, right associativity) : stmt_scope.

Notation "' pat <- m ;; k" := (bind m (fun x => match x with pat => k end))
  (at level 61, pat pattern, m at next level, right associativity) : stmt_scope.

Notation "m ;; k" := (bind m (fun _ => k))
  (at level 61, right associativity) : stmt_scope.

Local Open Scope stmt_scope.

(** [for (int i = i0; ...; i++) body], run [n] times; [s] is what the body
    updates (the arrays and counters it assigns). *)
Fixpoint for_loop {St : Type} (n : nat) (i : Z) (body : Z -> St -> M St) (s : St)
  : M St :=
  match n with
  | O => ret s
  | S n' => s' <- body i s ;; for_loop n' (i + 1) body s'
  end.

(** Arrays of [uint32_t]: [a[i]] and [a[i] = v]. *)
Definition aget (a : list Z) (i : Z) : Z := nth (Z.to_nat i) a 0.

Fixpoint aset_nat (a : list Z) (i : nat) (v : Z) : list Z :=
  match a, i with
  | [], _ => []
  | _ :: a', O => v :: a'
  | x :: a', S i' => x :: aset_nat a' i' v
  end.

Definition aset (a : list Z) (i : Z) (v : Z) : list Z := aset_nat a (Z.to_nat i) v.

(** An array declared without initialiser; every slot is assigned before
    it is read. *)
Definition uninit (n : Z) : list Z := repeat 0 (Z.to_nat n).

(** ** The program *)

Section Program.

Variable K : sdk_header.
Variable E : sdk.

Definition printf (fmt : string) (args : list arg) : M unit :=
  fun _ => (Val tt, [Printf fmt args]).

Definition usleep (usec : Z) : M unit :=
  fun _ => (Val tt, [Usleep usec]).

Definition fpga_mgmt_init : M Z :=
  fun t => let rc := sdk_mgmt_init E t in (Val rc, [MgmtInit rc]).

Definition fpga_mgmt_describe_local_image (slot flags : Z)
  : M (Z * fpga_mgmt_image_info) :=
  fun t =>
    let (rc, info) := sdk_describe_local_image E t slot flags in
    (Val (rc, info), [DescribeLocalImage slot flags rc info]).

Definition fpga_pci_attach (slot pf bar flags : Z) : M (Z * Z) :=
  fun t =>
    let (rc, handle) := sdk_pci_attach E t slot pf bar flags in
    (Val (rc, handle), [PciAttach slot pf bar flags rc handle]).

Definition fpga_pci_detach (handle : Z) : M Z :=
  fun t => let rc := sdk_pci_detach E t handle in (Val rc, [PciDetach handle rc]).

Definition fpga_pci_poke (handle addr value : Z) : M Z :=
  fun t =>
    let rc := sdk_pci_poke E t handle addr value in
    (Val rc, [PciPoke handle addr value rc]).

(** The second component is what the call stores through its pointer. *)
Definition fpga_pci_peek (handle addr : Z) : M (Z * Z) :=
  fun t =>
    let (rc, value) := sdk_pci_peek E t handle addr in
    (Val (rc, value), [PciPeek handle addr rc value]).

(** *** check_afi_ready (lines 92-118) *)

Definition status_name (st : Z) : string :=
  if st =? FPGA_STATUS_NOT_PROGRAMMED K then "NOT_PROGRAMMED"
  else if st =? FPGA_STATUS_CLEARED K then "CLEARED"
  else if st =? FPGA_STATUS_LOADED K then "LOADED"
  else if st =? FPGA_STATUS_BUSY K then "BUSY"
  else "UNKNOWN".

Definition check_afi_ready (slot_id : Z) : M Z :=
  call (
    '(rc, info) <- fpga_mgmt_describe_local_image slot_id 0 ;;
    when (nonzero rc) (
      printf "ERROR: Unable to get AFI information from slot %d. Are you running as root?\n"
             [AInt slot_id] ;;
      Return rc) ;;
    printf "AFI PCI  Vendor ID: 0x%x, Device ID 0x%x\n"
           [AInt (vendor_id (spec_map info (FPGA_APP_PF K)));
            AInt (device_id (spec_map info (FPGA_APP_PF K)))] ;;
    when (neq (status info) (FPGA_STATUS_LOADED K)) (
      printf "ERROR: AFI is not in LOADED state!\n" [] ;;
      printf "       AFI status: %s\n" [AStr (status_name (status info))] ;;
      Return 1) ;;
    printf "AFI is loaded and ready\n" [] ;;
    Return 0).

(** *** test_add_one_operation (lines 156-303)

    The body is cut at the source's own "Step" comments.  [test_data] and
    [output_data] are the local arrays; the steps that read them take them
    as arguments. *)

Definition step1_init_test_data : M (list Z) :=
  printf "Step 1: Initializing test data\n" [] ;;
  for_loop (Z.to_nat NUM_REGISTERS) 0 (fun i test_data =>
    let test_data := aset test_data i (u32 (0x10000000 + i)) in
    printf "  Input[%d] = 0x%08x\n" [AInt i; AInt (aget test_data i)] ;;
    ret test_data) (uninit NUM_REGISTERS).

Definition step2_clear_control (pci_bar_handle : Z) : M unit :=
  printf "Step 2: Clearing control register\n" [] ;;
  rc <- fpga_pci_poke pci_bar_handle CONTROL_REG_ADDR 0x00000000 ;;
  when (nonzero rc) (
    printf "ERROR: Failed to clear control register\n" [] ;;
    Return rc).

Definition step3_write_inputs (pci_bar_handle : Z) (test_data : list Z) : M unit :=
  printf "Step 3: Writing input data to FPGA\n" [] ;;
  for_loop (Z.to_nat NUM_REGISTERS) 0 (fun i _ =>
    let addr := u32 (INPUT_BASE_ADDR + i * 4) in
    rc <- fpga_pci_poke pci_bar_handle addr (aget test_data i) ;;
    when (nonzero rc) (
      printf "ERROR: Failed to write input register %d\n" [AInt i] ;;
      Return rc) ;;
    printf "  Wrote 0x%08x to address 0x%02x\n" [AInt (aget test_data i); AInt addr]) tt.

(** The body of the loop of step 4, for slot [i]. *)
Definition readback_slot (pci_bar_handle : Z) (test_data : list Z) (i : Z) (_ : unit)
  : M unit :=
  let addr := u32 (INPUT_BASE_ADDR + i * 4) in
  '(rc, read_data) <- fpga_pci_peek pci_bar_handle addr ;;
  when (nonzero rc) (
    printf "ERROR: Failed to read input register %d\n" [AInt i] ;;
    Return rc) ;;
  when (neq read_data (aget test_data i)) (
    printf "ERROR: Input readback mismatch at reg %d: expected 0x%08x, got 0x%08x\n"
           [AInt i; AInt (aget test_data i); AInt read_data] ;;
    Return 1) ;;
  printf "  âœ… Input[%d] readback: 0x%08x\n" [AInt i; AInt read_data].

Definition step4_verify_readback (pci_bar_handle : Z) (test_data : list Z) : M unit :=
  printf "Step 4: Verifying input data readback\n" [] ;;
  for_loop (Z.to_nat NUM_REGISTERS) 0 (readback_slot pci_bar_handle test_data) tt.

Definition step5_initial_status (pci_bar_handle : Z) : M unit :=
  printf "Step 5: Checking initial status\n" [] ;;
  '(rc, status) <- fpga_pci_peek pci_bar_handle STATUS_REG_ADDR ;;
  when (nonzero rc) (
    printf "ERROR: Failed to read status register\n" [] ;;
    Return rc) ;;
  printf "Initial status: 0x%08x\n" [AInt status].

Definition step6_start (pci_bar_handle : Z) : M unit :=
  printf "Step 6: Starting Add-One computation\n" [] ;;
  rc <- fpga_pci_poke pci_bar_handle CONTROL_REG_ADDR START_BIT ;;
  when (nonzero rc) (
    printf "ERROR: Failed to start computation\n" [] ;;
    Return rc) ;;
  printf "Computation started\n" [].

(** [while (!(status & DONE_BIT) && poll_count < max_polls) { ... }]; the
    value is the pair of [status] and [poll_count] when the loop is left.
    [fuel] bounds the number of iterations of the model. *)
Fixpoint poll_loop (fuel : nat) (pci_bar_handle status poll_count : Z) : M (Z * Z) :=
  if (Z.land status DONE_BIT =? 0) && (poll_count <? max_polls) then
    match fuel with
    | O => out_of_fuel
    | S fuel' =>
        usleep 1000 ;;
        '(rc, status) <- fpga_pci_peek pci_bar_handle STATUS_REG_ADDR ;;
        when (nonzero rc) (
          printf "ERROR: Failed to read status register during polling\n" [] ;;
          Return rc) ;;
        let poll_count := poll_count + 1 in
        when (Z.rem poll_count 100 =? 0) (
          printf "  Polling... count=%d, status=0x%08x\n" [AInt poll_count; AInt status]) ;;
        poll_loop fuel' pci_bar_handle status poll_count
    end
  else ret (status, poll_count).

Definition step7_wait (pci_bar_handle : Z) : M unit :=
  printf "Step 7: Waiting for computation to complete\n" [] ;;
  let poll_count := 0 in
  let status := 0 in
  '(status, poll_count) <- poll_loop (Z.to_nat max_polls) pci_bar_handle status poll_count ;;
  when (poll_count >=? max_polls) (
    printf "ERROR: Timeout waiting for computation completion after %d polls\n"
           [AInt poll_count] ;;
    Return 1) ;;
  printf "âœ… Computation completed after %d polls\n" [AInt poll_count].

Definition step8_clear_start (pci_bar_handle : Z) : M unit :=
  printf "Step 8: Clearing start bit\n" [] ;;
  rc <- fpga_pci_poke pci_bar_handle CONTROL_REG_ADDR 0x00000000 ;;
  when (nonzero rc) (
    printf "ERROR: Failed to clear start bit\n" [] ;;
    Return rc).

(** The body of the loop of step 9, for slot [i]; the read stores its
    value in [output_data[i]]. *)
Definition read_output_slot (pci_bar_handle : Z) (i : Z) (output_data : list Z)
  : M (list Z) :=
  let addr := u32 (OUTPUT_BASE_ADDR + i * 4) in
  '(rc, value) <- fpga_pci_peek pci_bar_handle addr ;;
  let output_data := aset output_data i value in
  when (nonzero rc) (
    printf "ERROR: Failed to read output register %d\n" [AInt i] ;;
    Return rc) ;;
  printf "  Output[%d] = 0x%08x\n" [AInt i; AInt (aget output_data i)] ;;
  ret output_data.

Definition step9_read_outputs (pci_bar_handle : Z) : M (list Z) :=
  printf "Step 9: Reading output data\n" [] ;;
  for_loop (Z.to_nat NUM_REGISTERS) 0 (read_output_slot pci_bar_handle)
           (uninit NUM_REGISTERS).

(** The body of the comparison loop of step 10, on [correct_count]. *)
Definition compare_slot (test_data output_data : list Z) (i correct_count : Z) : M Z :=
  let expected := u32 (aget test_data i + 1) in
  let is_correct := aget output_data i =? expected in
  let correct_count := if is_correct then correct_count + 1 else correct_count in
  printf "%2d   | 0x%08x | 0x%08x | 0x%08x | %s\n"
         [AInt i; AInt (aget test_data i); AInt (aget output_data i); AInt expected;
          AStr (if is_correct then "âœ… PASS" else "âŒ FAIL")] ;;
  ret correct_count.

Definition step10_verify_results (test_data output_data : list Z) : M Empty_set :=
  printf "Step 10: Verifying results\n" [] ;;
  printf "\nRESULTS COMPARISON:\n" [] ;;
  printf "Reg# | Input      | Output     | Expected   | Status\n" [] ;;
  printf "-----|------------|------------|------------|-------\n" [] ;;
  correct_count <- for_loop (Z.to_nat NUM_REGISTERS) 0
                     (compare_slot test_data output_data) 0 ;;
  printf "\nSUMMARY:\n" [] ;;
  printf "  Correct results: %d/%d\n" [AInt correct_count; AInt NUM_REGISTERS] ;;
  printf "  Accuracy: %d%%\n" [AInt (Z.quot (correct_count * 100) NUM_REGISTERS)] ;;
  if correct_count =? NUM_REGISTERS then
    printf "ðŸŽ‰ ALL OUTPUTS CORRECT! Add-One operation working perfectly!\n" [] ;;
    Return 0
  else
    printf "ðŸ’¥ SOME OUTPUTS INCORRECT! Add-One operation has issues.\n" [] ;;
    Return 1.

(** The steps from 6 on, from 5 on, and from 2 on (the whole cycle), for
    the operand vector [test_data]. *)
Definition from_start (pci_bar_handle : Z) (test_data : list Z) : M Empty_set :=
  step6_start pci_bar_handle ;;
  step7_wait pci_bar_handle ;;
  step8_clear_start pci_bar_handle ;;
  output_data <- step9_read_outputs pci_bar_handle ;;
  step10_verify_results test_data output_data.

Definition after_readback (pci_bar_handle : Z) (test_data : list Z) : M Empty_set :=
  step5_initial_status pci_bar_handle ;;
  from_start pci_bar_handle test_data.

Definition command_cycle (pci_bar_handle : Z) (test_data : list Z) : M Empty_set :=
  step2_clear_control pci_bar_handle ;;
  step3_write_inputs pci_bar_handle test_data ;;
  step4_verify_readback pci_bar_handle test_data ;;
  after_readback pci_bar_handle test_data.

Definition test_add_one_operation (pci_bar_handle : Z) : M Z :=
  call (
    printf "\n=== Testing Add-One Operation ===\n" [] ;;
    test_data <- step1_init_test_data ;;
    command_cycle pci_bar_handle test_data).

(** *** peek_poke_example (lines 120-154)

    [goto cleanup] jumps to the label that follows it.  [pci_bar_handle]
    is declared with the initialiser PCI_BAR_HANDLE_INIT and is read only
    after a successful attach, so it holds what the attach call stored. *)

Definition peek_poke_example (slot_id pf_id bar_id : Z) : M Z :=
  call (
    printf "\n=== Initializing PCI BAR ===\n" [] ;;
    '(rc, pci_bar_handle) <- fpga_pci_attach slot_id pf_id bar_id 0 ;;
    when (nonzero rc) (
      printf "ERROR: Unable to attach to the AFI on slot id %d, pf id %d, bar id %d\n"
             [AInt slot_id; AInt pf_id; AInt bar_id] ;;
      Return rc) ;;
    printf "PCI BAR attached successfully\n" [] ;;
    rc <- test_add_one_operation pci_bar_handle ;;
    when (nonzero rc) (
      printf "ERROR: Add-One operation test failed\n" []) ;;
    rc <- (if pci_bar_handle >=? 0 then
             rc <- fpga_pci_detach pci_bar_handle ;;
             (if nonzero rc then
                printf "ERROR: Failure while detaching from the FPGA\n" []
              else
                printf "PCI BAR detached successfully\n" []) ;;
             ret rc
           else ret rc) ;;
    Return rc).

(** *** main (lines 52-90) *)

Definition main_cleanup {A : Type} (rc : Z) : M A :=
  printf "Cleaning up...\n" [] ;;
  Return rc.

Definition main : M Z :=
  call (
    let slot_id := 0 in
    let pf_id := FPGA_APP_PF K in
    let bar_id := APP_PF_BAR0 K in
    printf "\n=== AWS FPGA Simple Add-One Test ===\n" [] ;;
    rc <- fpga_mgmt_init ;;
    when (nonzero rc) (
      printf "ERROR: Unable to initialize the FPGA management library\n" [] ;;
      Return 1) ;;
    printf "FPGA management library initialized successfully\n" [] ;;
    rc <- check_afi_ready slot_id ;;
    if nonzero rc then
      printf "ERROR: AFI is not ready\n" [] ;;
      main_cleanup rc
    else
      printf "AFI is ready, proceeding with test\n" [] ;;
      rc <- peek_poke_example slot_id pf_id bar_id ;;
      if nonzero rc then
        printf "ERROR: Peek/poke example failed\n" [] ;;
        main_cleanup rc
      else
        printf "Test completed successfully!\n" [] ;;
        main_cleanup rc).

End Program.

(** ** A simulated accelerator

    Concrete SDKs for the runs evaluated below.  The register file is
    recovered from the history: an input slot reads back the last value
    poked to it, an output slot shows the input plus one, and the status
    register shows the done bit from a chosen poll on. *)

Record sim : Type := {
  sim_image_status : Z;   (* what describe_local_image reports *)
  sim_attach_rc : Z;
  sim_detach_rc : Z;
  sim_done_at : Z;        (* first poll, counted from 1, that shows done *)
  sim_stuck_slot : Z;     (* output slot left equal to its input; -1: none *)
  sim_bad_readback : Z    (* input slot that reads back wrong; -1: none *)
}.

Definition last_poke (t : history) (addr : Z) : Z :=
  fold_left (fun acc e =>
               match e with
               | PciPoke _ a v _ => if a =? addr then v else acc
               | _ => acc
               end) t 0.

(** Status reads since the start bit was last written; [None] before. *)
Definition polls_since_start (t : history) : option Z :=
  fold_left (fun acc e =>
               match e with
               | PciPoke _ a v _ =>
                   if (a =? CONTROL_REG_ADDR) && (v =? START_BIT) then Some 0 else acc
               | PciPeek _ a _ _ =>
                   if a =? STATUS_REG_ADDR then option_map Z.succ acc else acc
               | _ => acc
               end) t None.

Definition sim_peek (c : sim) (t : history) (addr : Z) : Z :=
  if addr <? OUTPUT_BASE_ADDR then
    if addr =? INPUT_BASE_ADDR + 4 * sim_bad_readback c
    then u32 (last_poke t addr + 0x100)
    else last_poke t addr
  else if addr <? CONTROL_REG_ADDR then
    let input := last_poke t (addr - OUTPUT_BASE_ADDR) in
    if addr =? OUTPUT_BASE_ADDR + 4 * sim_stuck_slot c then input else u32 (input + 1)
  else if addr =? STATUS_REG_ADDR then
    match polls_since_start t with
    | Some n => if sim_done_at c <=? n + 1 then DONE_BIT else 0
    | None => 0
    end
  else 0.

Definition sim_sdk (c : sim) : sdk := {|
  sdk_mgmt_init := fun _ => 0;
  sdk_describe_local_image := fun _ _ _ =>
    (0, {| status := sim_image_status c;
           spec_map := fun _ => {| vendor_id := 0x1D0F; device_id := 0xF000 |} |});
  sdk_pci_attach := fun _ _ _ _ _ =>
    (sim_attach_rc c, if sim_attach_rc c =? 0 then 0 else -1);
  sdk_pci_detach := fun _ _ => sim_detach_rc c;
  sdk_pci_poke := fun _ _ _ _ => 0;
  sdk_pci_peek := fun t _ addr => (0, sim_peek c t addr)
|}.

(** Values for the header constants in the concrete runs. *)
Definition sample_header : sdk_header := {|
  FPGA_APP_PF := 0;
  APP_PF_BAR0 := 0;
  FPGA_STATUS_LOADED := 0;
  FPGA_STATUS_CLEARED := 1;
  FPGA_STATUS_BUSY := 2;
  FPGA_STATUS_NOT_PROGRAMMED := 3
|}.

(** A loaded image, a device that finishes at the third poll, no fault. *)
Definition healthy : sim := {|
  sim_image_status := 0;
  sim_attach_rc := 0;
  sim_detach_rc := 0;
  sim_done_at := 3;
  sim_stuck_slot := -1;
  sim_bad_readback := -1
|}.

(** Output slot 3 is not incremented. *)
Definition stuck3 : sim := {|
  sim_image_status := 0;
  sim_attach_rc := 0;
  sim_detach_rc := 0;
  sim_done_at := 3;
  sim_stuck_slot := 3;
  sim_bad_readback := -1
|}.

(** The done bit shows exactly at poll [n]. *)
Definition done_at (n : Z) : sim := {|
  sim_image_status := 0;
  sim_attach_rc := 0;
  sim_detach_rc := 0;
  sim_done_at := n;
  sim_stuck_slot := -1;
  sim_bad_readback := -1
|}.

(** Input slot 5 reads back a wrong value. *)
Definition bad_readback5 : sim := {|
  sim_image_status := 0;
  sim_attach_rc := 0;
  sim_detach_rc := 0;
  sim_done_at := 3;
  sim_stuck_slot := -1;
  sim_bad_readback := 5
|}.

(** Further devices and inputs of the concrete runs. *)

(** A device whose image is busy. *)
Definition busy_image : sim := {|
  sim_image_status := 2;
  sim_attach_rc := 0;
  sim_detach_rc := 0;
  sim_done_at := 3;
  sim_stuck_slot := -1;
  sim_bad_readback := -1
|}.

(** The done bit never shows within the budget. *)
Definition never_done : sim := done_at 2000.

(** The operand vector that step 1 builds. *)
Definition operands : list Z :=
  [0x10000000; 0x10000001; 0x10000002; 0x10000003;
   0x10000004; 0x10000005; 0x10000006; 0x10000007].

(** An operand vector with the largest word in slot 0. *)
Definition wrapping_operands : list Z := [0xFFFFFFFF; 1; 2; 3; 4; 5; 6; 7].

(** Devices whose SDK misbehaves in one call, for the concrete runs. *)

(** As [E], except that every read of the register at [addr] fails with
    the code [rc]. *)
Definition with_failing_read (E : sdk) (addr rc : Z) : sdk := {|
  sdk_mgmt_init := sdk_mgmt_init E;
  sdk_describe_local_image := sdk_describe_local_image E;
  sdk_pci_attach := sdk_pci_attach E;
  sdk_pci_detach := sdk_pci_detach E;
  sdk_pci_poke := sdk_pci_poke E;
  sdk_pci_peek := fun t h a => if a =? addr then (rc, 0) else sdk_pci_peek E t h a
|}.

(** As [E], except that the attach answers the code [rc] and stores the
    handle [h]. *)
Definition with_attach (E : sdk) (rc h : Z) : sdk := {|
  sdk_mgmt_init := sdk_mgmt_init E;
  sdk_describe_local_image := sdk_describe_local_image E;
  sdk_pci_attach := fun _ _ _ _ _ => (rc, h);
  sdk_pci_detach := sdk_pci_detach E;
  sdk_pci_poke := sdk_pci_poke E;
  sdk_pci_peek := sdk_pci_peek E
|}.

(** As [E], except that the image reports the PCI identifiers [vendor]
    and [device] for every physical function. *)
Definition with_pci_ids (E : sdk) (vendor device : Z) : sdk := {|
  sdk_mgmt_init := sdk_mgmt_init E;
  sdk_describe_local_image := fun t slot flags =>
    let (rc, info) := sdk_describe_local_image E t slot flags in
    (rc, {| status := status info;
            spec_map := fun _ => {| vendor_id := vendor; device_id := device |} |});
  sdk_pci_attach := sdk_pci_attach E;
  sdk_pci_detach := sdk_pci_detach E;
  sdk_pci_poke := sdk_pci_poke E;
  sdk_pci_peek := sdk_pci_peek E
|}.

(** A healthy device whose detach fails with the code 7. *)
Definition failing_detach : sim := {|
  sim_image_status := 0;
  sim_attach_rc := 0;
  sim_detach_rc := 7;
  sim_done_at := 3;
  sim_stuck_slot := -1;
  sim_bad_readback := -1
|}.

(** * Vocabulary of the statements *)

(** ** Views of a list of events *)

Definition is_printf (e : event) : bool :=
  match e with Printf _ _ => true | _ => false end.

Definition is_detach (e : event) : bool :=
  match e with PciDetach _ _ => true | _ => false end.

Definition is_usleep (e : event) : bool :=
  match e with Usleep _ => true | _ => false end.

(** A write of the start bit to the Control register. *)
Definition is_start_write (e : event) : bool :=
  match e with
  | PciPoke _ a v _ => (a =? CONTROL_REG_ADDR) && (v =? START_BIT)
  | _ => false
  end.

Definition is_status_read (e : event) : bool :=
  match e with PciPeek _ a _ _ => a =? STATUS_REG_ADDR | _ => false end.

(** A read in the Input zone (below the Output base). *)
Definition is_input_read (e : event) : bool :=
  match e with PciPeek _ a _ _ => a <? OUTPUT_BASE_ADDR | _ => false end.

(** A read in the Output zone. *)
Definition is_output_read (e : event) : bool :=
  match e with
  | PciPeek _ a _ _ => (OUTPUT_BASE_ADDR <=? a) && (a <? CONTROL_REG_ADDR)
  | _ => false
  end.

(** The accuracy line of the summary. *)
Definition is_accuracy (e : event) : bool :=
  match e with
  | Printf fmt _ => String.eqb fmt "  Accuracy: %d%%\n"
  | _ => false
  end.

(** The calls to the SDK and to [usleep]: everything but the messages. *)
Definition sdk_calls (ev : list event) : list event :=
  filter (fun e => negb (is_printf e)) ev.

Definition count_detach (ev : list event) : nat :=
  List.length (filter is_detach ev).

Definition status_reads (ev : list event) : list event := filter is_status_read ev.

(** The events that follow the first write of the start bit. *)
Fixpoint after_start (ev : list event) : list event :=
  match ev with
  | [] => []
  | e :: ev' => if is_start_write e then ev' else after_start ev'
  end.

(** The values of the status reads that follow the write of the start bit. *)
Definition polled_status (ev : list event) : list Z :=
  flat_map (fun e => match e with
                     | PciPeek _ a _ v => if a =? STATUS_REG_ADDR then [v] else []
                     | _ => []
                     end) (after_start ev).

(** A register operation, without the handle and without its result. *)
Inductive regop : Type :=
| Rd (addr : Z)
| Wr (addr value : Z).

Fixpoint reg_ops (ev : list event) : list regop :=
  match ev with
  | [] => []
  | PciPoke _ a v _ :: ev' => Wr a v :: reg_ops ev'
  | PciPeek _ a _ _ :: ev' => Rd a :: reg_ops ev'
  | _ :: ev' => reg_ops ev'
  end.

(** [l1] is an initial segment of [l2]. *)
Definition prefix {A : Type} (l1 l2 : list A) : Prop := exists l, l2 = l1 ++ l.

(** ** The expected transform *)

(** As the specification words it: the input plus one modulo 2^32. *)
Definition add_one_expected (input : Z) : Z := (input + 1) mod 2 ^ 32.

Definition slot_correct (test_data output_data : list Z) (i : Z) : bool :=
  aget output_data i =? add_one_expected (aget test_data i).

(** Number of correct slots among the [n] slots from [i] on. *)
Fixpoint count_correct_from (test_data output_data : list Z) (i : Z) (n : nat) : Z :=
  match n with
  | O => 0
  | S n' => (if slot_correct test_data output_data i then 1 else 0)
            + count_correct_from test_data output_data (i + 1) n'
  end.

Definition count_correct (test_data output_data : list Z) : Z :=
  count_correct_from test_data output_data 0 8.

(** ** Messages of the program *)

Definition attach_banner : event := Printf "\n=== Initializing PCI BAR ===\n" [].

Definition cycle_failed_msg (rc : Z) : list event :=
  if nonzero rc then [Printf "ERROR: Add-One operation test failed\n" []] else [].

Definition detach_msg (rc : Z) : event :=
  if nonzero rc then Printf "ERROR: Failure while detaching from the FPGA\n" []
  else Printf "PCI BAR detached successfully\n" [].

Definition timeout_msg (attempts : Z) : event :=
  Printf "ERROR: Timeout waiting for computation completion after %d polls\n" [AInt attempts].

Definition mismatch_msg (i expected got : Z) : event :=
  Printf "ERROR: Input readback mismatch at reg %d: expected 0x%08x, got 0x%08x\n"
         [AInt i; AInt expected; AInt got].

Definition report_header : list event :=
  [Printf "Step 10: Verifying results\n" [];
   Printf "\nRESULTS COMPARISON:\n" [];
   Printf "Reg# | Input      | Output     | Expected   | Status\n" [];
   Printf "-----|------------|------------|------------|-------\n" []].

(** The line of the report for slot [i]. *)
Definition result_row (test_data output_data : list Z) (i : Z) : event :=
  Printf "%2d   | 0x%08x | 0x%08x | 0x%08x | %s\n"
         [AInt i; AInt (aget test_data i); AInt (aget output_data i);
          AInt (add_one_expected (aget test_data i));
          AStr (if slot_correct test_data output_data i then "âœ… PASS" else "âŒ FAIL")].

Fixpoint result_rows (test_data output_data : list Z) (i : Z) (n : nat) : list event :=
  match n with
  | O => []
  | S n' => result_row test_data output_data i :: result_rows test_data output_data (i + 1) n'
  end.

Definition verdict (correct : Z) : event :=
  if correct =? NUM_REGISTERS
  then Printf "ðŸŽ‰ ALL OUTPUTS CORRECT! Add-One operation working perfectly!\n" []
  else Printf "ðŸ’¥ SOME OUTPUTS INCORRECT! Add-One operation has issues.\n" [].

(** A report whose line of the number of correct slots shows [n]. *)
Definition reports_correct (n : Z) (ev : list event) : Prop :=
  In (Printf "  Correct results: %d/%d\n" [AInt n; AInt 8]) ev.

(** The history at the call of [test_add_one_operation] in a run of
    [peek_poke_example] from the empty history with handle 0. *)
Definition attached0 : history :=
  [attach_banner; PciAttach 0 0 0 0 0 0; Printf "PCI BAR attached successfully\n" []].

(** ** Orders of the register operations *)

Definition slots : list Z := [0; 1; 2; 3; 4; 5; 6; 7].

(** The register operations of a complete cycle on the operands [d] with
    [k] status reads while polling, in the order of the state machine of
    the specification: clear Control, write the inputs, read them back,
    write the start bit, poll, clear Control, read the outputs. *)
Definition spec_order (d : list Z) (k : nat) : list regop :=
  [Wr CONTROL_REG_ADDR 0]
    ++ map (fun i => Wr (INPUT_BASE_ADDR + i * 4) (aget d i)) slots
    ++ map (fun i => Rd (INPUT_BASE_ADDR + i * 4)) slots
    ++ [Wr CONTROL_REG_ADDR START_BIT]
    ++ repeat (Rd STATUS_REG_ADDR) k
    ++ [Wr CONTROL_REG_ADDR 0]
    ++ map (fun i => Rd (OUTPUT_BASE_ADDR + i * 4)) slots.

(** The same with the read of the Status register that step 5 of the code
    makes between the readback and the write of the start bit. *)
Definition code_order (d : list Z) (k : nat) : list regop :=
  [Wr CONTROL_REG_ADDR 0]
    ++ map (fun i => Wr (INPUT_BASE_ADDR + i * 4) (aget d i)) slots
    ++ map (fun i => Rd (INPUT_BASE_ADDR + i * 4)) slots
    ++ [Rd STATUS_REG_ADDR]
    ++ [Wr CONTROL_REG_ADDR START_BIT]
    ++ repeat (Rd STATUS_REG_ADDR) k
    ++ [Wr CONTROL_REG_ADDR 0]
    ++ map (fun i => Rd (OUTPUT_BASE_ADDR + i * 4)) slots.

(** ** Decidable tests on events, for the concrete runs *)

Definition arg_eqb (a b : arg) : bool :=
  match a, b with
  | AInt x, AInt y => x =? y
  | AStr x, AStr y => String.eqb x y
  | _, _ => false
  end.

Fixpoint args_eqb (l1 l2 : list arg) : bool :=
  match l1, l2 with
  | [], [] => true
  | a :: l1', b :: l2' => arg_eqb a b && args_eqb l1' l2'
  | _, _ => false
  end.

(** The message [fmt] with the arguments [args] is among the events. *)
Definition printed (fmt : string) (args : list arg) (ev : list event) : bool :=
  existsb (fun e => match e with
                    | Printf f a => String.eqb f fmt && args_eqb a args
                    | _ => false
                    end) ev.

Definition peek_is (h a rc v : Z) (e : event) : bool :=
  match e with
  | PciPeek h' a' rc' v' => (h' =? h) && (a' =? a) && (rc' =? rc) && (v' =? v)
  | _ => false
  end.

Definition poke_is (h a v rc : Z) (e : event) : bool :=
  match e with
  | PciPoke h' a' v' rc' => (h' =? h) && (a' =? a) && (v' =? v) && (rc' =? rc)
  | _ => false
  end.

(** ** Properties of statements *)

(** [safe P m]: from every history, [m] does not run out of fuel and emits
    only events that satisfy [P]. *)
Definition safe {A : Type} (P : event -> bool) (m : M A) : Prop :=
  forall t, fst (m t) <> Fuel /\ forallb P (snd (m t)) = true.

(** The classes of events used with [safe]. *)
Definition not_start (e : event) : bool := negb (is_start_write e).

(** No start write, no status read, no sleep. *)
Definition quiet (e : event) : bool :=
  negb (is_start_write e) && negb (is_status_read e) && negb (is_usleep e).

Definition quiet_no_read (e : event) : bool :=
  quiet e && negb (is_input_read e).

Definition no_input_read (e : event) : bool := negb (is_input_read e).

Definition not_accuracy (e : event) : bool := negb (is_accuracy e).

(** What steps 2 to 8 emit: no read of an output and no accuracy line. *)
Definition before_outputs (e : event) : bool :=
  negb (is_output_read e) && negb (is_accuracy e).

(** Sets of sequences of register operations. *)
Definition opset : Type := list regop -> Prop.

Definition one (ops : list regop) : opset := eq ops.

Definition seq_ops (L1 L2 : opset) : opset :=
  fun ops => exists o1 o2, L1 o1 /\ L2 o2 /\ ops = o1 ++ o2.

Definition polls (lo hi : nat) : opset :=
  fun ops => exists k, (lo <= k <= hi)%nat /\ ops = repeat (Rd STATUS_REG_ADDR) k.

(** [runs m L]: when [m] falls through it has performed a sequence of [L];
    when it returns, the code is not 0 and it has performed an initial
    segment of a sequence of [L]; it does not run out of fuel. *)
Definition runs {A : Type} (m : M A) (L : opset) : Prop :=
  forall t,
    match m t with
    | (Val _, ev) => L (reg_ops ev)
    | (Ret rc, ev) => rc <> 0 /\ exists ops, L ops /\ prefix (reg_ops ev) ops
    | (Fuel, _) => False
    end.

(** [finishes m L]: [m] returns, after an initial segment of a sequence of
    [L], and after the whole sequence when the code is 0. *)
Definition finishes (m : M Empty_set) (L : opset) : Prop :=
  forall t,
    match m t with
    | (Ret rc, ev) =>
        exists ops, L ops /\ prefix (reg_ops ev) ops /\ (rc = 0 -> reg_ops ev = ops)
    | _ => False
    end.

(** ** Failed register accesses *)

(** A register access for which the SDK returned a code other than 0. *)
Definition io_failed (e : event) : bool :=
  match e with
  | PciPoke _ _ _ rc => nonzero rc
  | PciPeek _ _ rc _ => nonzero rc
  | _ => false
  end.

(** The code that the SDK returned for a register access. *)
Definition io_code (e : event) : Z :=
  match e with
  | PciPoke _ _ _ rc => rc
  | PciPeek _ _ rc _ => rc
  | _ => 0
  end.

Definition io_ok (e : event) : bool := negb (io_failed e).

(** The events of a statement that stopped at a failed access with the
    code [rc]: no access failed before it, and one message follows it. *)
Definition aborted_at (rc : Z) (ev : list event) : Prop :=
  exists pre e msg,
    ev = pre ++ [e; msg] /\ forallb io_ok pre = true /\
    io_failed e = true /\ io_code e = rc /\ is_printf msg = true.

(** [strict m]: [m] checks the code of every register access.  When it
    falls through no access failed; when it returns, either no access
    failed and the code is 0 or 1, or it stopped at the failed access and
    returns its code; it does not run out of fuel. *)
Definition strict {A : Type} (m : M A) : Prop :=
  forall t,
    match m t with
    | (Val _, ev) => forallb io_ok ev = true
    | (Ret rc, ev) => (forallb io_ok ev = true /\ (rc = 0 \/ rc = 1)) \/ aborted_at rc ev
    | (Fuel, _) => False
    end.

(** ** Sleeping and polling *)

(** The time slept in a run, in microseconds. *)
Definition slept (ev : list event) : Z :=
  fold_right (fun e acc => match e with Usleep usec => usec + acc | _ => acc end) 0 ev.

(** One attempt of the polling loop: the sleep and the read of the Status
    register, with the code and the value that the read gave. *)
Definition poll_pair (h : Z) (r : Z * Z) : list event :=
  [Usleep 1000; PciPeek h STATUS_REG_ADDR (fst r) (snd r)].

(** A sleep or a read of the Status register. *)
Definition is_poll_call (e : event) : bool := is_usleep e || is_status_read e.

(** The timeout message of step 7, with any number of attempts. *)
Definition is_timeout (e : event) : bool :=
  match e with
  | Printf fmt _ =>
      String.eqb fmt "ERROR: Timeout waiting for computation completion after %d polls\n"
  | _ => false
  end.

Definition completed_msg (attempts : Z) : event :=
  Printf "âœ… Computation completed after %d polls\n" [AInt attempts].

(** A progress line of the polling loop. *)
Definition progress_msg (attempts status : Z) : event :=
  Printf "  Polling... count=%d, status=0x%08x\n" [AInt attempts; AInt status].

Definition is_progress (e : event) : bool :=
  match e with
  | Printf fmt _ => String.eqb fmt "  Polling... count=%d, status=0x%08x\n"
  | _ => false
  end.

(** What steps 1 to 5 emit: no write of the start bit, no sleep, no
    timeout message, no progress line. *)
Definition before_start (e : event) : bool :=
  negb (is_start_write e) && negb (is_usleep e) && negb (is_timeout e)
  && negb (is_progress e).

(** What steps 8 to 10 emit: in addition, no read of the Status register. *)
Definition after_poll (e : event) : bool :=
  before_start e && negb (is_status_read e).

(** What the polling loop emits: sleeps, reads of the Status register and
    messages other than the timeout message. *)
Definition poll_event (e : event) : bool :=
  match e with
  | Usleep _ => true
  | PciPeek _ a _ _ => a =? STATUS_REG_ADDR
  | Printf _ _ => negb (is_timeout e)
  | _ => false
  end.

(** The number of reads of the Status register that succeeded among
    [ev], and in a run after the write of the start bit. *)
Definition ok_status_reads (ev : list event) : Z :=
  Z.of_nat (List.length (filter io_ok (status_reads ev))).

Definition polls_ok (ev : list event) : Z := ok_status_reads (after_start ev).

(** ** The register map and the session *)

(** A read or a write of a register. *)
Definition is_access (e : event) : bool :=
  match e with
  | PciPoke _ _ _ _ | PciPeek _ _ _ _ => true
  | _ => false
  end.

(** A call to the PCI part of the SDK. *)
Definition is_pci (e : event) : bool :=
  match e with
  | PciAttach _ _ _ _ _ _ | PciDetach _ _ | PciPoke _ _ _ _ | PciPeek _ _ _ _ => true
  | _ => false
  end.

(** [a] is the address of a slot of the zone that starts at [base]. *)
Definition slot_addr (base a : Z) : bool :=
  existsb (fun i => a =? base + i * 4) slots.

(** The write of the operand of step 1 to its input slot. *)
Definition operand_write (a v : Z) : bool :=
  existsb (fun i => (a =? INPUT_BASE_ADDR + i * 4) && (v =? 0x10000000 + i)) slots.

(** The register accesses of the protocol: the operands to the Input
    zone, 0 or the start bit to Control, reads of the Input zone, of the
    Output zone and of Status; no SDK call of another kind. *)
Definition in_register_map (e : event) : bool :=
  match e with
  | PciPoke _ a v _ =>
      operand_write a v || ((a =? CONTROL_REG_ADDR) && ((v =? 0) || (v =? START_BIT)))
  | PciPeek _ a _ _ =>
      slot_addr INPUT_BASE_ADDR a || slot_addr OUTPUT_BASE_ADDR a || (a =? STATUS_REG_ADDR)
  | Printf _ _ | Usleep _ => true
  | _ => false
  end.

(** The register accesses of [e], if any, go through the handle [h]. *)
Definition on_handle (h : Z) (e : event) : bool :=
  match e with
  | PciPoke h' _ _ _ | PciPeek h' _ _ _ => h' =? h
  | _ => true
  end.

(** What [test_add_one_operation] emits: register accesses, sleeps, and
    messages other than those of its callers. *)
Definition cycle_event (e : event) : bool :=
  match e with
  | PciPoke _ _ _ _ | PciPeek _ _ _ _ | Usleep _ => true
  | Printf fmt _ =>
      negb (String.eqb fmt "ERROR: Add-One operation test failed\n")
      && negb (String.eqb fmt "Test completed successfully!\n")
      && negb (String.eqb fmt "Cleaning up...\n")
  | _ => false
  end.

(** What [peek_poke_example] emits: no call to the management library,
    and no message of the end of [main]. *)
Definition session_event (e : event) : bool :=
  match e with
  | MgmtInit _ | DescribeLocalImage _ _ _ _ => false
  | Printf fmt _ =>
      negb (String.eqb fmt "Test completed successfully!\n")
      && negb (String.eqb fmt "Cleaning up...\n")
  | _ => true
  end.

(** The history at the call of [test_add_one_operation] in a run of
    [peek_poke_example] from [t] in which the attach gave the handle [h]. *)
Definition attached (t : history) (slot pf bar h : Z) : history :=
  t ++ [attach_banner; PciAttach slot pf bar 0 0 h;
        Printf "PCI BAR attached successfully\n" []].

(** ** Messages of [main] *)

Definition success_msg : event := Printf "Test completed successfully!\n" [].

Definition cleanup_msg : event := Printf "Cleaning up...\n" [].

(** The message that follows the return of [peek_poke_example]. *)
Definition main_verdict (rc : Z) : event :=
  if nonzero rc then Printf "ERROR: Peek/poke example failed\n" [] else success_msg.

(** The events of [main] up to the call of [check_afi_ready], when the
    initialisation of the management library succeeded. *)
Definition main_prologue : list event :=
  [Printf "\n=== AWS FPGA Simple Add-One Test ===\n" [];
   MgmtInit 0;
   Printf "FPGA management library initialized successfully\n" []].

(** The line of [check_afi_ready] with the PCI identifiers of the image. *)
Definition afi_ids_msg (K : sdk_header) (info : fpga_mgmt_image_info) : event :=
  Printf "AFI PCI  Vendor ID: 0x%x, Device ID 0x%x\n"
         [AInt (vendor_id (spec_map info (FPGA_APP_PF K)));
          AInt (device_id (spec_map info (FPGA_APP_PF K)))].

(** ** Announcements of the result *)

Definition all_correct_msg : event :=
  Printf "ðŸŽ‰ ALL OUTPUTS CORRECT! Add-One operation working perfectly!\n" [].

Definition some_incorrect_msg : event :=
  Printf "ðŸ’¥ SOME OUTPUTS INCORRECT! Add-One operation has issues.\n" [].

(** A message that begins with "ERROR: ". *)
Definition is_error_msg (e : event) : bool :=
  match e with
  | Printf fmt _ => String.prefix "ERROR: " fmt
  | _ => false
  end.

(** [e] is the message [fmt], printed without arguments. *)
Definition is_msg (fmt : string) (e : event) : bool :=
  match e with
  | Printf f [] => String.eqb f fmt
  | _ => false
  end.

(** The message that goes with the code [rc]: the message of success for
    0, an error message or the message of incorrect outputs otherwise. *)
Definition announces (rc : Z) (e : event) : bool :=
  if rc =? 0 then
    is_msg "ðŸŽ‰ ALL OUTPUTS CORRECT! Add-One operation working perfectly!\n" e
  else
    is_error_msg e
    || is_msg "ðŸ’¥ SOME OUTPUTS INCORRECT! Add-One operation has issues.\n" e.

(** [announced m]: when [m] returns, the last thing it did was to print
    the message that goes with the code; it does not run out of fuel. *)
Definition announced {A : Type} (m : M A) : Prop :=
  forall t,
    match m t with
    | (Val _, _) => True
    | (Ret rc, ev) => exists pre e, ev = pre ++ [e] /\ announces rc e = true
    | (Fuel, _) => False
    end.

(** ** Further tests on events, for the concrete runs *)

(** If [e] is an attach, it answered [rc] and stored [h]. *)
Definition attach_is (rc h : Z) (e : event) : bool :=
  match e with
  | PciAttach _ _ _ _ rc' h' => (rc' =? rc) && (h' =? h)
  | _ => true
  end.

(** [e] is the detach of [h] with the code [rc]. *)
Definition detach_is (h rc : Z) (e : event) : bool :=
  match e with
  | PciDetach h' rc' => (h' =? h) && (rc' =? rc)
  | _ => false
  end.

(** * Properties *)

(** ** Running statements *)

Lemma bind_run {A B : Type} (m : M A) (f : A -> M B) (t : history) :
  bind m f t =
  match m t with
  | (Val a, ev) => (fst (f a (t ++ ev)), ev ++ snd (f a (t ++ ev)))
  | (Ret rc, ev) => (Ret rc, ev)
  | (Fuel, ev) => (Fuel, ev)
  end.
Proof.
  unfold bind. destruct (m t) as [[a | rc |] ev]; trivial.
  destruct (f a (t ++ ev)); reflexivity.
Qed.

Lemma call_run (body : M Empty_set) (t : history) :
  call body t =
  match body t with
  | (Val a, ev) => (Fuel, ev)
  | (Ret rc, ev) => (Val rc, ev)
  | (Fuel, ev) => (Fuel, ev)
  end.
Proof.
  unfold call. destruct (body t) as [[a | rc |] ev]; trivial. destruct a.
Qed.

Lemma reg_ops_app (l1 l2 : list event) : reg_ops (l1 ++ l2) = reg_ops l1 ++ reg_ops l2.
Proof.
  induction l1 as [| e l1 IH]; simpl; trivial.
  destruct e; simpl; rewrite ?IH; reflexivity.
Qed.

Lemma prefix_refl {A : Type} (l : list A) : prefix l l.
Proof. exists []. symmetry. apply app_nil_r. Qed.

Lemma prefix_app_r {A : Type} (l1 l2 l3 : list A) : prefix l1 l2 -> prefix l1 (l2 ++ l3).
Proof. intros [l ->]. exists (l ++ l3). symmetry. apply app_assoc. Qed.

Lemma prefix_app_l {A : Type} (l l1 l2 : list A) : prefix l1 l2 -> prefix (l ++ l1) (l ++ l2).
Proof. intros [l' ->]. exists l'. apply app_assoc. Qed.

(** ** Soundness of the boolean tests on events *)

Lemma args_eqb_eq (l1 l2 : list arg) : args_eqb l1 l2 = true -> l1 = l2.
Proof.
  revert l2. induction l1 as [| a l1 IH]; intros [| b l2] H; simpl in H;
    try discriminate; trivial.
  apply andb_prop in H as [Hab Hl]. f_equal; [| auto].
  destruct a, b; simpl in Hab; try discriminate.
  - apply Z.eqb_eq in Hab. congruence.
  - apply String.eqb_eq in Hab. congruence.
Qed.

Lemma printed_In (fmt : string) (args : list arg) (ev : list event) :
  printed fmt args ev = true -> In (Printf fmt args) ev.
Proof.
  unfold printed. rewrite existsb_exists. intros (e & Hin & He).
  destruct e; try discriminate. apply andb_prop in He as [Hf Ha].
  apply String.eqb_eq in Hf. apply args_eqb_eq in Ha. subst. exact Hin.
Qed.

Lemma peek_is_In (h a rc v : Z) (ev : list event) :
  existsb (peek_is h a rc v) ev = true -> In (PciPeek h a rc v) ev.
Proof.
  rewrite existsb_exists. intros (e & Hin & He). destruct e; try discriminate.
  simpl in He. repeat (apply andb_prop in He as [He ?]).
  repeat match goal with H : (_ =? _) = true |- _ => apply Z.eqb_eq in H end.
  subst. exact Hin.
Qed.

Lemma poke_is_In (h a v rc : Z) (ev : list event) :
  existsb (poke_is h a v rc) ev = true -> In (PciPoke h a v rc) ev.
Proof.
  rewrite existsb_exists. intros (e & Hin & He). destruct e; try discriminate.
  simpl in He. repeat (apply andb_prop in He as [He ?]).
  repeat match goal with H : (_ =? _) = true |- _ => apply Z.eqb_eq in H end.
  subst. exact Hin.
Qed.

(** ** Safety: a statement terminates and emits only allowed events *)

Section Safety.

Variable E : sdk.
Variable P : event -> bool.

Lemma safe_ret {A : Type} (a : A) : safe P (ret a).
Proof. intro t. split; [discriminate | reflexivity]. Qed.

Lemma safe_Return {A : Type} (rc : Z) : safe P (@Return A rc).
Proof. intro t. split; [discriminate | reflexivity]. Qed.

Lemma safe_bind {A B : Type} (m : M A) (f : A -> M B) :
  safe P m -> (forall a, safe P (f a)) -> safe P (bind m f).
Proof.
  intros Hm Hf t. rewrite bind_run.
  destruct (Hm t) as [Hm1 Hm2]. destruct (m t) as [[a | rc |] ev]; simpl in *.
  - destruct (Hf a (t ++ ev)) as [Hf1 Hf2]. split; trivial.
    rewrite forallb_app, Hm2, Hf2. reflexivity.
  - split; [discriminate | trivial].
  - contradiction.
Qed.

Lemma safe_call (body : M Empty_set) : safe P body -> safe P (call body).
Proof.
  intros Hb t. rewrite call_run. destruct (Hb t) as [H1 H2].
  destruct (body t) as [[a | rc |] ev]; simpl in *.
  - destruct a.
  - split; [discriminate | trivial].
  - contradiction.
Qed.

Lemma safe_when (c : bool) (body : M unit) : safe P body -> safe P (when c body).
Proof. intro Hb. destruct c; simpl; [exact Hb | apply safe_ret]. Qed.

Lemma safe_printf (fmt : string) (args : list arg) :
  P (Printf fmt args) = true -> safe P (printf fmt args).
Proof. intros H t. simpl. rewrite H. split; [discriminate | reflexivity]. Qed.

Lemma safe_usleep (usec : Z) : P (Usleep usec) = true -> safe P (usleep usec).
Proof. intros H t. simpl. rewrite H. split; [discriminate | reflexivity]. Qed.

Lemma safe_poke (h a v : Z) :
  (forall rc, P (PciPoke h a v rc) = true) -> safe P (fpga_pci_poke E h a v).
Proof. intros H t. simpl. rewrite H. split; [discriminate | reflexivity]. Qed.

Lemma safe_peek (h a : Z) :
  (forall rc v, P (PciPeek h a rc v) = true) -> safe P (fpga_pci_peek E h a).
Proof.
  intros H t. unfold fpga_pci_peek. destruct (sdk_pci_peek E t h a) as [rc v].
  simpl. rewrite H. split; [discriminate | reflexivity].
Qed.

Lemma safe_for_loop_O {St : Type} (i : Z) (body : Z -> St -> M St) (s : St) :
  safe P (for_loop 0 i body s).
Proof. apply safe_ret. Qed.

Lemma safe_for_loop_S {St : Type} (n : nat) (i : Z) (body : Z -> St -> M St) (s : St) :
  safe P (body i s) ->
  (forall s', safe P (for_loop n (i + 1) body s')) ->
  safe P (for_loop (S n) i body s).
Proof. intros H1 H2. simpl. apply safe_bind; assumption. Qed.

(** The polling loop stays within its budget: with [max_polls - poll_count]
    iterations of fuel it never runs out. *)
Lemma safe_poll_loop (h : Z) :
  P (Usleep 1000) = true ->
  (forall rc v, P (PciPeek h STATUS_REG_ADDR rc v) = true) ->
  P (Printf "ERROR: Failed to read status register during polling\n" []) = true ->
  (forall pc v,
     P (Printf "  Polling... count=%d, status=0x%08x\n" [AInt pc; AInt v]) = true) ->
  forall (fuel : nat) (st pc : Z),
    max_polls <= pc + Z.of_nat fuel ->
    safe P (poll_loop E fuel h st pc).
Proof.
  intros Hs Hp He Hf fuel. induction fuel as [| fuel IH]; intros st pc Hle; simpl.
  - destruct (Z.ltb_spec pc max_polls) as [Hlt | Hge]; [lia |].
    rewrite andb_false_r. apply safe_ret.
  - destruct ((Z.land st DONE_BIT =? 0) && (pc <? max_polls)); [| apply safe_ret].
    apply safe_bind; [apply safe_usleep; exact Hs | intros _].
    apply safe_bind; [apply safe_peek; exact Hp | intros [rc v]].
    apply safe_bind.
    { apply safe_when. apply safe_bind; [apply safe_printf, He | intros _; apply safe_Return]. }
    intros _. apply safe_bind; [apply safe_when, safe_printf, Hf | intros _].
    apply IH. lia.
Qed.

End Safety.

Ltac head_of t :=
  lazymatch t with
  | ?f _ => head_of f
  | _ => t
  end.

Ltac safe_step :=
  lazymatch goal with
  | |- safe _ (bind _ _) => apply safe_bind; [| intros ?]
  | |- safe _ (ret _) => apply safe_ret
  | |- safe _ (Return _) => apply safe_Return
  | |- safe _ (call _) => apply safe_call
  | |- safe _ (when _ _) => apply safe_when
  | |- safe _ (printf _ _) => apply safe_printf; reflexivity
  | |- safe _ (usleep _) => apply safe_usleep; reflexivity
  | |- safe _ (fpga_pci_poke _ _ _ _) => apply safe_poke; intros; reflexivity
  | |- safe _ (fpga_pci_peek _ _ _) => apply safe_peek; intros; reflexivity
  | |- safe _ (for_loop O _ _ _) => apply safe_for_loop_O
  | |- safe _ (for_loop (S _) _ _ _) => apply safe_for_loop_S; [| intros ?]
  | |- safe _ (poll_loop _ _ _ _ _) =>
      apply safe_poll_loop;
      [reflexivity | intros; reflexivity | reflexivity | intros; reflexivity
      | vm_compute; discriminate]
  | |- safe _ (match ?x with (_, _) => _ end) => destruct x
  | |- safe _ (if ?c then _ else _) => destruct c
  | |- safe _ (let _ := _ in _) => cbv zeta
  | |- safe _ ?m => let f := head_of m in unfold f
  end.

Ltac safe_auto :=
  repeat (change (Z.to_nat NUM_REGISTERS) with 8%nat; safe_step).

(** ** The command cycle terminates and never detaches *)

Lemma filter_none {A : Type} (Q : A -> bool) (l : list A) :
  forallb (fun x => negb (Q x)) l = true -> filter Q l = [].
Proof.
  induction l as [| x l IH]; simpl; trivial.
  intro H. apply andb_prop in H as [Hx Hl].
  destruct (Q x); [discriminate | auto].
Qed.

Lemma test_add_one_operation_no_detach (E : sdk) (h : Z) :
  safe (fun e => negb (is_detach e)) (test_add_one_operation E h).
Proof. safe_auto. Qed.

(** [test_add_one_operation] always returns: the polling loop is bounded
    by [max_polls], which is the fuel the model gives it. *)
Lemma test_add_one_operation_returns (E : sdk) (h : Z) (t : history) :
  exists rc, fst (test_add_one_operation E h t) = Val rc.
Proof.
  destruct (test_add_one_operation_no_detach E h t) as [H _].
  destruct (test_add_one_operation E h t) as [[rc | rc |] ev] eqn:Hrun; simpl in *.
  - exists rc. reflexivity.
  - exfalso. unfold test_add_one_operation in Hrun. rewrite call_run in Hrun.
    match type of Hrun with
    | context [let (_, _) := ?x in _] => destruct x as [[[] | rc' |] ev']
    end; discriminate.
  - contradiction.
Qed.

Arguments test_add_one_operation : simpl never.

Lemma peek_poke_example_attach_failed (E : sdk) (slot pf bar : Z) (t : history) (rc h : Z) :
  sdk_pci_attach E (t ++ [attach_banner]) slot pf bar 0 = (rc, h) ->
  rc <> 0 ->
  peek_poke_example E slot pf bar t =
  (Val rc,
   [attach_banner; PciAttach slot pf bar 0 rc h;
    Printf "ERROR: Unable to attach to the AFI on slot id %d, pf id %d, bar id %d\n"
           [AInt slot; AInt pf; AInt bar]]).
Proof.
  intros Ha Hrc. unfold attach_banner in *.
  unfold peek_poke_example, call, bind, fpga_pci_attach, printf. simpl.
  rewrite Ha. unfold nonzero, neq. destruct (Z.eqb_spec rc 0) as [-> | _]; [contradiction |].
  reflexivity.
Qed.

Lemma peek_poke_example_attached (E : sdk) (slot pf bar : Z) (t : history)
      (h rc_c : Z) (ev_c : list event) :
  let t1 := t ++ [attach_banner; PciAttach slot pf bar 0 0 h;
                  Printf "PCI BAR attached successfully\n" []] in
  sdk_pci_attach E (t ++ [attach_banner]) slot pf bar 0 = (0, h) ->
  test_add_one_operation E h t1 = (Val rc_c, ev_c) ->
  peek_poke_example E slot pf bar t =
  if h >=? 0 then
    let rc_d := sdk_pci_detach E (t1 ++ ev_c ++ cycle_failed_msg rc_c) h in
    (Val rc_d,
     [attach_banner; PciAttach slot pf bar 0 0 h; Printf "PCI BAR attached successfully\n" []]
       ++ ev_c ++ cycle_failed_msg rc_c ++ [PciDetach h rc_d; detach_msg rc_d])
  else
    (Val rc_c,
     [attach_banner; PciAttach slot pf bar 0 0 h; Printf "PCI BAR attached successfully\n" []]
       ++ ev_c ++ cycle_failed_msg rc_c).
Proof.
  intros t1 Ha Hc. subst t1. unfold attach_banner, cycle_failed_msg, detach_msg in *.
  unfold peek_poke_example, call, bind, fpga_pci_attach, fpga_pci_detach, printf, when. simpl.
  rewrite Ha. simpl. repeat (rewrite <- app_assoc; simpl). rewrite Hc.
  destruct (nonzero rc_c); simpl; destruct (h >=? 0); simpl;
    repeat (rewrite <- app_assoc; simpl);
    try match goal with |- context [nonzero ?x] => destruct (nonzero x) end;
    simpl; repeat (rewrite <- app_assoc; simpl); rewrite ?app_nil_r; reflexivity.
Qed.

Lemma sdk_calls_app (l1 l2 : list event) :
  sdk_calls (l1 ++ l2) = sdk_calls l1 ++ sdk_calls l2.
Proof. apply filter_app. Qed.

Lemma count_detach_app (l1 l2 : list event) :
  count_detach (l1 ++ l2) = (count_detach l1 + count_detach l2)%nat.
Proof. unfold count_detach. rewrite filter_app. apply length_app. Qed.

Lemma cycle_count_detach (E : sdk) (h : Z) (t : history) :
  count_detach (snd (test_add_one_operation E h t)) = 0%nat.
Proof.
  unfold count_detach. rewrite filter_none; trivial.
  apply test_add_one_operation_no_detach.
Qed.

Lemma cycle_failed_msg_printf (rc : Z) :
  sdk_calls (cycle_failed_msg rc) = [] /\ count_detach (cycle_failed_msg rc) = 0%nat.
Proof. unfold cycle_failed_msg. destruct (nonzero rc); split; reflexivity. Qed.

Lemma detach_msg_printf (rc : Z) :
  is_printf (detach_msg rc) = true /\ is_detach (detach_msg rc) = false.
Proof. unfold detach_msg. destruct (nonzero rc); split; reflexivity. Qed.

(** ** Session lifecycle *)

(** C7. The first SDK call of [peek_poke_example] is the attach.  When it
    fails, the function returns its code and no detach happens.  When it
    succeeds (code 0, and the handle it stored is a valid one, that is not
    negative), the function returns, exactly one detach happened in the
    run, it detached that handle and it is the last SDK call; this holds
    for every SDK, so for every way the command cycle can end. *)
Theorem detach_once_per_attach (E : sdk) (slot pf bar : Z) (t : history) :
  let (o, ev) := peek_poke_example E slot pf bar t in
  exists rc h,
    (exists post, sdk_calls ev = PciAttach slot pf bar 0 rc h :: post) /\
    (rc <> 0 -> o = Val rc /\ count_detach ev = 0%nat) /\
    (rc = 0 -> 0 <= h ->
     (exists r, o = Val r) /\ count_detach ev = 1%nat /\
     exists pre rc_d, sdk_calls ev = pre ++ [PciDetach h rc_d]).
Proof.
  destruct (sdk_pci_attach E (t ++ [attach_banner]) slot pf bar 0) as [rc h] eqn:Ha.
  destruct (Z.eq_dec rc 0) as [-> | Hrc].
  - set (t1 := t ++ [attach_banner; PciAttach slot pf bar 0 0 h;
                     Printf "PCI BAR attached successfully\n" []]).
    pose proof (cycle_count_detach E h t1) as Hnd.
    destruct (test_add_one_operation_returns E h t1) as [rc_c Hret].
    destruct (test_add_one_operation E h t1) as [o_c ev_c] eqn:Hc.
    simpl in Hret, Hnd. subst o_c.
    rewrite (peek_poke_example_attached E slot pf bar t h rc_c ev_c Ha Hc).
    destruct (cycle_failed_msg_printf rc_c) as [Hm1 Hm2].
    destruct (Z.geb_spec h 0) as [Hh | Hh]; exists 0, h.
    + cbv zeta. split; [| split].
      * eexists. change (?a :: ?b :: ?c :: nil) with ([a] ++ [b] ++ [c]) at 1.
        rewrite !sdk_calls_app. reflexivity.
      * intro H. contradiction.
      * intros _ _. split; [eexists; reflexivity |]. split.
        -- rewrite !count_detach_app, Hnd, Hm2. unfold count_detach. simpl.
           rewrite (proj2 (detach_msg_printf _)). reflexivity.
        -- exists (PciAttach slot pf bar 0 0 h :: sdk_calls ev_c). eexists.
           rewrite !sdk_calls_app, Hm1. simpl.
           rewrite (proj1 (detach_msg_printf _)). reflexivity.
    + split; [| split].
      * eexists. rewrite !sdk_calls_app. reflexivity.
      * intro H. contradiction.
      * intros _ H. lia.
  - rewrite (peek_poke_example_attach_failed E slot pf bar t rc h Ha Hrc).
    exists rc, h. split; [| split].
    + exists []. reflexivity.
    + intros _. split; reflexivity.
    + intro H. contradiction.
Qed.

Lemma detach_once_per_attach_witness :
  fst (sdk_pci_attach (sim_sdk healthy) [attach_banner] 0 0 0 0) = 0 /\
  count_detach (snd (peek_poke_example (sim_sdk healthy) 0 0 0 [])) = 1%nat.
Proof.
  split; [reflexivity |].
  generalize (detach_once_per_attach (sim_sdk healthy) 0 0 0 []).
  destruct (peek_poke_example (sim_sdk healthy) 0 0 0 []) as [o ev] eqn:Hrun.
  vm_compute in Hrun. injection Hrun as <- <-.
  intros (rc & h & [post Hfirst] & _ & Hok).
  vm_compute in Hfirst. injection Hfirst as <- <- _.
  exact (proj1 (proj2 (Hok eq_refl (Z.le_refl 0)))).
Defined.

(** ** Readiness check *)

Arguments check_afi_ready : simpl never.

(** C8. [check_afi_ready] queries the image once.  It returns 0 exactly
    when the query succeeds and the status is LOADED; for any other status
    it returns 1 and prints the status by name (NOT_PROGRAMMED, CLEARED,
    BUSY, and UNKNOWN for a value it does not recognise); there is no
    second query. *)
Theorem readiness_iff_loaded (K : sdk_header) (E : sdk) (slot : Z) (t : history) :
  NoDup [FPGA_STATUS_LOADED K; FPGA_STATUS_CLEARED K; FPGA_STATUS_BUSY K;
         FPGA_STATUS_NOT_PROGRAMMED K] ->
  let (rc, info) := sdk_describe_local_image E t slot 0 in
  let (o, ev) := check_afi_ready K E slot t in
  sdk_calls ev = [DescribeLocalImage slot 0 rc info] /\
  (o = Val 0 <-> rc = 0 /\ status info = FPGA_STATUS_LOADED K) /\
  (rc = 0 -> status info <> FPGA_STATUS_LOADED K ->
   o = Val 1 /\
   In (Printf "       AFI status: %s\n" [AStr (status_name K (status info))]) ev /\
   (status info = FPGA_STATUS_NOT_PROGRAMMED K ->
    status_name K (status info) = "NOT_PROGRAMMED"%string) /\
   (status info = FPGA_STATUS_CLEARED K ->
    status_name K (status info) = "CLEARED"%string) /\
   (status info = FPGA_STATUS_BUSY K ->
    status_name K (status info) = "BUSY"%string) /\
   (status info <> FPGA_STATUS_NOT_PROGRAMMED K ->
    status info <> FPGA_STATUS_CLEARED K ->
    status info <> FPGA_STATUS_BUSY K ->
    status_name K (status info) = "UNKNOWN"%string)).
Proof.
  intro Hdistinct.
  assert (Hd : FPGA_STATUS_NOT_PROGRAMMED K <> FPGA_STATUS_CLEARED K /\
               FPGA_STATUS_NOT_PROGRAMMED K <> FPGA_STATUS_BUSY K /\
               FPGA_STATUS_CLEARED K <> FPGA_STATUS_BUSY K).
  { inversion_clear Hdistinct as [| ? ? H1 Hd1]. inversion_clear Hd1 as [| ? ? H2 Hd2].
    inversion_clear Hd2 as [| ? ? H3 _]. simpl in H1, H2, H3. intuition congruence. }
  destruct Hd as (Hnc & Hnb & Hcb).
  destruct (sdk_describe_local_image E t slot 0) as [rc info] eqn:Hq.
  unfold check_afi_ready, call, bind, fpga_mgmt_describe_local_image, when, printf.
  rewrite Hq. unfold nonzero, neq.
  destruct (Z.eqb_spec rc 0) as [-> | Hrc]; simpl.
  - destruct (Z.eqb_spec (status info) (FPGA_STATUS_LOADED K)) as [Hl | Hl]; simpl.
    + split; [reflexivity |]. split; [tauto |]. intros _ H. contradiction.
    + split; [reflexivity |]. split.
      { split; [discriminate | tauto]. }
      intros _ _. split; [reflexivity |]. split; [simpl; tauto |].
      unfold status_name.
      destruct (Z.eqb_spec (status info) (FPGA_STATUS_NOT_PROGRAMMED K)) as [Hn | Hn];
        destruct (Z.eqb_spec (status info) (FPGA_STATUS_CLEARED K)) as [Hc | Hc];
        destruct (Z.eqb_spec (status info) (FPGA_STATUS_LOADED K)) as [Hl' | Hl'];
        destruct (Z.eqb_spec (status info) (FPGA_STATUS_BUSY K)) as [Hb | Hb];
        repeat split; intros; trivial; congruence.
  - split; [reflexivity |]. split.
    + split; [intro H; injection H as H; contradiction | tauto].
    + intro H. contradiction.
Qed.

Lemma readiness_iff_loaded_witness :
  NoDup [FPGA_STATUS_LOADED sample_header; FPGA_STATUS_CLEARED sample_header;
         FPGA_STATUS_BUSY sample_header; FPGA_STATUS_NOT_PROGRAMMED sample_header] /\
  fst (check_afi_ready sample_header (sim_sdk busy_image) 0 []) = Val 1.
Proof.
  assert (Hd : NoDup [FPGA_STATUS_LOADED sample_header; FPGA_STATUS_CLEARED sample_header;
                      FPGA_STATUS_BUSY sample_header; FPGA_STATUS_NOT_PROGRAMMED sample_header]).
  { repeat constructor; simpl; intuition discriminate. }
  split; [exact Hd |].
  generalize (readiness_iff_loaded sample_header (sim_sdk busy_image) 0 [] Hd).
  simpl sdk_describe_local_image. cbv iota.
  destruct (check_afi_ready sample_header (sim_sdk busy_image) 0 []) as [o ev].
  intros (_ & _ & H). simpl.
  apply H; [reflexivity | discriminate].
Defined.

(** ** Verification of the outputs (step 10) *)

#[local] Arguments Z.add : simpl never.
#[local] Arguments Z.mul : simpl never.
#[local] Arguments Z.pow : simpl never.
#[local] Arguments Z.modulo : simpl never.

Lemma compare_loop_run (d o : list Z) (n : nat) :
  forall (i c : Z) (t : history),
    for_loop n i (compare_slot d o) c t
    = (Val (c + count_correct_from d o i n), result_rows d o i n).
Proof.
  induction n as [| n IH]; intros i c t; simpl.
  - unfold ret. rewrite Z.add_0_r. reflexivity.
  - rewrite bind_run. unfold compare_slot at 1. rewrite bind_run. simpl.
    rewrite IH. simpl. unfold result_row, slot_correct, add_one_expected, u32.
    destruct (aget o i =? (aget d i + 1) mod 2 ^ 32); simpl; f_equal; f_equal; lia.
Qed.

Lemma count_correct_from_bounds (d o : list Z) (n : nat) :
  forall i, 0 <= count_correct_from d o i n <= Z.of_nat n.
Proof.
  induction n as [| n IH]; intro i; simpl count_correct_from; [lia |].
  specialize (IH (i + 1)). destruct (slot_correct d o i); lia.
Qed.

Lemma count_correct_from_all (d o : list Z) (n : nat) :
  forall i,
    count_correct_from d o i n = Z.of_nat n <->
    (forall j, i <= j < i + Z.of_nat n -> slot_correct d o j = true).
Proof.
  induction n as [| n IH]; intro i; simpl count_correct_from.
  - split; [intros _ j Hj; lia | reflexivity].
  - pose proof (count_correct_from_bounds d o n (i + 1)) as Hb.
    specialize (IH (i + 1)). destruct (slot_correct d o i) eqn:Hi.
    + split.
      * intros H j Hj. destruct (Z.eq_dec j i) as [-> | Hne]; trivial.
        apply IH; lia.
      * intro H. assert (count_correct_from d o (i + 1) n = Z.of_nat n); [| lia].
        apply IH. intros j Hj. apply H. lia.
    + split; [lia |]. intro H. rewrite H in Hi; [discriminate | lia].
Qed.

Lemma In_result_rows (d o : list Z) (n : nat) :
  forall i j, i <= j < i + Z.of_nat n -> In (result_row d o j) (result_rows d o i n).
Proof.
  induction n as [| n IH]; intros i j Hj; simpl; [lia |].
  destruct (Z.eq_dec j i) as [-> | Hne]; [left; reflexivity | right].
  apply IH. lia.
Qed.

(** The run of step 10, in closed form. *)
Lemma step10_run (d o : list Z) (t : history) :
  step10_verify_results d o t =
  (Ret (if count_correct d o =? NUM_REGISTERS then 0 else 1),
   report_header ++ result_rows d o 0 8 ++
   [Printf "\nSUMMARY:\n" [];
    Printf "  Correct results: %d/%d\n" [AInt (count_correct d o); AInt NUM_REGISTERS];
    Printf "  Accuracy: %d%%\n" [AInt (Z.quot (count_correct d o * 100) NUM_REGISTERS)];
    verdict (count_correct d o)]).
Proof.
  unfold step10_verify_results, bind, printf, Return.
  change (Z.to_nat NUM_REGISTERS) with 8%nat.
  cbv beta iota zeta. rewrite compare_loop_run. cbv beta iota zeta.
  rewrite Z.add_0_l. fold (count_correct d o). unfold verdict, report_header.
  destruct (count_correct d o =? NUM_REGISTERS); reflexivity.
Qed.

Lemma count_correct_all (d o : list Z) :
  count_correct d o = NUM_REGISTERS <->
  (forall i, 0 <= i < 8 -> aget o i = (aget d i + 1) mod 2 ^ 32).
Proof.
  unfold count_correct. change NUM_REGISTERS with (Z.of_nat 8).
  rewrite count_correct_from_all. unfold slot_correct, add_one_expected.
  split; intros H i Hi.
  - apply Z.eqb_eq. apply H. lia.
  - apply Z.eqb_eq. apply H. lia.
Qed.

(** Step 10 returns 0 exactly when every output slot equals the input
    plus one modulo 2^32, and 1 otherwise.  Whatever the outputs are, the
    report holds the row of each of the 8 slots and the line with the
    number of correct slots. *)
Lemma step10_verification (test_data output_data : list Z) (t : history) :
  let (o, ev) := step10_verify_results test_data output_data t in
  (o = Ret 0 <->
   forall i, 0 <= i < 8 -> aget output_data i = (aget test_data i + 1) mod 2 ^ 32) /\
  (o = Ret 0 \/ o = Ret 1) /\
  (forall i, 0 <= i < 8 ->
   In (Printf "%2d   | 0x%08x | 0x%08x | 0x%08x | %s\n"
              [AInt i; AInt (aget test_data i); AInt (aget output_data i);
               AInt ((aget test_data i + 1) mod 2 ^ 32);
               AStr (if aget output_data i =? (aget test_data i + 1) mod 2 ^ 32
                     then "âœ… PASS" else "âŒ FAIL")]) ev) /\
  (forall i, 0 <= i < 8 -> aget test_data i = 0xFFFFFFFF ->
   In (Printf "%2d   | 0x%08x | 0x%08x | 0x%08x | %s\n"
              [AInt i; AInt 0xFFFFFFFF; AInt (aget output_data i); AInt 0x00000000;
               AStr (if aget output_data i =? 0 then "âœ… PASS" else "âŒ FAIL")]) ev) /\
  In (Printf "  Correct results: %d/%d\n"
             [AInt (count_correct test_data output_data); AInt 8]) ev.
Proof.
  rewrite step10_run.
  pose proof (count_correct_all test_data output_data) as Hall.
  assert (Hrows : forall i, 0 <= i < 8 ->
            In (result_row test_data output_data i)
               (report_header ++ result_rows test_data output_data 0 8 ++
                [Printf "\nSUMMARY:\n" [];
                 Printf "  Correct results: %d/%d\n"
                        [AInt (count_correct test_data output_data); AInt NUM_REGISTERS];
                 Printf "  Accuracy: %d%%\n"
                        [AInt (Z.quot (count_correct test_data output_data * 100) NUM_REGISTERS)];
                 verdict (count_correct test_data output_data)])).
  { intros i Hi. apply in_or_app. right. apply in_or_app. left.
    apply In_result_rows. lia. }
  split; [| split; [| split; [| split]]].
  - destruct (Z.eqb_spec (count_correct test_data output_data) NUM_REGISTERS) as [Hc | Hc].
    + split; [intros _; apply Hall, Hc | reflexivity].
    + split; [discriminate |]. intro H. apply Hall in H. contradiction.
  - destruct (count_correct test_data output_data =? NUM_REGISTERS); auto.
  - exact Hrows.
  - intros i Hi Hmax. specialize (Hrows i Hi).
    unfold result_row, slot_correct, add_one_expected in Hrows.
    rewrite Hmax in Hrows. exact Hrows.
  - apply in_or_app. right. apply in_or_app. right. simpl. auto.
Qed.

(** ** Sequencing lemmas *)

Ltac split_all := repeat match goal with |- _ /\ _ => split end.

Lemma bind_inv {A B : Type} (m : M A) (f : A -> M B) (t : history)
      (o : outcome B) (ev : list event) :
  bind m f t = (o, ev) ->
  (exists a ev1 ev2, m t = (Val a, ev1) /\ f a (t ++ ev1) = (o, ev2) /\ ev = ev1 ++ ev2) \/
  (exists rc, m t = (Ret rc, ev) /\ o = Ret rc) \/
  (m t = (Fuel, ev) /\ o = Fuel).
Proof.
  unfold bind. destruct (m t) as [[a | rc |] ev1].
  - destruct (f a (t ++ ev1)) as [o2 ev2] eqn:Hf. intro H. injection H as <- <-.
    left. exists a, ev1, ev2. auto.
  - intro H. injection H as <- <-. right. left. exists rc. auto.
  - intro H. injection H as <- <-. right. right. auto.
Qed.

(** A statement that is safe for [P], followed by a continuation: either
    it returned, and all the events satisfy [P], or it fell through and the
    continuation ran after events that satisfy [P]. *)
Lemma bind_safe_inv {A B : Type} (P : event -> bool) (m : M A) (f : A -> M B)
      (t : history) (o : outcome B) (ev : list event) :
  safe P m ->
  bind m f t = (o, ev) ->
  (exists rc, o = Ret rc /\ forallb P ev = true) \/
  (exists a ev1 ev2,
     forallb P ev1 = true /\ m t = (Val a, ev1) /\ f a (t ++ ev1) = (o, ev2) /\ ev = ev1 ++ ev2).
Proof.
  intros Hs Hb. destruct (Hs t) as [Hnf HP].
  apply bind_inv in Hb as [(a & ev1 & ev2 & Hm & Hf & ->) | [(rc & Hm & ->) | (Hm & ->)]];
    rewrite Hm in *; simpl in *.
  - right. exists a, ev1, ev2. auto.
  - left. exists rc. auto.
  - contradiction.
Qed.

Lemma after_start_app (l1 l2 : list event) :
  forallb (fun e => negb (is_start_write e)) l1 = true ->
  after_start (l1 ++ l2) = after_start l2.
Proof.
  induction l1 as [| e l1 IH]; simpl; trivial.
  intro H. apply andb_prop in H as [He Hl].
  destruct (is_start_write e); [discriminate | auto].
Qed.

Lemma forallb_In {A : Type} (P : A -> bool) (l : list A) (x : A) :
  forallb P l = true -> In x l -> P x = true.
Proof. intro H. rewrite forallb_forall in H. apply H. Qed.

(** ** The polling loop *)

Section Polling.

Variable E : sdk.
Variable h : Z.

Lemma poll_loop_exit (fuel : nat) (st pc : Z) (t : history) :
  Z.land st DONE_BIT <> 0 \/ max_polls <= pc ->
  poll_loop E fuel h st pc t = (Val (st, pc), []).
Proof.
  intro H.
  assert (Hc : (Z.land st DONE_BIT =? 0) && (pc <? max_polls) = false).
  { destruct H as [H | H].
    - apply Z.eqb_neq in H. rewrite H. reflexivity.
    - apply Z.ltb_ge in H. rewrite H. apply andb_false_r. }
  destruct fuel; simpl; rewrite Hc; reflexivity.
Qed.

Lemma poll_loop_step (fuel : nat) (st pc : Z) (t : history)
      (o : outcome (Z * Z)) (ev : list event) :
  poll_loop E (S fuel) h st pc t = (o, ev) ->
  Z.land st DONE_BIT = 0 -> pc < max_polls ->
  exists rc v,
    (rc <> 0 /\ o = Ret rc /\
     ev = [Usleep 1000; PciPeek h STATUS_REG_ADDR rc v;
           Printf "ERROR: Failed to read status register during polling\n" []]) \/
    (rc = 0 /\
     exists msg t' ev',
       forallb is_printf msg = true /\
       poll_loop E fuel h v (pc + 1) t' = (o, ev') /\
       ev = Usleep 1000 :: PciPeek h STATUS_REG_ADDR 0 v :: msg ++ ev').
Proof.
  intros Hrun Hst Hpc. simpl in Hrun.
  apply Z.eqb_eq in Hst. apply Z.ltb_lt in Hpc. rewrite Hst, Hpc in Hrun. simpl in Hrun.
  unfold bind, usleep, fpga_pci_peek, when, printf, Return, ret in Hrun.
  destruct (sdk_pci_peek E (t ++ [Usleep 1000]) h STATUS_REG_ADDR) as [rc v].
  exists rc, v. unfold nonzero, neq in Hrun.
  destruct (Z.eqb_spec rc 0) as [-> | Hrc]; simpl in Hrun.
  - right. split; trivial.
    destruct (Z.rem (pc + 1) 100 =? 0); simpl in Hrun.
    + match type of Hrun with
      | context [poll_loop E fuel h v (pc + 1) ?t'] =>
          destruct (poll_loop E fuel h v (pc + 1) t') as [o' ev'] eqn:Hrec;
          exists [Printf "  Polling... count=%d, status=0x%08x\n" [AInt (pc + 1); AInt v]], t', ev'
      end.
      injection Hrun as <- <-. auto.
    + match type of Hrun with
      | context [poll_loop E fuel h v (pc + 1) ?t'] =>
          destruct (poll_loop E fuel h v (pc + 1) t') as [o' ev'] eqn:Hrec;
          exists [], t', ev'
      end.
      injection Hrun as <- <-. auto.
  - left. injection Hrun as <- <-. auto.
Qed.

(** If every status read of the loop succeeds without the done bit, the
    loop makes one sleep and one read per remaining attempt and is left at
    [max_polls]. *)
Lemma poll_loop_never_done (fuel : nat) :
  forall (st pc : Z) (t : history) (o : outcome (Z * Z)) (ev : list event),
    poll_loop E fuel h st pc t = (o, ev) ->
    Z.land st DONE_BIT = 0 ->
    pc + Z.of_nat fuel = max_polls ->
    (forall rc v, In (PciPeek h STATUS_REG_ADDR rc v) ev -> rc = 0 /\ Z.land v DONE_BIT = 0) ->
    (exists st', o = Val (st', max_polls)) /\
    exists vs, List.length vs = fuel /\
               sdk_calls ev
               = flat_map (fun v => [Usleep 1000; PciPeek h STATUS_REG_ADDR 0 v]) vs.
Proof.
  induction fuel as [| fuel IH]; intros st pc t o ev Hrun Hst Hpc Hreads.
  - rewrite poll_loop_exit in Hrun by (right; simpl in Hpc; lia).
    injection Hrun as <- <-. split.
    + exists st. f_equal. f_equal. simpl in Hpc. lia.
    + exists []. split; reflexivity.
  - apply poll_loop_step in Hrun; [| exact Hst | lia].
    destruct Hrun as (rc & v & [(Hrc & -> & ->) | (-> & msg & t' & ev' & Hmsg & Hrec & ->)]).
    + exfalso. apply Hrc. apply (Hreads rc v). simpl. auto.
    + destruct (Hreads 0 v) as [_ Hv]; [simpl; auto |].
      apply IH in Hrec; [| exact Hv | lia |].
      * destruct Hrec as [Hval (vs & Hlen & Hcalls)]. split; [exact Hval |].
        exists (v :: vs). split; [simpl; congruence |].
        change (Usleep 1000 :: PciPeek h STATUS_REG_ADDR 0 v :: msg ++ ev')
          with ([Usleep 1000; PciPeek h STATUS_REG_ADDR 0 v] ++ msg ++ ev').
        rewrite !sdk_calls_app, Hcalls.
        assert (Hnone : sdk_calls msg = []).
        { unfold sdk_calls. apply filter_none.
          rewrite forallb_forall in *. intros e He. rewrite (Hmsg e He). reflexivity. }
        rewrite Hnone. reflexivity.
      * intros rc' v' Hin. apply Hreads. simpl. right. right.
        apply in_or_app. auto.
Qed.

End Polling.

(** ** From the start of the cycle to the write of the start bit *)

Ltac all_true :=
  rewrite ?forallb_app;
  repeat match goal with
         | H : forallb _ _ = true |- _ => rewrite H; clear H
         end;
  reflexivity.

Ltac peel P Hrun a e :=
  apply (bind_safe_inv P) in Hrun; [| solve [safe_auto]];
  let rc := fresh "rc" in
  let Hall := fresh "Hall" in
  let r := fresh "r" in
  let H := fresh "H" in
  let Hm := fresh "Hm" in
  destruct Hrun as [(rc & -> & Hall) | (a & e & r & H & Hm & Hrun & ->)];
  [left; exists rc; split; [reflexivity | all_true] |].

Section Cycle.

Variable E : sdk.
Variable h : Z.

Lemma reach_start (t : history) (o : outcome Empty_set) (ev : list event) :
  (printf "\n=== Testing Add-One Operation ===\n" [] ;;
   test_data <- step1_init_test_data ;;
   command_cycle E h test_data) t = (o, ev) ->
  (exists rc, o = Ret rc /\ forallb not_start ev = true) \/
  (exists evA t' ev' d,
     forallb not_start evA = true /\ ev = evA ++ ev' /\ from_start E h d t' = (o, ev')).
Proof.
  intro Hrun.
  peel not_start Hrun u0 e0. peel not_start Hrun d e1. unfold command_cycle in Hrun.
  peel not_start Hrun u2 e2. peel not_start Hrun u3 e3.
  peel not_start Hrun u4 e4. peel not_start Hrun u5 e5.
  right. exists (e0 ++ e1 ++ e2 ++ e3 ++ e4 ++ e5). do 2 eexists. exists d.
  split; [all_true |]. split; [| exact Hrun].
  rewrite <- !app_assoc. reflexivity.
Qed.

Lemma step6_inv (t : history) (o : outcome unit) (ev : list event) :
  step6_start E h t = (o, ev) ->
  exists rc,
    (rc <> 0 /\ o = Ret rc /\
     ev = [Printf "Step 6: Starting Add-One computation\n" [];
           PciPoke h CONTROL_REG_ADDR START_BIT rc;
           Printf "ERROR: Failed to start computation\n" []]) \/
    (rc = 0 /\ o = Val tt /\
     ev = [Printf "Step 6: Starting Add-One computation\n" [];
           PciPoke h CONTROL_REG_ADDR START_BIT 0;
           Printf "Computation started\n" []]).
Proof.
  unfold step6_start, bind, printf, fpga_pci_poke, when, Return, ret, nonzero, neq.
  simpl. set (rc := sdk_pci_poke E _ h CONTROL_REG_ADDR START_BIT).
  exists rc. destruct (Z.eqb_spec rc 0) as [Hz | Hnz]; simpl in H; injection H as <- <-.
  - right. rewrite Hz. auto.
  - left. auto.
Qed.

(** Step 7 when no status read shows the done bit. *)
Lemma step7_never_done (t : history) (o : outcome unit) (ev : list event) :
  step7_wait E h t = (o, ev) ->
  (forall rc v, In (PciPeek h STATUS_REG_ADDR rc v) ev -> rc = 0 /\ Z.land v DONE_BIT = 0) ->
  o = Ret 1 /\
  (exists vs, List.length vs = 1000%nat /\
              sdk_calls ev
              = flat_map (fun v => [Usleep 1000; PciPeek h STATUS_REG_ADDR 0 v]) vs) /\
  exists pre, ev = pre ++ [timeout_msg 1000].
Proof.
  intros Hrun Hreads. unfold step7_wait in Hrun.
  remember (Z.to_nat max_polls) as fuel eqn:Hfuel.
  apply bind_inv in Hrun as [(a & ev1 & ev2 & Hm & Hrun & ->) | [(rc & Hm & _) | (Hm & _)]];
    [| discriminate Hm | discriminate Hm].
  injection Hm as _ <-. cbv zeta in Hrun.
  apply bind_inv in Hrun as [(a' & ev3 & ev4 & Hm & Hrun & ->) | [(rc & Hm & ->) | (Hm & ->)]].
  - apply poll_loop_never_done in Hm;
      [| reflexivity | subst fuel; reflexivity
       | intros rc v Hin; apply Hreads; simpl; right; apply in_or_app; auto].
    destruct Hm as [[st' Heq] (vs & Hlen & Hcalls)]. injection Heq as ->.
    unfold bind, when, printf, Return in Hrun. simpl in Hrun.
    injection Hrun as <- <-. split; [reflexivity |]. split.
    + exists vs. split; [subst fuel; exact Hlen |].
      change (?x :: ?l) with ([x] ++ l). rewrite !sdk_calls_app, Hcalls.
      simpl. rewrite app_nil_r. reflexivity.
    + exists (Printf "Step 7: Waiting for computation to complete\n" [] :: ev3).
      reflexivity.
  - exfalso. apply poll_loop_never_done in Hm;
      [| reflexivity | subst fuel; reflexivity
       | intros rc' v Hin; apply Hreads; simpl; right; auto].
    destruct Hm as [[st' Hm] _]. discriminate.
  - exfalso. apply poll_loop_never_done in Hm;
      [| reflexivity | subst fuel; reflexivity
       | intros rc' v Hin; apply Hreads; simpl; right; auto].
    destruct Hm as [[st' Hm] _]. discriminate.
Qed.

End Cycle.

(** ** Timeout *)

Lemma timeout_body (E : sdk) (h : Z) (t : history) (o : outcome Empty_set)
      (ev : list event) :
  (printf "\n=== Testing Add-One Operation ===\n" [] ;;
   test_data <- step1_init_test_data ;;
   command_cycle E h test_data) t = (o, ev) ->
  In (PciPoke h CONTROL_REG_ADDR START_BIT 0) ev ->
  (forall rc v, In (PciPeek h STATUS_REG_ADDR rc v) (after_start ev) ->
                rc = 0 /\ Z.land v DONE_BIT = 0) ->
  o = Ret 1 /\
  (exists vs, List.length vs = 1000%nat /\
              sdk_calls (after_start ev)
              = flat_map (fun v => [Usleep 1000; PciPeek h STATUS_REG_ADDR 0 v]) vs) /\
  exists pre, ev = pre ++ [timeout_msg 1000].
Proof.
  intro Hrun.
  apply reach_start in Hrun as [(rc & -> & Hall) | (evA & t' & ev' & d & HA & -> & Hrun)].
  { intros Hin _. exfalso. apply (forallb_In _ _ _ Hall) in Hin. discriminate. }
  unfold from_start in Hrun.
  apply bind_inv in Hrun as [(a & ev6 & ev2 & H6 & Hrun & ->) | [(rc & H6 & ->) | (H6 & ->)]];
    apply step6_inv in H6 as (rc6 & [(Hrc & Ho & Hev) | (Hrc & Ho & Hev)]);
    try discriminate Ho; subst.
  - (* the start bit was written *)
    intros _ Hreads.
    assert (Hafter : forall l,
               after_start (evA ++ [Printf "Step 6: Starting Add-One computation\n" [];
                                    PciPoke h CONTROL_REG_ADDR START_BIT 0;
                                    Printf "Computation started\n" []] ++ l)
               = Printf "Computation started\n" [] :: l).
    { intro l. rewrite after_start_app by exact HA. reflexivity. }
    rewrite Hafter in *.
    apply bind_inv in Hrun as [(a7 & ev7 & ev3 & H7 & Hrun & ->) | [(rc & H7 & ->) | (H7 & ->)]];
      apply step7_never_done in H7;
      try (intros rc' v Hin; apply Hreads; simpl; right; try apply in_or_app; auto; fail);
      destruct H7 as (Ho7 & (vs & Hlen & Hcalls) & (pre & ->)); try discriminate Ho7.
    injection Ho7 as ->. split; [reflexivity |]. split.
    + exists vs. split; [exact Hlen |]. exact Hcalls.
    + eexists. rewrite !app_assoc. reflexivity.
  - (* the write of the start bit failed *)
    intros Hin _. exfalso. apply in_app_or in Hin as [Hin | Hin].
    + apply (forallb_In _ _ _ HA) in Hin. discriminate.
    + simpl in Hin. destruct Hin as [Hin | [Hin | [Hin | []]]]; try discriminate.
      injection Hin as Hin. contradiction.
Qed.

(** C4. In a run of [test_add_one_operation] that wrote the start bit, if
    every status read after that write succeeded and showed the done bit
    clear, then after the start write the SDK calls are exactly 1000 pairs
    of a 1000-microsecond sleep and a status read, the function returns 1,
    and its last event is the timeout message with 1000 attempts. *)
Theorem timeout_after_max_polls (E : sdk) (h : Z) (t : history) :
  let (o, ev) := test_add_one_operation E h t in
  In (PciPoke h CONTROL_REG_ADDR START_BIT 0) ev ->
  (forall rc v, In (PciPeek h STATUS_REG_ADDR rc v) (after_start ev) ->
                rc = 0 /\ Z.land v DONE_BIT = 0) ->
  o = Val 1 /\
  (exists vs, List.length vs = 1000%nat /\
              sdk_calls (after_start ev)
              = flat_map (fun v => [Usleep 1000; PciPeek h STATUS_REG_ADDR 0 v]) vs) /\
  exists pre, ev = pre ++ [timeout_msg 1000].
Proof.
  unfold test_add_one_operation.
  match goal with
  | |- context [call ?b t] => rewrite (call_run b t); destruct (b t) as [o ev] eqn:Hrun
  end.
  pose proof (timeout_body E h t o ev Hrun) as Hbody.
  destruct o as [[] | rc |]; intros Hin Hreads;
    destruct (Hbody Hin Hreads) as (Ho & Hcalls & Hlast); try discriminate Ho.
  injection Ho as ->. auto.
Qed.

Lemma never_done_reads_clear (ev : list event) :
  forallb (fun e => match e with
                    | PciPeek _ a rc v =>
                        negb (a =? STATUS_REG_ADDR) || ((rc =? 0) && (Z.land v DONE_BIT =? 0))
                    | _ => true
                    end) ev = true ->
  forall h rc v, In (PciPeek h STATUS_REG_ADDR rc v) ev -> rc = 0 /\ Z.land v DONE_BIT = 0.
Proof.
  intros Hall h rc v Hin. apply (forallb_In _ _ _ Hall) in Hin. simpl in Hin.
  apply andb_prop in Hin as [H1 H2]. split; apply Z.eqb_eq; assumption.
Qed.

Lemma timeout_after_max_polls_witness :
  fst (test_add_one_operation (sim_sdk never_done) 0 []) = Val 1.
Proof.
  pose proof (timeout_after_max_polls (sim_sdk never_done) 0 []) as H.
  set (run := test_add_one_operation (sim_sdk never_done) 0 []) in *.
  assert (Hstart : existsb (poke_is 0 CONTROL_REG_ADDR START_BIT 0) (snd run) = true)
    by (vm_compute; reflexivity).
  assert (Hreads : forallb (fun e => match e with
                                     | PciPeek _ a rc v =>
                                         negb (a =? STATUS_REG_ADDR)
                                         || ((rc =? 0) && (Z.land v DONE_BIT =? 0))
                                     | _ => true
                                     end) (after_start (snd run)) = true)
    by (vm_compute; reflexivity).
  clearbody run. destruct run as [o ev]. cbn [fst snd] in *.
  apply H.
  - apply poke_is_In. exact Hstart.
  - apply never_done_reads_clear. exact Hreads.
Defined.

(** ** Input readback *)

Lemma step1_value (t : history) : fst (step1_init_test_data t) = Val operands.
Proof. reflexivity. Qed.

Lemma aget_operands (i : Z) : 0 <= i < 8 -> aget operands i = 0x10000000 + i.
Proof.
  intro Hi.
  assert (Hc : i = 0 \/ i = 1 \/ i = 2 \/ i = 3 \/ i = 4 \/ i = 5 \/ i = 6 \/ i = 7) by lia.
  destruct Hc as [-> | [-> | [-> | [-> | [-> | [-> | [-> | ->]]]]]]]; reflexivity.
Qed.

Lemma input_addr (i : Z) : 0 <= i < 8 -> u32 (INPUT_BASE_ADDR + i * 4) = INPUT_BASE_ADDR + i * 4.
Proof. intro Hi. unfold u32, INPUT_BASE_ADDR. apply Z.mod_small. lia. Qed.

Section Readback.

Variable E : sdk.
Variable h : Z.
Variable d : list Z.

Lemma step4_unfold :
  step4_verify_readback E h d =
  (printf "Step 4: Verifying input data readback\n" [] ;;
   for_loop (Z.to_nat NUM_REGISTERS) 0 (readback_slot E h d) tt).
Proof. reflexivity. Qed.

Lemma readback_slot_inv (i : Z) (u : unit) (t : history) (o : outcome unit)
      (ev : list event) :
  readback_slot E h d i u t = (o, ev) ->
  exists rc v,
    (rc <> 0 /\ o = Ret rc /\
     ev = [PciPeek h (u32 (INPUT_BASE_ADDR + i * 4)) rc v;
           Printf "ERROR: Failed to read input register %d\n" [AInt i]]) \/
    (rc = 0 /\ v <> aget d i /\ o = Ret 1 /\
     ev = [PciPeek h (u32 (INPUT_BASE_ADDR + i * 4)) 0 v; mismatch_msg i (aget d i) v]) \/
    (rc = 0 /\ v = aget d i /\ o = Val tt /\
     ev = [PciPeek h (u32 (INPUT_BASE_ADDR + i * 4)) 0 v;
           Printf "  âœ… Input[%d] readback: 0x%08x\n" [AInt i; AInt v]]).
Proof.
  unfold readback_slot, bind, fpga_pci_peek, when, printf, Return, ret, nonzero, neq.
  cbv zeta. destruct (sdk_pci_peek E t h (u32 (INPUT_BASE_ADDR + i * 4))) as [rc v].
  exists rc, v. destruct (Z.eqb_spec rc 0) as [-> | Hrc]; simpl in H.
  - destruct (Z.eqb_spec v (aget d i)) as [Hv | Hv]; simpl in H; injection H as <- <-.
    + right. right. auto.
    + right. left. auto.
  - left. injection H as <- <-. auto.
Qed.

(** In the readback loop, a read that succeeds with a value other than
    the one written makes the loop return 1 after the mismatch message. *)
Lemma readback_loop_mismatch (n : nat) :
  forall (i0 : Z) (t : history) (o : outcome unit) (ev : list event),
    0 <= i0 -> i0 + Z.of_nat n <= 8 ->
    for_loop n i0 (readback_slot E h d) tt t = (o, ev) ->
    forall i v,
      0 <= i < 8 ->
      In (PciPeek h (INPUT_BASE_ADDR + i * 4) 0 v) ev ->
      v <> aget d i ->
      o = Ret 1 /\ In (mismatch_msg i (aget d i) v) ev.
Proof.
  induction n as [| n IH]; intros i0 t o ev Hi0 Hn Hrun i v Hi Hin Hv.
  - simpl in Hrun. injection Hrun as <- <-. destruct Hin.
  - simpl for_loop in Hrun.
    assert (Haddr : u32 (INPUT_BASE_ADDR + i0 * 4) = INPUT_BASE_ADDR + i0 * 4)
      by (apply input_addr; lia).
    apply bind_inv in Hrun
        as [(a & ev1 & ev2 & Hm & Hrun & ->) | [(rc & Hm & ->) | (Hm & ->)]];
      apply readback_slot_inv in Hm
        as (rc0 & v0 & [(Hrc & Ho & Hev) | [(Hrc & Hne & Ho & Hev) | (Hrc & He & Ho & Hev)]]);
      try discriminate Ho; subst; rewrite Haddr in *.
    + (* slot i0 matched; the loop goes on *)
      apply in_app_or in Hin as [Hin | Hin].
      * exfalso. destruct Hin as [Hin | [Hin | []]]; [| discriminate].
        injection Hin as Ha Hval. unfold INPUT_BASE_ADDR in Ha.
        assert (i = i0) by lia. subst. contradiction.
      * destruct a. apply (IH (i0 + 1) _ _ _ ltac:(lia) ltac:(lia) Hrun i v Hi) in Hin;
          [| exact Hv].
        destruct Hin as [Ho' Hmsg]. split; [exact Ho' |]. apply in_or_app. auto.
    + (* the read of slot i0 failed *)
      exfalso. destruct Hin as [Hin | [Hin | []]]; [| discriminate].
      injection Hin as _ Hz _. contradiction.
    + (* slot i0 mismatched *)
      destruct Hin as [Hin | [Hin | []]]; [| discriminate].
      injection Hin as Ha Hval. unfold INPUT_BASE_ADDR in Ha.
      assert (i0 = i) by lia. subst. injection Ho as <-.
      split; [reflexivity | simpl; auto].
Qed.

End Readback.

Lemma forallb_impl {A : Type} (P Q : A -> bool) (l : list A) :
  (forall x, P x = true -> Q x = true) -> forallb P l = true -> forallb Q l = true.
Proof.
  intros HPQ H. rewrite forallb_forall in *. auto.
Qed.

Section ReadbackCycle.

Variable E : sdk.
Variable h : Z.

Lemma after_readback_no_input_read (d : list Z) : safe no_input_read (after_readback E h d).
Proof. unfold after_readback. safe_auto. Qed.

Lemma step4_quiet (d : list Z) : safe quiet (step4_verify_readback E h d).
Proof. safe_auto. Qed.

Lemma step4_mismatch (d : list Z) (t : history) (o : outcome unit) (ev : list event) :
  step4_verify_readback E h d t = (o, ev) ->
  forall i v,
    0 <= i < 8 ->
    In (PciPeek h (INPUT_BASE_ADDR + i * 4) 0 v) ev ->
    v <> aget d i ->
    o = Ret 1 /\ In (mismatch_msg i (aget d i) v) ev.
Proof.
  rewrite step4_unfold. intros Hrun i v Hi Hin Hv.
  apply bind_inv in Hrun as [(a & ev1 & ev2 & Hm & Hrun & ->) | [(rc & Hm & _) | (Hm & _)]];
    [| discriminate Hm | discriminate Hm].
  injection Hm as _ <-.
  destruct Hin as [Hin | Hin]; [discriminate |].
  assert (Hn : 0 + Z.of_nat (Z.to_nat NUM_REGISTERS) <= 8) by (unfold NUM_REGISTERS; lia).
  apply (readback_loop_mismatch E h d _ 0 _ _ _ (Z.le_refl 0) Hn Hrun i v Hi) in Hin;
    [| exact Hv].
  destruct Hin as [Ho Hmsg]. split; [exact Ho | right; exact Hmsg].
Qed.

Lemma reach_readback (t : history) (o : outcome Empty_set) (ev : list event) :
  (printf "\n=== Testing Add-One Operation ===\n" [] ;;
   test_data <- step1_init_test_data ;;
   command_cycle E h test_data) t = (o, ev) ->
  (exists rc, o = Ret rc /\ forallb quiet_no_read ev = true) \/
  (exists evA t' ev',
     forallb quiet_no_read evA = true /\ ev = evA ++ ev' /\
     (step4_verify_readback E h operands ;; after_readback E h operands) t' = (o, ev')).
Proof.
  intro Hrun.
  peel quiet_no_read Hrun u0 e0. peel quiet_no_read Hrun d e1.
  match goal with
  | Hm : step1_init_test_data ?t1 = (Val d, _) |- _ =>
      pose proof (step1_value t1) as Hd; rewrite Hm in Hd; injection Hd as ->
  end.
  unfold command_cycle in Hrun.
  peel quiet_no_read Hrun u2 e2. peel quiet_no_read Hrun u3 e3.
  right. exists (e0 ++ e1 ++ e2 ++ e3). do 2 eexists.
  split; [all_true |]. split; [| exact Hrun].
  rewrite <- !app_assoc. reflexivity.
Qed.

Lemma input_read_not_quiet (i rc v : Z) :
  0 <= i < 8 -> is_input_read (PciPeek h (INPUT_BASE_ADDR + i * 4) rc v) = true.
Proof.
  intro Hi. unfold is_input_read, INPUT_BASE_ADDR, OUTPUT_BASE_ADDR. apply Z.ltb_lt. lia.
Qed.

Lemma readback_body (t : history) (o : outcome Empty_set) (ev : list event) (i v : Z) :
  (printf "\n=== Testing Add-One Operation ===\n" [] ;;
   test_data <- step1_init_test_data ;;
   command_cycle E h test_data) t = (o, ev) ->
  0 <= i < 8 ->
  In (PciPeek h (INPUT_BASE_ADDR + i * 4) 0 v) ev ->
  v <> 0x10000000 + i ->
  o = Ret 1 /\
  In (mismatch_msg i (0x10000000 + i) v) ev /\
  forallb quiet ev = true.
Proof.
  intros Hrun Hi Hin Hv. rewrite <- (aget_operands i Hi) in *.
  pose proof (input_read_not_quiet i 0 v Hi) as Hread.
  assert (HnotA : forall l, forallb quiet_no_read l = true ->
                            ~ In (PciPeek h (INPUT_BASE_ADDR + i * 4) 0 v) l).
  { intros l Hl Hx. apply (forallb_In _ _ _ Hl) in Hx. unfold quiet_no_read in Hx.
    rewrite Hread in Hx. rewrite andb_false_r in Hx. discriminate. }
  assert (Hweak : forall l, forallb quiet_no_read l = true -> forallb quiet l = true).
  { intro l. apply forallb_impl. intros x Hx. unfold quiet_no_read in Hx.
    apply andb_prop in Hx. tauto. }
  apply reach_readback in Hrun as [(rc & -> & Hall) | (evA & t' & ev' & HA & -> & Hrun)].
  { destruct (HnotA _ Hall Hin). }
  apply in_app_or in Hin as [Hin | Hin]; [destruct (HnotA _ HA Hin) |].
  destruct (step4_quiet operands t') as [Hnf Hq4].
  apply bind_inv in Hrun as [(a & ev4 & ev5 & H4 & Hrun & ->) | [(rc & H4 & ->) | (H4 & ->)]];
    rewrite H4 in Hnf, Hq4; simpl in Hnf, Hq4.
  - exfalso. apply in_app_or in Hin as [Hin | Hin].
    + destruct (step4_mismatch _ _ _ _ H4 i v Hi Hin Hv) as [Ho _]. discriminate.
    + destruct (after_readback_no_input_read operands (t' ++ ev4)) as [_ Hno].
      rewrite Hrun in Hno. simpl in Hno. apply (forallb_In _ _ _ Hno) in Hin.
      unfold no_input_read in Hin. rewrite Hread in Hin. discriminate.
  - destruct (step4_mismatch _ _ _ _ H4 i v Hi Hin Hv) as [Ho Hmsg].
    injection Ho as ->. split; [reflexivity |]. split.
    + apply in_or_app. auto.
    + rewrite forallb_app, (Hweak _ HA), Hq4. reflexivity.
  - contradiction.
Qed.

End ReadbackCycle.

(** C6. In a run of [test_add_one_operation], if the readback of an input
    slot [i] succeeds with a value other than the one written to it, the
    function returns 1, the mismatch message names the slot, the value
    written and the value read, and the run holds no write of the start
    bit, no status read and no sleep: neither the start sequence nor the
    polling phase is attempted. *)
Theorem readback_mismatch_aborts (E : sdk) (h : Z) (t : history) (i v : Z) :
  let (o, ev) := test_add_one_operation E h t in
  0 <= i < 8 ->
  In (PciPeek h (INPUT_BASE_ADDR + i * 4) 0 v) ev ->
  v <> 0x10000000 + i ->
  o = Val 1 /\
  In (mismatch_msg i (0x10000000 + i) v) ev /\
  (forall e, In e ev ->
             is_start_write e = false /\ is_status_read e = false /\ is_usleep e = false).
Proof.
  unfold test_add_one_operation.
  match goal with
  | |- context [call ?b t] => rewrite (call_run b t); destruct (b t) as [o ev] eqn:Hrun
  end.
  pose proof (readback_body E h t o ev i v Hrun) as Hbody.
  destruct o as [[] | rc |]; intros Hi Hin Hv;
    destruct (Hbody Hi Hin Hv) as (Ho & Hmsg & Hq); try discriminate Ho.
  injection Ho as ->. split; [reflexivity |]. split; [exact Hmsg |].
  intros e He. apply (forallb_In _ _ _ Hq) in He. unfold quiet in He.
  apply andb_prop in He as [He H3]. apply andb_prop in He as [H1 H2].
  apply negb_true_iff in H1, H2, H3. auto.
Qed.

Lemma readback_mismatch_aborts_witness :
  fst (test_add_one_operation (sim_sdk bad_readback5) 0 []) = Val 1.
Proof.
  pose proof (readback_mismatch_aborts (sim_sdk bad_readback5) 0 [] 5 0x10000105) as H.
  set (run := test_add_one_operation (sim_sdk bad_readback5) 0 []) in *.
  assert (Hread : existsb (peek_is 0 (INPUT_BASE_ADDR + 5 * 4) 0 0x10000105) (snd run) = true)
    by (vm_compute; reflexivity).
  clearbody run. destruct run as [o ev]. cbn [fst snd] in *.
  apply H; [lia | | discriminate].
  apply peek_is_In. exact Hread.
Defined.

(** ** Order of the register operations *)

Lemma reg_ops_printf (l : list event) : forallb is_printf l = true -> reg_ops l = [].
Proof.
  induction l as [| e l IH]; simpl; trivial.
  intro H. apply andb_prop in H as [He Hl]. destruct e; try discriminate. auto.
Qed.

Section Order.

Variable E : sdk.

Lemma runs_ret {A : Type} (a : A) : runs (ret a) (one []).
Proof. intro t. reflexivity. Qed.

Lemma runs_printf (fmt : string) (args : list arg) : runs (printf fmt args) (one []).
Proof. intro t. reflexivity. Qed.

Lemma runs_usleep (usec : Z) : runs (usleep usec) (one []).
Proof. intro t. reflexivity. Qed.

Lemma runs_poke (h a v : Z) : runs (fpga_pci_poke E h a v) (one [Wr a v]).
Proof. intro t. reflexivity. Qed.

Lemma runs_peek (h a : Z) : runs (fpga_pci_peek E h a) (one [Rd a]).
Proof.
  intro t. unfold fpga_pci_peek. destruct (sdk_pci_peek E t h a). reflexivity.
Qed.

Lemma runs_bind {A B : Type} (m : M A) (f : A -> M B) (L1 L2 : opset) :
  runs m L1 -> (forall a, runs (f a) L2) -> (exists o, L2 o) ->
  runs (bind m f) (seq_ops L1 L2).
Proof.
  intros Hm Hf [o2 Ho2] t. rewrite bind_run. specialize (Hm t).
  destruct (m t) as [[a | rc |] ev]; [| | contradiction].
  - specialize (Hf a (t ++ ev)). destruct (f a (t ++ ev)) as [[b | rc |] ev'];
      simpl; rewrite ?reg_ops_app; [| | contradiction].
    + exists (reg_ops ev), (reg_ops ev'). auto.
    + destruct Hf as [Hrc (ops & Hops & Hpre)]. split; trivial.
      exists (reg_ops ev ++ ops). split.
      * exists (reg_ops ev), ops. auto.
      * apply prefix_app_l. exact Hpre.
  - destruct Hm as [Hrc (ops & Hops & Hpre)]. split; trivial.
    exists (ops ++ o2). split.
    + exists ops, o2. auto.
    + apply prefix_app_r. exact Hpre.
Qed.

Lemma runs_conseq {A : Type} (m : M A) (L L' : opset) :
  runs m L -> (forall ops, L ops -> L' ops) -> runs m L'.
Proof.
  intros Hm HL t. specialize (Hm t). destruct (m t) as [[a | rc |] ev]; auto.
  destruct Hm as [Hrc (ops & Hops & Hpre)]. split; trivial. exists ops. auto.
Qed.

Lemma runs_fail_if_nonzero (rc : Z) (fmt : string) (args : list arg) :
  runs (when (nonzero rc) (printf fmt args ;; Return rc)) (one []).
Proof.
  intro t. unfold nonzero, neq. destruct (Z.eqb_spec rc 0) as [Hz | Hnz]; simpl.
  - reflexivity.
  - split; trivial. exists []. split; [reflexivity | apply prefix_refl].
Qed.

Lemma runs_fail_1 (c : bool) (fmt : string) (args : list arg) :
  runs (when c (printf fmt args ;; Return 1)) (one []).
Proof.
  intro t. destruct c; simpl.
  - split; [discriminate |]. exists []. split; [reflexivity | apply prefix_refl].
  - reflexivity.
Qed.

Lemma runs_when_printf (c : bool) (fmt : string) (args : list arg) :
  runs (when c (printf fmt args)) (one []).
Proof. intro t. destruct c; reflexivity. Qed.

Lemma runs_for_loop_O {St : Type} (i : Z) (body : Z -> St -> M St) (s : St) :
  runs (for_loop 0 i body s) (one []).
Proof. apply runs_ret. Qed.

Lemma runs_for_loop_S {St : Type} (n : nat) (i : Z) (body : Z -> St -> M St) (s : St)
      (L1 L2 : opset) :
  runs (body i s) L1 ->
  (forall s', runs (for_loop n (i + 1) body s') L2) ->
  (exists o, L2 o) ->
  runs (for_loop (S n) i body s) (seq_ops L1 L2).
Proof. intros H1 H2 H3. simpl. apply runs_bind; assumption. Qed.

Lemma finishes_bind {A : Type} (m : M A) (f : A -> M Empty_set) (L1 L2 : opset) :
  runs m L1 -> (forall a, finishes (f a) L2) -> (exists o, L2 o) ->
  finishes (bind m f) (seq_ops L1 L2).
Proof.
  intros Hm Hf [o2 Ho2] t. rewrite bind_run. specialize (Hm t).
  destruct (m t) as [[a | rc |] ev]; [| | contradiction].
  - specialize (Hf a (t ++ ev)). destruct (f a (t ++ ev)) as [[b | rc |] ev'];
      simpl; try contradiction.
    destruct Hf as (ops & Hops & Hpre & Hall). rewrite reg_ops_app.
    exists (reg_ops ev ++ ops). split; [| split].
    + exists (reg_ops ev), ops. auto.
    + apply prefix_app_l. exact Hpre.
    + intro Hz. rewrite (Hall Hz). reflexivity.
  - destruct Hm as [Hrc (ops & Hops & Hpre)].
    exists (ops ++ o2). split; [| split].
    + exists ops, o2. auto.
    + apply prefix_app_r. exact Hpre.
    + intro Hz. contradiction.
Qed.

Lemma finishes_step10 (d o : list Z) : finishes (step10_verify_results d o) (one []).
Proof.
  intro t. rewrite step10_run.
  assert (Hops : reg_ops (report_header ++ result_rows d o 0 8 ++
                   [Printf "\nSUMMARY:\n" [];
                    Printf "  Correct results: %d/%d\n" [AInt (count_correct d o); AInt NUM_REGISTERS];
                    Printf "  Accuracy: %d%%\n"
                           [AInt (Z.quot (count_correct d o * 100) NUM_REGISTERS)];
                    verdict (count_correct d o)]) = []).
  { unfold verdict. destruct (count_correct d o =? NUM_REGISTERS); reflexivity. }
  rewrite Hops. exists []. split; [reflexivity |]. split; [apply prefix_refl | reflexivity].
Qed.

(** The polling loop reads the Status register at most once per unit of
    fuel, and at least once when it is entered with the done bit clear
    below the budget. *)
Lemma runs_poll_loop (h : Z) (fuel : nat) :
  forall st pc,
    max_polls <= pc + Z.of_nat fuel ->
    runs (poll_loop E fuel h st pc)
         (polls (if (Z.land st DONE_BIT =? 0) && (pc <? max_polls) then 1 else 0) fuel).
Proof.
  induction fuel as [| fuel IH]; intros st pc Hfuel t.
  - rewrite poll_loop_exit by (right; simpl in Hfuel; lia).
    destruct (Z.ltb_spec pc max_polls) as [Hlt | Hge]; [simpl in Hfuel; lia |].
    rewrite andb_false_r. exists 0%nat. split; [lia | reflexivity].
  - destruct (Z.eqb_spec (Z.land st DONE_BIT) 0) as [Hst | Hst];
      [destruct (Z.ltb_spec pc max_polls) as [Hlt | Hge] |]; cbn [andb].
    + destruct (poll_loop E (S fuel) h st pc t) as [o ev] eqn:Hrun.
      apply poll_loop_step in Hrun; [| exact Hst | exact Hlt].
      destruct Hrun as (rc & v & [(Hrc & -> & ->) | (-> & msg & t' & ev' & Hmsg & Hrec & ->)]).
      * split; trivial. exists [Rd STATUS_REG_ADDR]. split.
        -- exists 1%nat. split; [lia | reflexivity].
        -- apply prefix_refl.
      * specialize (IH v (pc + 1) ltac:(lia) t'). rewrite Hrec in IH.
        assert (Hops : reg_ops (Usleep 1000 :: PciPeek h STATUS_REG_ADDR 0 v :: msg ++ ev')
                       = Rd STATUS_REG_ADDR :: reg_ops ev').
        { simpl. rewrite reg_ops_app, (reg_ops_printf _ Hmsg). reflexivity. }
        rewrite Hops. destruct o as [a | rc |]; [| | contradiction].
        -- destruct IH as (k & Hk & ->). exists (S k). split; [lia | reflexivity].
        -- destruct IH as [Hrc (ops & (k & Hk & ->) & [l Hpre])]. split; trivial.
           exists (repeat (Rd STATUS_REG_ADDR) (S k)). split.
           ++ exists (S k). split; [lia | reflexivity].
           ++ exists l. simpl. rewrite Hpre. reflexivity.
    + rewrite poll_loop_exit by (right; exact Hge).
      exists 0%nat. split; [lia | reflexivity].
    + rewrite poll_loop_exit by (left; exact Hst).
      exists 0%nat. split; [lia | reflexivity].
Qed.

End Order.

Lemma nonempty_one (ops : list regop) : exists o, one ops o.
Proof. exists ops. reflexivity. Qed.

Lemma nonempty_seq (L1 L2 : opset) :
  (exists o, L1 o) -> (exists o, L2 o) -> exists o, seq_ops L1 L2 o.
Proof. intros [o1 H1] [o2 H2]. exists (o1 ++ o2), o1, o2. auto. Qed.

Lemma nonempty_polls (lo hi : nat) : (lo <= hi)%nat -> exists o, polls lo hi o.
Proof. intro H. exists (repeat (Rd STATUS_REG_ADDR) lo), lo. split; [lia | reflexivity]. Qed.

Ltac nonempty :=
  repeat first [ apply nonempty_one
               | apply nonempty_seq
               | apply nonempty_polls; apply Nat.leb_le; vm_compute; reflexivity ].

Ltac runs_step :=
  lazymatch goal with
  | |- runs (bind _ _) _ => eapply runs_bind; [| intros ? |]
  | |- runs (ret _) _ => apply runs_ret
  | |- runs (printf _ _) _ => apply runs_printf
  | |- runs (usleep _) _ => apply runs_usleep
  | |- runs (fpga_pci_poke _ _ _ _) _ => apply runs_poke
  | |- runs (fpga_pci_peek _ _ _) _ => apply runs_peek
  | |- runs (when (nonzero ?rc) (bind (printf _ _) (fun _ => Return ?rc))) _ =>
      apply runs_fail_if_nonzero
  | |- runs (when _ (bind (printf _ _) (fun _ => Return 1))) _ => apply runs_fail_1
  | |- runs (when _ (printf _ _)) _ => apply runs_when_printf
  | |- runs (for_loop O _ _ _) _ => apply runs_for_loop_O
  | |- runs (for_loop (S _) _ _ _) _ => eapply runs_for_loop_S; [| intros ? |]
  | |- runs (poll_loop _ _ _ _ _) _ => apply runs_poll_loop; vm_compute; discriminate
  | |- runs (match ?x with (_, _) => _ end) _ => destruct x
  | |- runs (let _ := _ in _) _ => cbv zeta
  | |- runs ?m _ => let f := head_of m in unfold f
  | |- exists o, _ o => nonempty
  end.

Ltac runs_auto :=
  repeat (change (Z.to_nat NUM_REGISTERS) with 8%nat; runs_step).

Ltac flatten_ops :=
  repeat match goal with
         | H : seq_ops _ _ _ |- _ => destruct H as (? & ? & ? & ? & ?)
         | H : one _ _ |- _ => unfold one in H
         | H : polls _ _ _ |- _ => destruct H as (? & ? & ?)
         end;
  subst.

Section CycleOrder.

Variable E : sdk.
Variable h : Z.
Variable d : list Z.

Lemma step7_wait_runs : runs (step7_wait E h) (polls 1 1000).
Proof.
  eapply runs_conseq.
  - unfold step7_wait. cbv zeta. runs_auto.
  - intros ops H. flatten_ops.
    match goal with Hk : (_ <= ?k <= _)%nat |- _ => exists k; split; [| simpl; rewrite app_nil_r; reflexivity] end.
    assert (Hm : Z.to_nat max_polls = 1000%nat) by reflexivity. simpl in *. lia.
Qed.

Lemma finishes_conseq (m : M Empty_set) (L L' : opset) :
  finishes m L -> (forall ops, L ops -> L' ops) -> finishes m L'.
Proof.
  intros Hm HL t. specialize (Hm t). destruct (m t) as [[a | rc |] ev]; auto.
  destruct Hm as (ops & Hops & Hpre). exists ops. auto.
Qed.

(** Every run of the command cycle performs an initial segment of
    [code_order], and the whole of it when it returns 0. *)
Lemma command_cycle_finishes :
  finishes (command_cycle E h d)
           (fun ops => exists k, (1 <= k <= 1000)%nat /\ ops = code_order d k).
Proof.
  eapply finishes_conseq.
  - unfold command_cycle, after_readback, from_start.
    repeat lazymatch goal with
           | |- finishes (bind (step7_wait _ _) _) _ =>
               eapply finishes_bind; [apply step7_wait_runs | intros ? |]
           | |- finishes (bind _ _) _ => eapply finishes_bind; [solve [runs_auto] | intros ? |]
           | |- finishes (step10_verify_results _ _) _ => apply finishes_step10
           | |- exists o, _ o => nonempty
           end.
  - intros ops H. flatten_ops.
    match goal with Hk : (_ <= ?k <= _)%nat |- _ => exists k; split; [exact Hk |] end.
    reflexivity.
Qed.

End CycleOrder.

Lemma step1_run (t : history) :
  exists ev1, step1_init_test_data t = (Val operands, ev1) /\ reg_ops ev1 = [].
Proof. eexists. split; reflexivity. Qed.

(** ** From the readback to the start bit *)

Lemma runs_val {A : Type} (m : M A) (ops : list regop) (t : history) (a : A)
      (ev : list event) :
  runs m (one ops) -> m t = (Val a, ev) -> reg_ops ev = ops.
Proof. intros Hm Hrun. specialize (Hm t). rewrite Hrun in Hm. symmetry. exact Hm. Qed.

Section StatusCheck.

Variable E : sdk.
Variable h : Z.

Lemma step2_runs : runs (step2_clear_control E h) (one [Wr CONTROL_REG_ADDR 0]).
Proof.
  eapply runs_conseq; [runs_auto |].
  intros ops H. flatten_ops. reflexivity.
Qed.

Lemma step3_runs (d : list Z) :
  runs (step3_write_inputs E h d)
       (one (map (fun i => Wr (INPUT_BASE_ADDR + i * 4) (aget d i)) slots)).
Proof.
  eapply runs_conseq; [runs_auto |].
  intros ops H. flatten_ops. reflexivity.
Qed.

Lemma step4_runs (d : list Z) :
  runs (step4_verify_readback E h d)
       (one (map (fun i => Rd (INPUT_BASE_ADDR + i * 4)) slots)).
Proof.
  eapply runs_conseq; [runs_auto |].
  intros ops H. flatten_ops. reflexivity.
Qed.

(** In the readback loop that ends at slot 7, a matching readback of slot
    7 means that the loop fell through: every slot matched. *)
Lemma readback_loop_complete (d : list Z) (n : nat) :
  forall (i0 : Z) (t : history) (o : outcome unit) (ev : list event),
    0 <= i0 -> i0 + Z.of_nat n = 8 ->
    for_loop n i0 (readback_slot E h d) tt t = (o, ev) ->
    In (PciPeek h (INPUT_BASE_ADDR + 7 * 4) 0 (aget d 7)) ev ->
    o = Val tt.
Proof.
  induction n as [| n IH]; intros i0 t o ev Hi0 Hn Hrun Hin.
  - simpl in Hrun. injection Hrun as <- <-. destruct Hin.
  - simpl for_loop in Hrun.
    assert (Haddr : u32 (INPUT_BASE_ADDR + i0 * 4) = INPUT_BASE_ADDR + i0 * 4)
      by (apply input_addr; lia).
    apply bind_inv in Hrun
        as [(a & ev1 & ev2 & Hm & Hrun & ->) | [(rc & Hm & ->) | (Hm & ->)]];
      apply readback_slot_inv in Hm
        as (rc0 & v0 & [(Hrc & Ho & Hev) | [(Hrc & Hne & Ho & Hev) | (Hrc & He & Ho & Hev)]]);
      try discriminate Ho; subst; rewrite Haddr in *.
    + apply in_app_or in Hin as [Hin | Hin].
      * destruct Hin as [Hin | [Hin | []]]; [| discriminate].
        injection Hin as Ha _. unfold INPUT_BASE_ADDR in Ha.
        assert (n = 0%nat) by lia. subst n. destruct a. simpl in Hrun.
        injection Hrun as <- _. reflexivity.
      * destruct a. apply (IH (i0 + 1) _ _ _ ltac:(lia) ltac:(lia) Hrun Hin).
    + exfalso. destruct Hin as [Hin | [Hin | []]]; [| discriminate].
      injection Hin as _ Hz _. contradiction.
    + exfalso. destruct Hin as [Hin | [Hin | []]]; [| discriminate].
      injection Hin as Ha Hval. unfold INPUT_BASE_ADDR in Ha.
      assert (i0 = 7) by lia. subst. contradiction.
Qed.

Lemma step4_complete (d : list Z) (t : history) (o : outcome unit) (ev : list event) :
  step4_verify_readback E h d t = (o, ev) ->
  In (PciPeek h (INPUT_BASE_ADDR + 7 * 4) 0 (aget d 7)) ev ->
  o = Val tt.
Proof.
  rewrite step4_unfold. intros Hrun Hin.
  apply bind_inv in Hrun as [(a & ev1 & ev2 & Hm & Hrun & ->) | [(rc & Hm & _) | (Hm & _)]];
    [| discriminate Hm | discriminate Hm].
  injection Hm as _ <-.
  destruct Hin as [Hin | Hin]; [discriminate |].
  assert (Hn : 0 + Z.of_nat (Z.to_nat NUM_REGISTERS) = 8) by reflexivity.
  exact (readback_loop_complete d _ 0 _ _ _ (Z.le_refl 0) Hn Hrun Hin).
Qed.

Lemma step5_inv (t : history) (o : outcome unit) (ev : list event) :
  step5_initial_status E h t = (o, ev) ->
  exists rc v,
    (rc <> 0 /\ o = Ret rc /\
     ev = [Printf "Step 5: Checking initial status\n" [];
           PciPeek h STATUS_REG_ADDR rc v;
           Printf "ERROR: Failed to read status register\n" []]) \/
    (rc = 0 /\ o = Val tt /\
     ev = [Printf "Step 5: Checking initial status\n" [];
           PciPeek h STATUS_REG_ADDR 0 v;
           Printf "Initial status: 0x%08x\n" [AInt v]]).
Proof.
  unfold step5_initial_status, bind, printf, fpga_pci_peek, when, Return, ret, nonzero, neq.
  simpl. destruct (sdk_pci_peek E _ h STATUS_REG_ADDR) as [rc v].
  exists rc, v. destruct (Z.eqb_spec rc 0) as [Hz | Hnz]; simpl in H; injection H as <- <-.
  - right. rewrite Hz. auto.
  - left. auto.
Qed.

(** The steps after the readback begin with the read of the Status
    register; when a status read of the run succeeded, the write of the
    start bit is the operation after it. *)
Lemma status_check_then_start (d : list Z) (t : history) (o : outcome Empty_set)
      (ev : list event) :
  after_readback E h d t = (o, ev) ->
  exists tail,
    reg_ops ev = Rd STATUS_REG_ADDR :: tail /\
    ((exists v, In (PciPeek h STATUS_REG_ADDR 0 v) ev) ->
     exists tail', tail = Wr CONTROL_REG_ADDR START_BIT :: tail').
Proof.
  unfold after_readback. intro Hrun.
  apply bind_inv in Hrun as [(a & ev5 & ev' & H5 & Hrun & ->) | [(rc & H5 & ->) | (H5 & ->)]];
    apply step5_inv in H5 as (rc5 & v5 & [(Hrc & Ho & Hev) | (Hrc & Ho & Hev)]);
    try discriminate Ho; subst.
  - (* the status check succeeded *)
    apply bind_inv in Hrun as [(a6 & ev6 & ev'' & H6 & Hrun & ->) | [(rc & H6 & ->) | (H6 & ->)]];
      apply step6_inv in H6 as (rc6 & [(Hrc & Ho6 & Hev) | (Hrc & Ho6 & Hev)]);
      try discriminate Ho6; subst; rewrite ?reg_ops_app; simpl;
      eexists; (split; [reflexivity |]); intros _; eexists; reflexivity.
  - (* the status check failed *)
    exists []. split; [reflexivity |].
    intros [v Hin]. exfalso. destruct Hin as [Hin | [Hin | [Hin | []]]]; try discriminate.
    injection Hin as Hin _. contradiction.
Qed.

End StatusCheck.

Section ReachStatusCheck.

Variable E : sdk.
Variable h : Z.

Lemma reach_readback_ops (t : history) (o : outcome Empty_set) (ev : list event) :
  (printf "\n=== Testing Add-One Operation ===\n" [] ;;
   test_data <- step1_init_test_data ;;
   command_cycle E h test_data) t = (o, ev) ->
  (exists rc, o = Ret rc /\ forallb quiet_no_read ev = true) \/
  (exists evA t' ev',
     forallb quiet_no_read evA = true /\
     reg_ops evA = Wr CONTROL_REG_ADDR 0
                   :: map (fun i => Wr (INPUT_BASE_ADDR + i * 4) (aget operands i)) slots /\
     ev = evA ++ ev' /\
     (step4_verify_readback E h operands ;; after_readback E h operands) t' = (o, ev')).
Proof.
  intro Hrun.
  peel quiet_no_read Hrun u0 e0. peel quiet_no_read Hrun d e1.
  match goal with
  | Hm : step1_init_test_data ?t1 = (Val d, _) |- _ =>
      destruct (step1_run t1) as (ev1 & Hd & Hops1); rewrite Hm in Hd;
      injection Hd as -> ->
  end.
  unfold command_cycle in Hrun.
  peel quiet_no_read Hrun u2 e2. peel quiet_no_read Hrun u3 e3.
  right. exists (e0 ++ ev1 ++ e2 ++ e3). do 2 eexists.
  split; [all_true |]. split; [| split; [| exact Hrun]].
  - rewrite !reg_ops_app, Hops1.
    match goal with
    | Hm : step2_clear_control E h _ = (Val _, e2) |- _ =>
        rewrite (runs_val _ _ _ _ _ (step2_runs E h) Hm)
    end.
    match goal with
    | Hm : step3_write_inputs E h operands _ = (Val _, e3) |- _ =>
        rewrite (runs_val _ _ _ _ _ (step3_runs E h operands) Hm)
    end.
    match goal with
    | Hm : printf _ _ _ = (Val _, e0) |- _ => injection Hm as _ <-
    end.
    reflexivity.
  - rewrite <- !app_assoc. reflexivity.
Qed.

(** A run in which the readback of the last slot matched, or in which
    some status read was made, passed the readback verification: its
    first 17 register operations are those of [code_order], and the rest
    of the run is steps 5 to 10. *)
Lemma reach_status_check (t : history) (o : outcome Empty_set) (ev : list event) :
  (printf "\n=== Testing Add-One Operation ===\n" [] ;;
   test_data <- step1_init_test_data ;;
   command_cycle E h test_data) t = (o, ev) ->
  In (PciPeek h (INPUT_BASE_ADDR + 7 * 4) 0 (aget operands 7)) ev \/
  (exists rc v, In (PciPeek h STATUS_REG_ADDR rc v) ev) ->
  exists evA t' ev',
    ev = evA ++ ev' /\
    reg_ops evA = firstn 17 (code_order operands 0) /\
    (forall rc v, ~ In (PciPeek h STATUS_REG_ADDR rc v) evA) /\
    after_readback E h operands t' = (o, ev').
Proof.
  intros Hrun Hreached.
  assert (Hquiet : forall l, forallb quiet l = true ->
                             forall rc v, ~ In (PciPeek h STATUS_REG_ADDR rc v) l).
  { intros l Hl rc v Hx. apply (forallb_In _ _ _ Hl) in Hx. discriminate. }
  assert (Hweak : forall l, forallb quiet_no_read l = true -> forallb quiet l = true).
  { intro l. apply forallb_impl. intros x Hx. unfold quiet_no_read in Hx.
    apply andb_prop in Hx. tauto. }
  assert (Hnoread : forall l, forallb quiet_no_read l = true ->
                              ~ In (PciPeek h (INPUT_BASE_ADDR + 7 * 4) 0 (aget operands 7)) l).
  { intros l Hl Hx. apply (forallb_In _ _ _ Hl) in Hx. discriminate. }
  apply reach_readback_ops in Hrun
      as [(rc & -> & Hall) | (evA & t' & ev' & HA & Hops & -> & Hrun)].
  { exfalso. destruct Hreached as [Hin | (rc' & v & Hin)].
    - exact (Hnoread _ Hall Hin).
    - exact (Hquiet _ (Hweak _ Hall) _ _ Hin). }
  destruct (step4_quiet E h operands t') as [Hnf Hq4].
  apply bind_inv in Hrun as [(a & ev4 & ev5 & H4 & Hrun & ->) | [(rc & H4 & ->) | (H4 & ->)]];
    rewrite H4 in Hnf, Hq4; simpl in Hnf, Hq4; [| | contradiction].
  - exists (evA ++ ev4). do 2 eexists.
    split; [apply app_assoc |]. split; [| split; [| exact Hrun]].
    + rewrite reg_ops_app, Hops, (runs_val _ _ _ _ _ (step4_runs E h operands) H4).
      reflexivity.
    + intros rc v Hin. apply in_app_or in Hin as [Hin | Hin].
      * exact (Hquiet _ (Hweak _ HA) _ _ Hin).
      * exact (Hquiet _ Hq4 _ _ Hin).
  - exfalso. destruct Hreached as [Hin | (rc' & v & Hin)].
    + apply in_app_or in Hin as [Hin | Hin]; [exact (Hnoread _ HA Hin) |].
      pose proof (step4_complete E h operands _ _ _ H4 Hin). discriminate.
    + apply in_app_or in Hin as [Hin | Hin].
      * exact (Hquiet _ (Hweak _ HA) _ _ Hin).
      * exact (Hquiet _ Hq4 _ _ Hin).
Qed.

End ReachStatusCheck.

Lemma status_check_position (E : sdk) (h : Z) (t : history) (o : outcome Empty_set)
      (ev : list event) :
  (printf "\n=== Testing Add-One Operation ===\n" [] ;;
   test_data <- step1_init_test_data ;;
   command_cycle E h test_data) t = (o, ev) ->
  (In (PciPeek h (INPUT_BASE_ADDR + 7 * 4) 0 (aget operands 7)) ev ->
   nth_error (reg_ops ev) 17 = Some (Rd STATUS_REG_ADDR)) /\
  ((exists v, In (PciPeek h STATUS_REG_ADDR 0 v) ev) ->
   nth_error (reg_ops ev) 18 = Some (Wr CONTROL_REG_ADDR START_BIT)).
Proof.
  intro Hrun.
  assert (Hlen : forall evA, reg_ops evA = firstn 17 (code_order operands 0) ->
                             List.length (reg_ops evA) = 17%nat).
  { intros evA ->. reflexivity. }
  split.
  - intro Hin.
    destruct (reach_status_check E h t o ev Hrun (or_introl Hin))
      as (evA & t' & ev' & -> & Hops & _ & Hrest).
    apply status_check_then_start in Hrest as (tail & Htail & _).
    rewrite reg_ops_app, Htail, nth_error_app2 by (rewrite (Hlen _ Hops); lia).
    rewrite (Hlen _ Hops). reflexivity.
  - intros [v Hin].
    destruct (reach_status_check E h t o ev Hrun
                (or_intror (ex_intro _ 0 (ex_intro _ v Hin))))
      as (evA & t' & ev' & -> & Hops & HnoA & Hrest).
    apply in_app_or in Hin as [Hin | Hin]; [destruct (HnoA _ _ Hin) |].
    apply status_check_then_start in Hrest as (tail & Htail & Hstart).
    destruct (Hstart (ex_intro _ v Hin)) as [tail' ->].
    rewrite reg_ops_app, Htail, nth_error_app2 by (rewrite (Hlen _ Hops); lia).
    rewrite (Hlen _ Hops). reflexivity.
Qed.

(** C9, as amended.  The register operations of a run of
    [test_add_one_operation] are an initial segment of [code_order] for
    some number [k] of polling reads between 1 and 1000, and the whole of
    it when the function returns 0: the order of the specification, with
    one read of the Status register between the last readback and the
    write of the start bit.  When the readback of the last slot matched,
    that status read is the next register operation; when it succeeded,
    the write of the start bit is the one after it. *)
Theorem register_order_with_status_check (E : sdk) (h : Z) (t : history) :
  let (o, ev) := test_add_one_operation E h t in
  (exists k, (1 <= k <= 1000)%nat /\
             prefix (reg_ops ev) (code_order operands k) /\
             (o = Val 0 -> reg_ops ev = code_order operands k)) /\
  (In (PciPeek h (INPUT_BASE_ADDR + 7 * 4) 0 0x10000007) ev ->
   nth_error (reg_ops ev) 17 = Some (Rd STATUS_REG_ADDR)) /\
  ((exists v, In (PciPeek h STATUS_REG_ADDR 0 v) ev) ->
   nth_error (reg_ops ev) 18 = Some (Wr CONTROL_REG_ADDR START_BIT)).
Proof.
  unfold test_add_one_operation.
  match goal with
  | |- context [call ?b t] => rewrite (call_run b t); destruct (b t) as [o ev] eqn:Hrun
  end.
  pose proof (status_check_position E h t o ev Hrun) as Hpos.
  apply bind_inv in Hrun as [(a & ev0 & ev' & H0 & Hrun & ->) | [(rc & H0 & _) | (H0 & _)]];
    [| discriminate H0 | discriminate H0].
  injection H0 as _ <-.
  destruct (step1_run (t ++ [Printf "\n=== Testing Add-One Operation ===\n" []]))
    as (ev1 & H1 & Hops1).
  apply bind_inv in Hrun as [(a1 & ev1' & ev2 & H1' & Hrun & ->) | [(rc & H1' & _) | (H1' & _)]];
    rewrite H1 in H1'; try discriminate H1'.
  injection H1' as <- <-.
  pose proof (command_cycle_finishes E h operands
                ((t ++ [Printf "\n=== Testing Add-One Operation ===\n" []]) ++ ev1)) as Hfin.
  rewrite Hrun in Hfin. destruct o as [[] | rc |]; [| contradiction].
  split; [| exact Hpos].
  destruct Hfin as (ops & (k & Hk & ->) & Hpre & Hall).
  exists k. split; [exact Hk |].
  assert (Hops : reg_ops ([Printf "\n=== Testing Add-One Operation ===\n" []] ++ ev1 ++ ev2)
                 = reg_ops ev2).
  { rewrite !reg_ops_app, Hops1. reflexivity. }
  rewrite Hops. split; [exact Hpre |].
  intro H. injection H as ->. apply Hall. reflexivity.
Qed.

Lemma register_order_with_status_check_witness :
  reg_ops (snd (test_add_one_operation (sim_sdk healthy) 0 [])) = code_order operands 3 /\
  nth_error (reg_ops (snd (test_add_one_operation (sim_sdk healthy) 0 []))) 18
  = Some (Wr CONTROL_REG_ADDR START_BIT).
Proof.
  generalize (register_order_with_status_check (sim_sdk healthy) 0 []).
  set (run := test_add_one_operation (sim_sdk healthy) 0 []).
  assert (Ho : fst run = Val 0) by (vm_compute; reflexivity).
  assert (Hlen : List.length (reg_ops (snd run)) = 31%nat) by (vm_compute; reflexivity).
  assert (Hst : existsb (peek_is 0 STATUS_REG_ADDR 0 0) (snd run) = true)
    by (vm_compute; reflexivity).
  clearbody run. destruct run as [o ev]. cbn [fst snd] in *.
  intros ((k & Hk & _ & Hall) & _ & Hstart). split.
  - rewrite (Hall Ho) in *.
    assert (k = 3%nat).
    { unfold code_order in Hlen. rewrite !length_app, repeat_length in Hlen.
      simpl in Hlen. lia. }
    subst k. reflexivity.
  - apply Hstart. exists 0. apply peek_is_In. exact Hst.
Defined.

(** C9, as stated, fails: in a run on a healthy device the readback
    verification succeeds (the first 17 register operations are those of
    the specification), and the next register operation is a read of the
    Status register, where the specification has the write of the start
    bit; the run follows [spec_order] for no number of polling reads. *)
Lemma status_read_precedes_start :
  fst (test_add_one_operation (sim_sdk healthy) 0 []) = Val 0 /\
  firstn 17 (reg_ops (snd (test_add_one_operation (sim_sdk healthy) 0 [])))
  = firstn 17 (spec_order operands 3) /\
  nth_error (reg_ops (snd (test_add_one_operation (sim_sdk healthy) 0 []))) 17
  = Some (Rd STATUS_REG_ADDR) /\
  nth_error (spec_order operands 3) 17 = Some (Wr CONTROL_REG_ADDR START_BIT) /\
  ~ (exists k,
       reg_ops (snd (test_add_one_operation (sim_sdk healthy) 0 [])) = spec_order operands k).
Proof.
  split_all; try (vm_compute; reflexivity).
  intros [k Hk]. apply (f_equal (fun l => nth_error l 17)) in Hk.
  vm_compute in Hk. discriminate Hk.
Qed.

(** ** Reading the outputs (step 9) *)

Lemma length_aset_nat (l : list Z) (v : Z) :
  forall i, List.length (aset_nat l i v) = List.length l.
Proof.
  induction l as [| x l IH]; intros [| i]; simpl; trivial. rewrite IH. reflexivity.
Qed.

Lemma nth_aset_nat_same (l : list Z) (v : Z) :
  forall i, (i < List.length l)%nat -> nth i (aset_nat l i v) 0 = v.
Proof.
  induction l as [| x l IH]; intros [| i] Hi; simpl in *; try lia; trivial.
  apply IH. lia.
Qed.

Lemma nth_aset_nat_other (l : list Z) (v : Z) :
  forall i j, i <> j -> nth j (aset_nat l i v) 0 = nth j l 0.
Proof.
  induction l as [| x l IH]; intros [| i] [| j] Hij; simpl; trivial; try contradiction.
  apply IH. congruence.
Qed.

Lemma aget_aset_same (l : list Z) (i v : Z) :
  0 <= i < Z.of_nat (List.length l) -> aget (aset l i v) i = v.
Proof. intro Hi. unfold aget, aset. apply nth_aset_nat_same. lia. Qed.

Lemma aget_aset_other (l : list Z) (i j v : Z) :
  0 <= i -> 0 <= j -> i <> j -> aget (aset l i v) j = aget l j.
Proof. intros Hi Hj Hij. unfold aget, aset. apply nth_aset_nat_other. lia. Qed.

Lemma length_aset (l : list Z) (i v : Z) : List.length (aset l i v) = List.length l.
Proof. apply length_aset_nat. Qed.

Lemma output_addr (i : Z) :
  0 <= i < 8 -> u32 (OUTPUT_BASE_ADDR + i * 4) = OUTPUT_BASE_ADDR + i * 4.
Proof. intro Hi. unfold u32, OUTPUT_BASE_ADDR. apply Z.mod_small. lia. Qed.

Section Outputs.

Variable E : sdk.
Variable h : Z.

Lemma step9_unfold :
  step9_read_outputs E h =
  (printf "Step 9: Reading output data\n" [] ;;
   for_loop (Z.to_nat NUM_REGISTERS) 0 (read_output_slot E h) (uninit NUM_REGISTERS)).
Proof. reflexivity. Qed.

Lemma read_output_slot_inv (i : Z) (od : list Z) (t : history) (o : outcome (list Z))
      (ev : list event) :
  read_output_slot E h i od t = (o, ev) ->
  exists rc v,
    (rc <> 0 /\ o = Ret rc /\
     ev = [PciPeek h (u32 (OUTPUT_BASE_ADDR + i * 4)) rc v;
           Printf "ERROR: Failed to read output register %d\n" [AInt i]]) \/
    (rc = 0 /\ o = Val (aset od i v) /\
     ev = [PciPeek h (u32 (OUTPUT_BASE_ADDR + i * 4)) 0 v;
           Printf "  Output[%d] = 0x%08x\n" [AInt i; AInt (aget (aset od i v) i)]]).
Proof.
  unfold read_output_slot, bind, fpga_pci_peek, when, printf, Return, ret, nonzero, neq.
  cbv zeta. destruct (sdk_pci_peek E t h (u32 (OUTPUT_BASE_ADDR + i * 4))) as [rc v].
  exists rc, v. destruct (Z.eqb_spec rc 0) as [-> | Hrc]; simpl in H; injection H as <- <-.
  - right. auto.
  - left. auto.
Qed.

(** The loop of step 9 from slot [i0]: when it falls through, every read
    it made succeeded and its value is in the array; when it returns, some
    slot has no successful read. *)
Lemma read_outputs_loop (n : nat) :
  forall (i0 : Z) (od0 : list Z) (t : history) (o : outcome (list Z)) (ev : list event),
    0 <= i0 -> i0 + Z.of_nat n = 8 -> List.length od0 = 8%nat ->
    for_loop n i0 (read_output_slot E h) od0 t = (o, ev) ->
    match o with
    | Val od =>
        List.length od = 8%nat /\
        (forall j, 0 <= j < i0 -> aget od j = aget od0 j) /\
        (forall a rc v, In (PciPeek h a rc v) ev ->
                        exists i, i0 <= i < 8 /\ a = OUTPUT_BASE_ADDR + i * 4 /\
                                  rc = 0 /\ v = aget od i)
    | Ret rc =>
        exists j, i0 <= j < 8 /\
                  (forall v, ~ In (PciPeek h (OUTPUT_BASE_ADDR + j * 4) 0 v) ev) /\
                  (forall a rc' v, In (PciPeek h a rc' v) ev ->
                                   exists i, i0 <= i < 8 /\ a = OUTPUT_BASE_ADDR + i * 4)
    | Fuel => False
    end.
Proof.
  induction n as [| n IH]; intros i0 od0 t o ev Hi0 Hn Hlen Hrun.
  - simpl in Hrun. injection Hrun as <- <-. split; [exact Hlen |]. split; [reflexivity |].
    intros a rc v [].
  - simpl for_loop in Hrun.
    assert (Haddr : u32 (OUTPUT_BASE_ADDR + i0 * 4) = OUTPUT_BASE_ADDR + i0 * 4)
      by (apply output_addr; lia).
    apply bind_inv in Hrun
        as [(a & ev1 & ev2 & Hm & Hrun & ->) | [(rc & Hm & ->) | (Hm & ->)]];
      apply read_output_slot_inv in Hm
        as (rc0 & v0 & [(Hrc & Ho & Hev) | (Hrc & Ho & Hev)]);
      try discriminate Ho; subst; rewrite Haddr in *.
    + (* the read of slot i0 succeeded *)
      injection Ho as ->.
      apply (IH (i0 + 1)) in Hrun; [| lia | lia | rewrite length_aset; exact Hlen].
      destruct o as [od | rc |]; [| | contradiction].
      * destruct Hrun as (Hl & Hold & Hreads). split; [exact Hl |]. split.
        -- intros j Hj. rewrite Hold by lia. apply aget_aset_other; lia.
        -- intros a rc v Hin. apply in_app_or in Hin as [Hin | Hin].
           ++ destruct Hin as [Hin | [Hin | []]]; [| discriminate].
              injection Hin as <- <- <-. exists i0.
              split; [lia |]. split; [reflexivity |]. split; [reflexivity |].
              rewrite Hold by lia. symmetry. apply aget_aset_same. lia.
           ++ destruct (Hreads _ _ _ Hin) as (i & Hi & Ha & Hz & Hv).
              exists i. split; [lia | auto].
      * destruct Hrun as (j & Hj & Hnone & Haddrs). exists j. split; [lia |]. split.
        -- intros v Hin. apply in_app_or in Hin as [Hin | Hin].
           ++ destruct Hin as [Hin | [Hin | []]]; [| discriminate].
              injection Hin as Ha _. unfold OUTPUT_BASE_ADDR in Ha. lia.
           ++ exact (Hnone _ Hin).
        -- intros a rc' v Hin. apply in_app_or in Hin as [Hin | Hin].
           ++ destruct Hin as [Hin | [Hin | []]]; [| discriminate].
              injection Hin as <- _ _. exists i0. split; [lia | reflexivity].
           ++ destruct (Haddrs _ _ _ Hin) as (i & Hi & Ha). exists i. split; [lia | auto].
    + (* the read of slot i0 failed *)
      exists i0. split; [lia |]. split.
      * intros v Hin. destruct Hin as [Hin | [Hin | []]]; [| discriminate].
        injection Hin as Hz _. contradiction.
      * intros a rc' v Hin. destruct Hin as [Hin | [Hin | []]]; [| discriminate].
        injection Hin as <- _ _. exists i0. split; [lia | reflexivity].
Qed.

Lemma slot_of_output_addr (i j : Z) :
  OUTPUT_BASE_ADDR + i * 4 = OUTPUT_BASE_ADDR + j * 4 -> i = j.
Proof. lia. Qed.

(** Step 9: either it falls through with the array of the 8 values read,
    or it returns and some output slot has no successful read. *)
Lemma step9_reads (t : history) (o : outcome (list Z)) (ev : list event) :
  step9_read_outputs E h t = (o, ev) ->
  match o with
  | Val od =>
      forall i v, 0 <= i < 8 ->
                  In (PciPeek h (OUTPUT_BASE_ADDR + i * 4) 0 v) ev -> v = aget od i
  | Ret rc =>
      exists j, 0 <= j < 8 /\ forall v, ~ In (PciPeek h (OUTPUT_BASE_ADDR + j * 4) 0 v) ev
  | Fuel => False
  end.
Proof.
  rewrite step9_unfold. intro Hrun.
  apply bind_inv in Hrun as [(a & ev1 & ev2 & Hm & Hrun & ->) | [(rc & Hm & _) | (Hm & _)]];
    [| discriminate Hm | discriminate Hm].
  injection Hm as _ <-.
  apply (read_outputs_loop _ 0) in Hrun; [| lia | reflexivity | reflexivity].
  destruct o as [od | rc |]; [| | contradiction].
  - destruct Hrun as (_ & _ & Hreads). intros i v Hi Hin.
    destruct Hin as [Hin | Hin]; [discriminate |].
    destruct (Hreads _ _ _ Hin) as (i' & _ & Ha & _ & Hv).
    apply slot_of_output_addr in Ha. subst i'. exact Hv.
  - destruct Hrun as (j & Hj & Hnone & _). exists j. split; [lia |].
    intros v Hin. destruct Hin as [Hin | Hin]; [discriminate |]. exact (Hnone _ Hin).
Qed.

(** When the loop of step 9 falls through, every slot from [i0] on was
    read successfully and the array holds the value read. *)
Lemma read_outputs_loop_all (n : nat) :
  forall (i0 : Z) (od0 od : list Z) (t : history) (ev : list event),
    0 <= i0 -> i0 + Z.of_nat n = 8 -> List.length od0 = 8%nat ->
    for_loop n i0 (read_output_slot E h) od0 t = (Val od, ev) ->
    forall i, i0 <= i < 8 -> In (PciPeek h (OUTPUT_BASE_ADDR + i * 4) 0 (aget od i)) ev.
Proof.
  induction n as [| n IH]; intros i0 od0 od t ev Hi0 Hn Hlen Hrun i Hi; [lia |].
  simpl for_loop in Hrun.
  assert (Haddr : u32 (OUTPUT_BASE_ADDR + i0 * 4) = OUTPUT_BASE_ADDR + i0 * 4)
    by (apply output_addr; lia).
  apply bind_inv in Hrun
      as [(a & ev1 & ev2 & Hm & Hrun & ->) | [(rc & Hm & Ho) | (Hm & Ho)]];
    [| discriminate Ho | discriminate Ho].
  apply read_output_slot_inv in Hm as (rc0 & v0 & [(Hrc & Ho & Hev) | (Hrc & Ho & Hev)]);
    [discriminate Ho |].
  injection Ho as ->. subst. rewrite Haddr.
  destruct (Z.eq_dec i i0) as [-> | Hne].
  - apply (read_outputs_loop n (i0 + 1)) in Hrun;
      [| lia | lia | rewrite length_aset; exact Hlen].
    destruct Hrun as (_ & Hold & _). rewrite Hold by lia.
    rewrite aget_aset_same by lia. left. reflexivity.
  - apply in_or_app. right.
    apply (IH (i0 + 1) _ _ _ _ ltac:(lia) ltac:(lia)
              ltac:(rewrite length_aset; exact Hlen) Hrun). lia.
Qed.

Lemma step9_all_read (t : history) (od : list Z) (ev : list event) :
  step9_read_outputs E h t = (Val od, ev) ->
  forall i, 0 <= i < 8 -> In (PciPeek h (OUTPUT_BASE_ADDR + i * 4) 0 (aget od i)) ev.
Proof.
  rewrite step9_unfold. intros Hrun i Hi.
  apply bind_inv in Hrun as [(a & ev1 & ev2 & Hm & Hrun & ->) | [(rc & Hm & _) | (Hm & _)]];
    [| discriminate Hm | discriminate Hm].
  injection Hm as _ <-. right.
  assert (Hn : 0 + Z.of_nat (Z.to_nat NUM_REGISTERS) = 8) by reflexivity.
  assert (Hl : List.length (uninit NUM_REGISTERS) = 8%nat) by reflexivity.
  apply (read_outputs_loop_all _ 0 _ _ _ _ (Z.le_refl 0) Hn Hl Hrun). lia.
Qed.

Lemma step9_not_accuracy : safe not_accuracy (step9_read_outputs E h).
Proof. safe_auto. Qed.

(** Steps 2 to 8 of the cycle, up to the reading of the outputs. *)
Lemma reach_outputs (d : list Z) (t : history) (o : outcome Empty_set) (ev : list event) :
  command_cycle E h d t = (o, ev) ->
  (exists rc, o = Ret rc /\ forallb before_outputs ev = true) \/
  (exists evA t' ev',
     forallb before_outputs evA = true /\ ev = evA ++ ev' /\
     (output_data <- step9_read_outputs E h ;; step10_verify_results d output_data) t'
     = (o, ev')).
Proof.
  intro Hrun. unfold command_cycle in Hrun.
  peel before_outputs Hrun u2 e2. peel before_outputs Hrun u3 e3.
  peel before_outputs Hrun u4 e4. peel before_outputs Hrun u5 e5.
  peel before_outputs Hrun u6 e6. peel before_outputs Hrun u7 e7.
  peel before_outputs Hrun u8 e8.
  right. exists (e2 ++ e3 ++ e4 ++ e5 ++ e6 ++ e7 ++ e8). do 2 eexists.
  split; [all_true |]. split; [| exact Hrun].
  rewrite <- !app_assoc. reflexivity.
Qed.

End Outputs.

Lemma before_outputs_no_output_read (l : list event) (h i rc v : Z) :
  0 <= i < 8 -> forallb before_outputs l = true ->
  ~ In (PciPeek h (OUTPUT_BASE_ADDR + i * 4) rc v) l.
Proof.
  intros Hi Hl Hin. apply (forallb_In _ _ _ Hl) in Hin.
  unfold before_outputs, is_output_read, OUTPUT_BASE_ADDR, CONTROL_REG_ADDR in Hin.
  apply andb_prop in Hin as [Hin _]. apply negb_true_iff in Hin.
  apply andb_false_iff in Hin as [Hin | Hin]; [apply Z.leb_gt in Hin | apply Z.ltb_ge in Hin];
    lia.
Qed.

(** ** Verification at the level of the cycle *)

Lemma step10_only_printf (d o : list Z) : safe is_printf (step10_verify_results d o).
Proof. safe_auto. Qed.

Lemma count_correct_from_ext (d o o' : list Z) (n : nat) :
  forall i,
    (forall j, i <= j < i + Z.of_nat n -> aget o j = aget o' j) ->
    count_correct_from d o i n = count_correct_from d o' i n.
Proof.
  induction n as [| n IH]; intros i Heq; simpl count_correct_from; trivial.
  unfold slot_correct. rewrite (Heq i) by lia. rewrite (IH (i + 1)); trivial.
  intros j Hj. apply Heq. lia.
Qed.

(** C5. In a run of the command cycle on the operand vector [test_data]
    in which every output slot was read successfully, with the values
    [out], the cycle returns 0 exactly when every [out[i]] equals
    [(test_data[i] + 1) mod 2^32], and 1 otherwise; in both cases the
    report holds the row of each of the 8 slots, with the expected value
    computed by the wrapping addition (0 for the input 0xFFFFFFFF), and
    the line with the number of correct slots. *)
Theorem cycle_succeeds_iff_outputs_incremented (E : sdk) (h : Z)
        (test_data out : list Z) (t : history) :
  let (o, ev) := command_cycle E h test_data t in
  (forall i, 0 <= i < 8 -> In (PciPeek h (OUTPUT_BASE_ADDR + i * 4) 0 (aget out i)) ev) ->
  (o = Ret 0 <->
   forall i, 0 <= i < 8 -> aget out i = (aget test_data i + 1) mod 2 ^ 32) /\
  (o = Ret 0 \/ o = Ret 1) /\
  (forall i, 0 <= i < 8 ->
   In (Printf "%2d   | 0x%08x | 0x%08x | 0x%08x | %s\n"
              [AInt i; AInt (aget test_data i); AInt (aget out i);
               AInt ((aget test_data i + 1) mod 2 ^ 32);
               AStr (if aget out i =? (aget test_data i + 1) mod 2 ^ 32
                     then "âœ… PASS" else "âŒ FAIL")]) ev) /\
  (forall i, 0 <= i < 8 -> aget test_data i = 0xFFFFFFFF ->
   In (Printf "%2d   | 0x%08x | 0x%08x | 0x%08x | %s\n"
              [AInt i; AInt 0xFFFFFFFF; AInt (aget out i); AInt 0x00000000;
               AStr (if aget out i =? 0 then "âœ… PASS" else "âŒ FAIL")]) ev) /\
  In (Printf "  Correct results: %d/%d\n" [AInt (count_correct test_data out); AInt 8]) ev.
Proof.
  destruct (command_cycle E h test_data t) as [o ev] eqn:Hrun. intro Hreads.
  assert (Hnot : forall l i, 0 <= i < 8 -> forallb before_outputs l = true ->
                             ~ In (PciPeek h (OUTPUT_BASE_ADDR + i * 4) 0 (aget out i)) l).
  { intros l i Hi Hl Hin. apply (forallb_In _ _ _ Hl) in Hin.
    unfold before_outputs, is_output_read, OUTPUT_BASE_ADDR, CONTROL_REG_ADDR in Hin.
    apply andb_prop in Hin as [Hin _]. apply negb_true_iff in Hin.
    apply andb_false_iff in Hin as [Hin | Hin]; [apply Z.leb_gt in Hin | apply Z.ltb_ge in Hin];
      lia. }
  apply reach_outputs in Hrun as [(rc & -> & Hall) | (evA & t' & ev' & HA & -> & Hrun)].
  { exfalso. apply (Hnot ev 0 ltac:(lia) Hall). apply Hreads. lia. }
  apply bind_inv in Hrun as [(od & ev9 & ev10 & H9 & H10 & ->) | [(rc & H9 & ->) | (H9 & ->)]];
    apply step9_reads in H9.
  - (* all outputs read; step 10 runs on them *)
    assert (Hpr : forallb is_printf ev10 = true).
    { destruct (step10_only_printf test_data od (t' ++ ev9)) as [_ Hp].
      rewrite H10 in Hp. exact Hp. }
    assert (Heq : forall i, 0 <= i < 8 -> aget od i = aget out i).
    { intros i Hi. specialize (Hreads i Hi).
      apply in_app_or in Hreads as [Hin | Hin]; [destruct (Hnot _ _ Hi HA Hin) |].
      apply in_app_or in Hin as [Hin | Hin].
      - symmetry. exact (H9 _ _ Hi Hin).
      - apply (forallb_In _ _ _ Hpr) in Hin. discriminate. }
    pose proof (step10_verification test_data od (t' ++ ev9)) as H.
    rewrite H10 in H. destruct H as (Hiff & Hret & Hrows & Hwrap & Hcount).
    assert (Hc : count_correct test_data od = count_correct test_data out).
    { apply count_correct_from_ext. intros j Hj. apply Heq. simpl in Hj. lia. }
    split; [| split; [exact Hret | split; [| split]]].
    + rewrite Hiff. split; intros Hall i Hi.
      * rewrite <- (Heq i Hi). exact (Hall i Hi).
      * rewrite (Heq i Hi). exact (Hall i Hi).
    + intros i Hi. specialize (Hrows i Hi). rewrite (Heq i Hi) in Hrows.
      apply in_or_app. right. apply in_or_app. right. exact Hrows.
    + intros i Hi Hmax. specialize (Hwrap i Hi Hmax). rewrite (Heq i Hi) in Hwrap.
      apply in_or_app. right. apply in_or_app. right. exact Hwrap.
    + rewrite <- Hc. apply in_or_app. right. apply in_or_app. right. exact Hcount.
  - (* a read of an output failed *)
    exfalso. destruct H9 as (j & Hj & Hnone). specialize (Hreads j Hj).
    apply in_app_or in Hreads as [Hin | Hin].
    + exact (Hnot _ _ Hj HA Hin).
    + exact (Hnone _ Hin).
  - contradiction.
Qed.

Lemma cycle_succeeds_iff_outputs_incremented_witness :
  fst (command_cycle (sim_sdk healthy) 0 wrapping_operands []) = Ret 0.
Proof.
  pose proof (cycle_succeeds_iff_outputs_incremented
                (sim_sdk healthy) 0 wrapping_operands [0; 2; 3; 4; 5; 6; 7; 8] []) as H.
  set (run := command_cycle (sim_sdk healthy) 0 wrapping_operands []) in *.
  assert (Hreads : forallb (fun i => existsb (peek_is 0 (OUTPUT_BASE_ADDR + i * 4) 0
                                                     (aget [0; 2; 3; 4; 5; 6; 7; 8] i))
                                             (snd run)) slots = true)
    by (vm_compute; reflexivity).
  clearbody run. destruct run as [o ev]. cbn [fst snd] in *.
  apply H.
  - intros i Hi. apply peek_is_In. apply (forallb_In _ _ _ Hreads).
    assert (Hc : i = 0 \/ i = 1 \/ i = 2 \/ i = 3 \/ i = 4 \/ i = 5 \/ i = 6 \/ i = 7) by lia.
    unfold slots. simpl. intuition.
  - intros i Hi.
    assert (Hc : i = 0 \/ i = 1 \/ i = 2 \/ i = 3 \/ i = 4 \/ i = 5 \/ i = 6 \/ i = 7) by lia.
    destruct Hc as [-> | [-> | [-> | [-> | [-> | [-> | [-> | ->]]]]]]]; reflexivity.
Defined.

(** ** The accuracy line *)

Lemma not_accuracy_filter (l : list event) :
  forallb not_accuracy l = true -> filter is_accuracy l = [].
Proof. exact (filter_none is_accuracy l). Qed.

Lemma before_outputs_not_accuracy (l : list event) :
  forallb before_outputs l = true -> forallb not_accuracy l = true.
Proof.
  apply forallb_impl. intros x Hx. unfold before_outputs in Hx.
  apply andb_prop in Hx. tauto.
Qed.

(** The number of correct slots, for the operands of step 1: the slots
    whose output is the operand plus one. *)
Lemma count_correct_operands (out : list Z) :
  count_correct operands out
  = Z.of_nat (List.length (filter (fun i => aget out i =? 0x10000001 + i) slots)).
Proof.
  unfold count_correct, count_correct_from, slot_correct, slots, filter.
  change (add_one_expected (aget operands 0)) with (0x10000001 + 0).
  change (add_one_expected (aget operands (0 + 1))) with (0x10000001 + 1).
  change (add_one_expected (aget operands (0 + 1 + 1))) with (0x10000001 + 2).
  change (add_one_expected (aget operands (0 + 1 + 1 + 1))) with (0x10000001 + 3).
  change (add_one_expected (aget operands (0 + 1 + 1 + 1 + 1))) with (0x10000001 + 4).
  change (add_one_expected (aget operands (0 + 1 + 1 + 1 + 1 + 1))) with (0x10000001 + 5).
  change (add_one_expected (aget operands (0 + 1 + 1 + 1 + 1 + 1 + 1))) with (0x10000001 + 6).
  change (add_one_expected (aget operands (0 + 1 + 1 + 1 + 1 + 1 + 1 + 1)))
    with (0x10000001 + 7).
  change (aget out (0 + 1)) with (aget out 1).
  change (aget out (0 + 1 + 1)) with (aget out 2).
  change (aget out (0 + 1 + 1 + 1)) with (aget out 3).
  change (aget out (0 + 1 + 1 + 1 + 1)) with (aget out 4).
  change (aget out (0 + 1 + 1 + 1 + 1 + 1)) with (aget out 5).
  change (aget out (0 + 1 + 1 + 1 + 1 + 1 + 1)) with (aget out 6).
  change (aget out (0 + 1 + 1 + 1 + 1 + 1 + 1 + 1)) with (aget out 7).
  destruct (aget out 0 =? 0x10000001 + 0), (aget out 1 =? 0x10000001 + 1),
    (aget out 2 =? 0x10000001 + 2), (aget out 3 =? 0x10000001 + 3),
    (aget out 4 =? 0x10000001 + 4), (aget out 5 =? 0x10000001 + 5),
    (aget out 6 =? 0x10000001 + 6), (aget out 7 =? 0x10000001 + 7); reflexivity.
Qed.

(** The accuracy line of a command cycle on the operands [d].  Either
    some output slot has no successful read, and no accuracy line is
    printed; or every output slot was read once, with the values [od], and
    the one accuracy line shows the number of slots of [od] that are
    correct, times 100, divided by 8. *)
Lemma accuracy_cycle (E : sdk) (h : Z) (d : list Z) (t : history)
      (o : outcome Empty_set) (ev : list event) :
  command_cycle E h d t = (o, ev) ->
  (filter is_accuracy ev = [] /\
   exists j, 0 <= j < 8 /\ forall v, ~ In (PciPeek h (OUTPUT_BASE_ADDR + j * 4) 0 v) ev) \/
  (exists od,
     filter is_accuracy ev
     = [Printf "  Accuracy: %d%%\n" [AInt (count_correct d od * 100 / 8)]] /\
     reports_correct (count_correct d od) ev /\
     (forall i, 0 <= i < 8 -> In (PciPeek h (OUTPUT_BASE_ADDR + i * 4) 0 (aget od i)) ev) /\
     (forall i v, 0 <= i < 8 ->
                  In (PciPeek h (OUTPUT_BASE_ADDR + i * 4) 0 v) ev -> v = aget od i)).
Proof.
  intro Hrun.
  apply reach_outputs in Hrun as [(rc & -> & Hall) | (evA & t' & ev' & HA & -> & Hrun)].
  { left. split; [apply not_accuracy_filter, before_outputs_not_accuracy, Hall |].
    exists 0. split; [lia |]. intros v Hin.
    exact (before_outputs_no_output_read _ _ 0 _ _ ltac:(lia) Hall Hin). }
  assert (HfA : filter is_accuracy evA = [])
    by (apply not_accuracy_filter, before_outputs_not_accuracy, HA).
  destruct (step9_not_accuracy E h t') as [Hnf H9a].
  apply bind_inv in Hrun as [(od & ev9 & ev10 & H9 & H10 & ->) | [(rc & H9 & ->) | (H9 & ->)]];
    rewrite H9 in Hnf, H9a; simpl in Hnf, H9a; [| | contradiction];
    apply not_accuracy_filter in H9a.
  - (* all outputs read; step 10 runs on them *)
    right. exists od.
    pose proof (step9_all_read E h _ _ _ H9) as Hall9.
    apply step9_reads in H9.
    assert (Hpr : forallb is_printf ev10 = true).
    { destruct (step10_only_printf d od (t' ++ ev9)) as [_ Hp].
      rewrite H10 in Hp. exact Hp. }
    rewrite step10_run in H10. injection H10 as _ <-.
    pose proof (count_correct_from_bounds d od 8 0) as Hb.
    fold (count_correct d od) in Hb. set (c := count_correct d od) in *.
    split; [| split; [| split]].
    + rewrite !filter_app, HfA, H9a.
      unfold verdict, NUM_REGISTERS.
      rewrite Z.quot_div_nonneg by (simpl in Hb; lia).
      destruct (c =? 8); reflexivity.
    + unfold reports_correct. do 2 (apply in_or_app; right).
      simpl. do 13 right. left. reflexivity.
    + intros i Hi. apply in_or_app. right. apply in_or_app. left. exact (Hall9 i Hi).
    + intros i v Hi Hin.
      apply in_app_or in Hin as [Hin | Hin];
        [destruct (before_outputs_no_output_read _ _ _ _ _ Hi HA Hin) |].
      apply in_app_or in Hin as [Hin | Hin].
      * exact (H9 _ _ Hi Hin).
      * apply (forallb_In _ _ _ Hpr) in Hin. discriminate.
  - (* a read of an output failed *)
    left. split; [rewrite filter_app, HfA, H9a; reflexivity |].
    apply step9_reads in H9. destruct H9 as (j & Hj & Hnone). exists j. split; [exact Hj |].
    intros v Hin. apply in_app_or in Hin as [Hin | Hin].
    + exact (before_outputs_no_output_read _ _ _ _ _ Hj HA Hin).
    + exact (Hnone _ Hin).
Qed.

(** The same for the body of [test_add_one_operation], whose cycle runs
    on the operands of step 1. *)
Lemma accuracy_body (E : sdk) (h : Z) (t : history) (o : outcome Empty_set)
      (ev : list event) :
  (printf "\n=== Testing Add-One Operation ===\n" [] ;;
   test_data <- step1_init_test_data ;;
   command_cycle E h test_data) t = (o, ev) ->
  (filter is_accuracy ev = [] /\
   exists j, 0 <= j < 8 /\ forall v, ~ In (PciPeek h (OUTPUT_BASE_ADDR + j * 4) 0 v) ev) \/
  (exists od,
     filter is_accuracy ev
     = [Printf "  Accuracy: %d%%\n" [AInt (count_correct operands od * 100 / 8)]] /\
     reports_correct (count_correct operands od) ev /\
     (forall i, 0 <= i < 8 -> In (PciPeek h (OUTPUT_BASE_ADDR + i * 4) 0 (aget od i)) ev) /\
     (forall i v, 0 <= i < 8 ->
                  In (PciPeek h (OUTPUT_BASE_ADDR + i * 4) 0 v) ev -> v = aget od i)).
Proof.
  intro Hrun.
  apply (bind_safe_inv before_outputs) in Hrun; [| solve [safe_auto]].
  destruct Hrun as [(rc & _ & Hall) | (u0 & e0 & r0 & H0 & _ & Hrun & ->)].
  { left. split; [apply not_accuracy_filter, before_outputs_not_accuracy, Hall |].
    exists 0. split; [lia |]. intros v Hin.
    exact (before_outputs_no_output_read _ _ 0 _ _ ltac:(lia) Hall Hin). }
  apply (bind_safe_inv before_outputs) in Hrun; [| solve [safe_auto]].
  destruct Hrun as [(rc & _ & Hall) | (d & e1 & r1 & H1 & Hd & Hrun & ->)].
  { left. assert (Hall' : forallb before_outputs (e0 ++ r0) = true)
      by (rewrite forallb_app, H0, Hall; reflexivity).
    split; [apply not_accuracy_filter, before_outputs_not_accuracy, Hall' |].
    exists 0. split; [lia |]. intros v Hin.
    exact (before_outputs_no_output_read _ _ 0 _ _ ltac:(lia) Hall' Hin). }
  pose proof (step1_value (t ++ e0)) as Hv. rewrite Hd in Hv. injection Hv as ->.
  assert (Hpre : forallb before_outputs (e0 ++ e1) = true)
    by (rewrite forallb_app, H0, H1; reflexivity).
  assert (Hf : filter is_accuracy (e0 ++ e1 ++ r1) = filter is_accuracy r1).
  { rewrite app_assoc, filter_app.
    rewrite (not_accuracy_filter _ (before_outputs_not_accuracy _ Hpre)). reflexivity. }
  assert (Hin : forall i v, 0 <= i < 8 ->
                            In (PciPeek h (OUTPUT_BASE_ADDR + i * 4) 0 v) (e0 ++ e1 ++ r1) ->
                            In (PciPeek h (OUTPUT_BASE_ADDR + i * 4) 0 v) r1).
  { intros i v Hi Hx. rewrite app_assoc in Hx. apply in_app_or in Hx as [Hx | Hx]; [| exact Hx].
    destruct (before_outputs_no_output_read _ _ _ _ _ Hi Hpre Hx). }
  rewrite Hf.
  apply accuracy_cycle in Hrun as [(Hnone & j & Hj & Hno) | (od & Hline & Hrep & Hall & Huniq)].
  - left. split; [exact Hnone |]. exists j. split; [exact Hj |].
    intros v Hx. exact (Hno v (Hin j v Hj Hx)).
  - right. exists od. split; [exact Hline |]. split; [| split].
    + unfold reports_correct. do 2 (apply in_or_app; right). exact Hrep.
    + intros i Hi. do 2 (apply in_or_app; right). exact (Hall i Hi).
    + intros i v Hi Hx. exact (Huniq i v Hi (Hin i v Hi Hx)).
Qed.

(** What a run with the event list [ev] shows of its accuracy line, for
    the output values [out]. *)
Lemma accuracy_events (E : sdk) (h : Z) (out : list Z) (t : history)
      (o : outcome Empty_set) (ev : list event) :
  (printf "\n=== Testing Add-One Operation ===\n" [] ;;
   test_data <- step1_init_test_data ;;
   command_cycle E h test_data) t = (o, ev) ->
  ((forall i, 0 <= i < 8 -> In (PciPeek h (OUTPUT_BASE_ADDR + i * 4) 0 (aget out i)) ev) ->
   filter is_accuracy ev
   = [Printf "  Accuracy: %d%%\n" [AInt (count_correct operands out * 100 / 8)]] /\
   reports_correct (count_correct operands out) ev) /\
  (forall p, In (Printf "  Accuracy: %d%%\n" [AInt p]) ev ->
             exists out',
               (forall i, 0 <= i < 8 ->
                          In (PciPeek h (OUTPUT_BASE_ADDR + i * 4) 0 (aget out' i)) ev) /\
               p = count_correct operands out' * 100 / 8).
Proof.
  intro Hrun.
  apply accuracy_body in Hrun as [(Hnone & j & Hj & Hno) | (od & Hline & Hrep & Hall & Huniq)].
  - split.
    + intro Hreads. destruct (Hno _ (Hreads j Hj)).
    + intros p Hin. exfalso.
      assert (Hf : In (Printf "  Accuracy: %d%%\n" [AInt p]) (filter is_accuracy ev))
        by (apply filter_In; split; [exact Hin | reflexivity]).
      rewrite Hnone in Hf. exact Hf.
  - split.
    + intro Hreads.
      assert (Hc : count_correct operands od = count_correct operands out).
      { apply count_correct_from_ext. intros i Hi. symmetry.
        apply Huniq; [simpl in Hi; lia |]. apply Hreads. simpl in Hi. lia. }
      rewrite <- Hc. split; [exact Hline | exact Hrep].
    + intros p Hin. exists od. split; [exact Hall |].
      assert (Hf : In (Printf "  Accuracy: %d%%\n" [AInt p]) (filter is_accuracy ev))
        by (apply filter_In; split; [exact Hin | reflexivity]).
      rewrite Hline in Hf. destruct Hf as [Hf | []]. injection Hf as <-. reflexivity.
Qed.

(** C10. In a run of [test_add_one_operation] in which every output slot
    was read successfully, with the values [out], exactly one accuracy
    line is printed, and the value on it is the floor of [c * 100 / 8],
    where [c] is the number of slots whose output is the operand plus one,
    the number that the same run shows on its "Correct results" line; 7
    correct slots give 87.  An accuracy line is printed in such runs
    only. *)
Theorem accuracy_is_truncated (E : sdk) (h : Z) (out : list Z) (t : history) :
  let (o, ev) := test_add_one_operation E h t in
  let c := count_correct operands out in
  ((forall i, 0 <= i < 8 -> In (PciPeek h (OUTPUT_BASE_ADDR + i * 4) 0 (aget out i)) ev) ->
   filter is_accuracy ev = [Printf "  Accuracy: %d%%\n" [AInt (c * 100 / 8)]] /\
   reports_correct c ev) /\
  (forall p, In (Printf "  Accuracy: %d%%\n" [AInt p]) ev ->
             exists out',
               (forall i, 0 <= i < 8 ->
                          In (PciPeek h (OUTPUT_BASE_ADDR + i * 4) 0 (aget out' i)) ev) /\
               p = count_correct operands out' * 100 / 8) /\
  c = Z.of_nat (List.length (filter (fun i => aget out i =? 0x10000001 + i) slots)) /\
  0 <= c <= 8 /\
  8 * (c * 100 / 8) <= c * 100 < 8 * (c * 100 / 8) + 8 /\
  (c = 7 -> c * 100 / 8 = 87).
Proof.
  unfold test_add_one_operation.
  match goal with
  | |- context [call ?b t] => rewrite (call_run b t); destruct (b t) as [o ev] eqn:Hrun
  end.
  destruct (accuracy_events E h out t o ev Hrun) as [Hline Honly].
  pose proof (count_correct_from_bounds operands out 8 0) as Hb.
  fold (count_correct operands out) in Hb. simpl in Hb.
  assert (Hrest :
            count_correct operands out
            = Z.of_nat (List.length (filter (fun i => aget out i =? 0x10000001 + i) slots)) /\
            0 <= count_correct operands out <= 8 /\
            8 * (count_correct operands out * 100 / 8) <= count_correct operands out * 100
            < 8 * (count_correct operands out * 100 / 8) + 8 /\
            (count_correct operands out = 7 -> count_correct operands out * 100 / 8 = 87)).
  { split; [apply count_correct_operands |]. split; [lia |]. split.
    - pose proof (Z.mul_div_le (count_correct operands out * 100) 8 ltac:(lia)).
      pose proof (Z.mul_succ_div_gt (count_correct operands out * 100) 8 ltac:(lia)).
      lia.
    - intros ->. reflexivity. }
  destruct o as [[] | rc |]; cbv zeta; (split; [exact Hline | split; [exact Honly | exact Hrest]]).
Qed.

Lemma accuracy_is_truncated_witness :
  filter is_accuracy (snd (test_add_one_operation (sim_sdk stuck3) 0 []))
  = [Printf "  Accuracy: %d%%\n" [AInt 87]] /\
  reports_correct 7 (snd (test_add_one_operation (sim_sdk stuck3) 0 [])).
Proof.
  pose proof (accuracy_is_truncated
                (sim_sdk stuck3) 0
                [0x10000001; 0x10000002; 0x10000003; 0x10000003;
                 0x10000005; 0x10000006; 0x10000007; 0x10000008] []) as H.
  set (out := [0x10000001; 0x10000002; 0x10000003; 0x10000003;
               0x10000005; 0x10000006; 0x10000007; 0x10000008]) in *.
  set (run := test_add_one_operation (sim_sdk stuck3) 0 []) in *.
  assert (Hreads : forallb (fun i => existsb (peek_is 0 (OUTPUT_BASE_ADDR + i * 4) 0 (aget out i))
                                             (snd run)) slots = true)
    by (vm_compute; reflexivity).
  clearbody run. destruct run as [o ev]. cbn [fst snd] in *.
  change (count_correct operands out) with 7 in H. cbv zeta in H.
  change (7 * 100 / 8) with 87 in H.
  apply (proj1 H).
  intros i Hi. apply peek_is_In. apply (forallb_In _ _ _ Hreads).
  assert (Hc : i = 0 \/ i = 1 \/ i = 2 \/ i = 3 \/ i = 4 \/ i = 5 \/ i = 6 \/ i = 7) by lia.
  unfold slots. simpl. intuition.
Defined.

(** ** The first read that shows the done bit *)

Section FirstDone.

Variable E : sdk.
Variable h : Z.

Lemma status_reads_printf (msg : list event) :
  forallb is_printf msg = true -> status_reads msg = [].
Proof.
  intro H. unfold status_reads. apply filter_none.
  revert H. apply forallb_impl. intros e He. destruct e; try discriminate. reflexivity.
Qed.

(** When the status reads of the loop are [vs] without the done bit,
    followed by [v] with it, the loop is left with [v] after one attempt
    per read. *)
Lemma poll_loop_first_done (fuel : nat) :
  forall (st pc : Z) (t : history) (o : outcome (Z * Z)) (ev : list event)
         (vs : list Z) (v : Z),
    poll_loop E fuel h st pc t = (o, ev) ->
    Z.land st DONE_BIT = 0 ->
    pc + Z.of_nat fuel = max_polls ->
    status_reads ev = map (fun x => PciPeek h STATUS_REG_ADDR 0 x) (vs ++ [v]) ->
    Forall (fun x => Z.land x DONE_BIT = 0) vs ->
    Z.land v DONE_BIT <> 0 ->
    o = Val (v, pc + Z.of_nat (List.length vs) + 1).
Proof.
  induction fuel as [| fuel IH]; intros st pc t o ev vs v Hrun Hst Hpc Hreads Hvs Hv.
  - rewrite poll_loop_exit in Hrun by (right; simpl in Hpc; lia).
    injection Hrun as <- <-. destruct vs; discriminate Hreads.
  - apply poll_loop_step in Hrun; [| exact Hst | lia].
    destruct Hrun as (rc & v0 & [(Hrc & -> & ->) | (-> & msg & t' & ev' & Hmsg & Hrec & ->)]).
    + exfalso. unfold status_reads in Hreads. simpl in Hreads.
      destruct vs; injection Hreads as Hz _; contradiction.
    + assert (Hsplit : status_reads (Usleep 1000 :: PciPeek h STATUS_REG_ADDR 0 v0 :: msg ++ ev')
                       = PciPeek h STATUS_REG_ADDR 0 v0 :: status_reads ev').
      { unfold status_reads. simpl. rewrite filter_app.
        fold (status_reads msg). rewrite (status_reads_printf _ Hmsg). reflexivity. }
      rewrite Hsplit in Hreads. destruct vs as [| v1 vs]; simpl in Hreads.
      * injection Hreads as -> _.
        rewrite poll_loop_exit in Hrec by (left; exact Hv).
        injection Hrec as <- _. simpl. f_equal. f_equal. lia.
      * injection Hreads as -> Hreads. inversion_clear Hvs as [| ? ? Hv1 Hvs'].
        rewrite (IH _ _ _ _ _ _ _ Hrec Hv1 ltac:(lia) Hreads Hvs' Hv).
        f_equal. f_equal. simpl List.length. lia.
Qed.

(** Step 7 completes when the done bit shows at an attempt below the
    budget, and times out when it shows at the last attempt. *)
Lemma step7_first_done (t : history) (o : outcome unit) (ev : list event)
      (vs : list Z) (v : Z) :
  step7_wait E h t = (o, ev) ->
  status_reads ev = map (fun x => PciPeek h STATUS_REG_ADDR 0 x) (vs ++ [v]) ->
  Forall (fun x => Z.land x DONE_BIT = 0) vs ->
  Z.land v DONE_BIT <> 0 ->
  let k := Z.of_nat (List.length vs) + 1 in
  (k < max_polls -> o = Val tt) /\
  (k = max_polls -> o = Ret 1 /\ In (timeout_msg max_polls) ev).
Proof.
  intros Hrun Hreads Hvs Hv k. unfold step7_wait in Hrun.
  remember (Z.to_nat max_polls) as fuel eqn:Hfuel.
  apply bind_inv in Hrun as [(a & ev1 & ev2 & Hm & Hrun & ->) | [(rc & Hm & _) | (Hm & _)]];
    [| discriminate Hm | discriminate Hm].
  injection Hm as _ <-. cbv zeta in Hrun.
  assert (Hfirst : forall o' ev',
             poll_loop E fuel h 0 0 (t ++ [Printf "Step 7: Waiting for computation to complete\n" []])
             = (o', ev') ->
             status_reads ev' = map (fun x => PciPeek h STATUS_REG_ADDR 0 x) (vs ++ [v]) ->
             o' = Val (v, k)).
  { intros o' ev' Hp Hr.
    rewrite (poll_loop_first_done _ _ _ _ _ _ _ _ Hp eq_refl ltac:(subst fuel; reflexivity)
                                  Hr Hvs Hv).
    reflexivity. }
  apply bind_inv in Hrun as [(a' & ev3 & ev4 & Hm & Hrun & ->) | [(rc & Hm & ->) | (Hm & ->)]].
  - unfold bind, when, printf, Return, ret in Hrun.
    destruct a' as [st' pc'].
    destruct (Z.geb_spec pc' max_polls) as [Hge | Hlt]; simpl in Hrun;
      injection Hrun as <- <-.
    + assert (Hp : Val (st', pc') = Val (v, k)).
      { apply (Hfirst _ _ Hm). unfold status_reads in *. simpl in Hreads.
        rewrite !filter_app in Hreads. simpl in Hreads. rewrite app_nil_r in Hreads.
        exact Hreads. }
      injection Hp as -> ->. split; [lia |]. intros Hk. split; [reflexivity |].
      apply in_or_app. right. apply in_or_app. right. left.
      unfold timeout_msg. rewrite Hk. reflexivity.
    + assert (Hp : Val (st', pc') = Val (v, k)).
      { apply (Hfirst _ _ Hm). unfold status_reads in *. simpl in Hreads.
        rewrite !filter_app in Hreads. simpl in Hreads. rewrite app_nil_r in Hreads.
        exact Hreads. }
      injection Hp as -> ->. split; [reflexivity | lia].
  - exfalso. assert (Hp : Ret rc = Val (v, k)) by (apply (Hfirst _ _ Hm); exact Hreads).
    discriminate.
  - exfalso. assert (Hp : Fuel = Val (v, k)) by (apply (Hfirst _ _ Hm); exact Hreads).
    discriminate.
Qed.

End FirstDone.

(** ** The result of the cycle and the exit code *)

(** When a detach happens, [peek_poke_example] returns the code of the
    detach: [rc] is assigned again at the [cleanup] label, and what
    [test_add_one_operation] returned is lost. *)
Lemma peek_poke_example_returns_detach_code (E : sdk) (slot pf bar : Z) (t : history) :
  let (o, ev) := peek_poke_example E slot pf bar t in
  forall h rc_d, In (PciDetach h rc_d) ev -> o = Val rc_d.
Proof.
  destruct (sdk_pci_attach E (t ++ [attach_banner]) slot pf bar 0) as [rc h] eqn:Ha.
  destruct (Z.eq_dec rc 0) as [-> | Hrc].
  - set (t1 := t ++ [attach_banner; PciAttach slot pf bar 0 0 h;
                     Printf "PCI BAR attached successfully\n" []]).
    destruct (test_add_one_operation_no_detach E h t1) as [_ Hnd].
    destruct (test_add_one_operation_returns E h t1) as [rc_c Hret].
    destruct (test_add_one_operation E h t1) as [o_c ev_c] eqn:Hc.
    simpl in Hret, Hnd. subst o_c.
    rewrite (peek_poke_example_attached E slot pf bar t h rc_c ev_c Ha Hc).
    assert (Hcyc : forall h' r, ~ In (PciDetach h' r) ev_c).
    { intros h' r Hin. rewrite forallb_forall in Hnd. apply Hnd in Hin. discriminate. }
    assert (Hmsg : forall h' r, ~ In (PciDetach h' r) (cycle_failed_msg rc_c)).
    { intros h' r. unfold cycle_failed_msg. destruct (nonzero rc_c); simpl; intuition discriminate. }
    destruct (h >=? 0); cbv zeta; intros h' r Hin.
    + apply in_app_or in Hin as [Hin | Hin].
      { simpl in Hin. unfold attach_banner in Hin. intuition discriminate. }
      apply in_app_or in Hin as [Hin | Hin]; [destruct (Hcyc _ _ Hin) |].
      apply in_app_or in Hin as [Hin | Hin]; [destruct (Hmsg _ _ Hin) |].
      destruct Hin as [Hin | [Hin | []]].
      * injection Hin as _ <-. reflexivity.
      * exfalso. unfold detach_msg in Hin. destruct (nonzero _); discriminate.
    + exfalso. apply in_app_or in Hin as [Hin | Hin].
      { simpl in Hin. unfold attach_banner in Hin. intuition discriminate. }
      apply in_app_or in Hin as [Hin | Hin]; [destruct (Hcyc _ _ Hin) | destruct (Hmsg _ _ Hin)].
  - rewrite (peek_poke_example_attach_failed E slot pf bar t rc h Ha Hrc).
    intros h' r Hin. simpl in Hin. unfold attach_banner in Hin. intuition discriminate.
Qed.

(** C1 (the code departs from the claim).  With output slot 3 not
    incremented, [test_add_one_operation] returns 1 and
    [peek_poke_example] prints that the test failed; the detach that
    follows succeeds and [peek_poke_example] returns 0: the result of the
    cycle is overridden by the result of the detach. *)
Theorem detach_result_overrides_cycle_result :
  fst (test_add_one_operation (sim_sdk stuck3) 0 attached0) = Val 1 /\
  reports_correct 7 (snd (test_add_one_operation (sim_sdk stuck3) 0 attached0)) /\
  printed "ERROR: Add-One operation test failed\n" []
          (snd (peek_poke_example (sim_sdk stuck3) 0 0 0 [])) = true /\
  count_detach (snd (peek_poke_example (sim_sdk stuck3) 0 0 0 [])) = 1%nat /\
  fst (peek_poke_example (sim_sdk stuck3) 0 0 0 []) = Val 0.
Proof.
  split; [vm_compute; reflexivity |]. split; [| split_all; vm_compute; reflexivity].
  apply printed_In. vm_compute. reflexivity.
Qed.

(** C2 (the code departs from the claim).  With a loaded image and a
    successful attach and detach, [main] returns 0, after the message that
    the test failed and then the message that it completed successfully,
    both when output slot 3 mismatches and when the poll times out;
    [test_add_one_operation] returned 1 in each run. *)
Theorem exit_code_zero_on_failed_cycle :
  fst (main sample_header (sim_sdk stuck3) []) = Val 0 /\
  reports_correct 7 (snd (main sample_header (sim_sdk stuck3) [])) /\
  printed "ERROR: Add-One operation test failed\n" []
          (snd (main sample_header (sim_sdk stuck3) [])) = true /\
  printed "Test completed successfully!\n" []
          (snd (main sample_header (sim_sdk stuck3) [])) = true /\
  fst (test_add_one_operation (sim_sdk never_done) 0 attached0) = Val 1 /\
  List.length (polled_status (snd (main sample_header (sim_sdk never_done) []))) = 1000%nat /\
  printed "ERROR: Timeout waiting for computation completion after %d polls\n" [AInt 1000]
          (snd (main sample_header (sim_sdk never_done) [])) = true /\
  fst (main sample_header (sim_sdk never_done) []) = Val 0.
Proof.
  split; [vm_compute; reflexivity |]. split; [| split_all; vm_compute; reflexivity].
  apply printed_In. vm_compute. reflexivity.
Qed.

(** C3 (the code departs from the claim).  When the done bit shows first
    at the 1000th status read of the polling loop, the loop is left with
    the done bit seen, and the cycle still returns 1 with the timeout
    message as its last event; the Control register is not cleared and no
    output is read.  With the done bit at read 999 the cycle completes. *)
Theorem done_at_last_attempt_times_out :
  fst (test_add_one_operation (sim_sdk (done_at 1000)) 0 []) = Val 1 /\
  polled_status (snd (test_add_one_operation (sim_sdk (done_at 1000)) 0 []))
  = repeat 0 999 ++ [DONE_BIT] /\
  last (snd (test_add_one_operation (sim_sdk (done_at 1000)) 0 [])) (Usleep 0)
  = Printf "ERROR: Timeout waiting for computation completion after %d polls\n" [AInt 1000] /\
  reg_ops (after_start (snd (test_add_one_operation (sim_sdk (done_at 1000)) 0 [])))
  = repeat (Rd STATUS_REG_ADDR) 1000 /\
  fst (test_add_one_operation (sim_sdk (done_at 999)) 0 []) = Val 0.
Proof. split_all; vm_compute; reflexivity. Qed.

(** * Further properties of the program *)

Section Strict.

Variable E : sdk.

Lemma strict_ret {A : Type} (a : A) : strict (ret a).
Proof. intro t. reflexivity. Qed.

Lemma strict_printf (fmt : string) (args : list arg) : strict (printf fmt args).
Proof. intro t. reflexivity. Qed.

Lemma strict_usleep (usec : Z) : strict (usleep usec).
Proof. intro t. reflexivity. Qed.

Lemma strict_Return {A : Type} (rc : Z) : rc = 0 \/ rc = 1 -> strict (@Return A rc).
Proof. intros H t. left. split; [reflexivity | exact H]. Qed.

Lemma aborted_at_app (rc : Z) (l ev : list event) :
  forallb io_ok l = true -> aborted_at rc ev -> aborted_at rc (l ++ ev).
Proof.
  intros Hl (pre & e & msg & -> & Hpre & He & Hc & Hm).
  exists (l ++ pre), e, msg. rewrite forallb_app, Hl, Hpre, app_assoc. auto.
Qed.

Lemma strict_bind {A B : Type} (m : M A) (f : A -> M B) :
  strict m -> (forall a, strict (f a)) -> strict (bind m f).
Proof.
  intros Hm Hf t. rewrite bind_run. specialize (Hm t).
  destruct (m t) as [[a | rc |] ev]; [| exact Hm | contradiction].
  specialize (Hf a (t ++ ev)). destruct (f a (t ++ ev)) as [[b | rc |] ev']; simpl.
  - rewrite forallb_app, Hm, Hf. reflexivity.
  - destruct Hf as [[Hok Hrc] | Hab].
    + left. rewrite forallb_app, Hm, Hok. auto.
    + right. apply aborted_at_app; assumption.
  - contradiction.
Qed.

Lemma strict_when_printf (c : bool) (fmt : string) (args : list arg) :
  strict (when c (printf fmt args)).
Proof. intro t. destruct c; reflexivity. Qed.

Lemma strict_fail_1 (c : bool) (fmt : string) (args : list arg) :
  strict (when c (printf fmt args ;; Return 1)).
Proof. intro t. destruct c; simpl; auto. Qed.

(** A write whose code is tested right after the call. *)
Lemma strict_poke {A : Type} (h a v : Z) (F : Z -> M A) :
  (forall rc, rc <> 0 ->
     exists fmt args, forall t, F rc t = (Ret rc, [Printf fmt args])) ->
  strict (F 0) ->
  strict (bind (fpga_pci_poke E h a v) F).
Proof.
  intros Hfail Hok t. rewrite bind_run. unfold fpga_pci_poke. cbv zeta.
  set (rc := sdk_pci_poke E t h a v). cbv iota beta.
  destruct (Z.eq_dec rc 0) as [Hz | Hnz].
  - rewrite Hz. specialize (Hok (t ++ [PciPoke h a v 0])).
    destruct (F 0 (t ++ [PciPoke h a v 0])) as [[b | rc' |] ev']; simpl; trivial.
    destruct Hok as [[H1 H2] | Hab]; [left; auto | right].
    apply (aborted_at_app rc' [PciPoke h a v 0]); [reflexivity | exact Hab].
  - destruct (Hfail rc Hnz) as (fmt & args & HF). rewrite HF. simpl. right.
    exists [], (PciPoke h a v rc), (Printf fmt args). simpl. unfold nonzero, neq.
    rewrite (proj2 (Z.eqb_neq rc 0) Hnz). auto.
Qed.

(** A read whose code is tested right after the call. *)
Lemma strict_peek {A : Type} (h a : Z) (F : Z * Z -> M A) :
  (forall rc v, rc <> 0 ->
     exists fmt args, forall t, F (rc, v) t = (Ret rc, [Printf fmt args])) ->
  (forall v, strict (F (0, v))) ->
  strict (bind (fpga_pci_peek E h a) F).
Proof.
  intros Hfail Hok t. rewrite bind_run. unfold fpga_pci_peek.
  destruct (sdk_pci_peek E t h a) as [rc v]. cbv iota beta.
  destruct (Z.eq_dec rc 0) as [Hz | Hnz].
  - rewrite Hz. specialize (Hok v (t ++ [PciPeek h a 0 v])).
    destruct (F (0, v) (t ++ [PciPeek h a 0 v])) as [[b | rc' |] ev']; simpl; trivial.
    destruct Hok as [[H1 H2] | Hab]; [left; auto | right].
    apply (aborted_at_app rc' [PciPeek h a 0 v]); [reflexivity | exact Hab].
  - destruct (Hfail rc v Hnz) as (fmt & args & HF). rewrite HF. simpl. right.
    exists [], (PciPeek h a rc v), (Printf fmt args). simpl. unfold nonzero, neq.
    rewrite (proj2 (Z.eqb_neq rc 0) Hnz). auto.
Qed.

Lemma strict_for_loop_O {St : Type} (i : Z) (body : Z -> St -> M St) (s : St) :
  strict (for_loop 0 i body s).
Proof. apply strict_ret. Qed.

Lemma strict_for_loop_S {St : Type} (n : nat) (i : Z) (body : Z -> St -> M St) (s : St) :
  strict (body i s) ->
  (forall s', strict (for_loop n (i + 1) body s')) ->
  strict (for_loop (S n) i body s).
Proof. intros H1 H2. simpl. apply strict_bind; assumption. Qed.

End Strict.

(** The test of a code: on a code other than 0 the statement prints one
    message and returns the code. *)
Ltac fails_with_code :=
  intros;
  match goal with
  | Hrc : ?rc <> 0 |- _ =>
      do 2 eexists; intro;
      unfold when, nonzero, neq, bind, printf, Return;
      rewrite (proj2 (Z.eqb_neq rc 0) Hrc); reflexivity
  end.

Ltac strict_step :=
  lazymatch goal with
  | |- strict (bind (fpga_pci_poke _ _ _ _) _) =>
      apply strict_poke; [fails_with_code | cbn [when nonzero neq negb Z.eqb]]
  | |- strict (bind (fpga_pci_peek _ _ _) _) =>
      apply strict_peek; [fails_with_code | intros ?; cbn [when nonzero neq negb Z.eqb]]
  | |- strict (bind _ _) => apply strict_bind; [| intros ?]
  | |- strict (ret _) => apply strict_ret
  | |- strict (Return _) => apply strict_Return; auto
  | |- strict (when _ (bind (printf _ _) (fun _ => Return 1))) => apply strict_fail_1
  | |- strict (when _ (printf _ _)) => apply strict_when_printf
  | |- strict (printf _ _) => apply strict_printf
  | |- strict (usleep _) => apply strict_usleep
  | |- strict (for_loop O _ _ _) => apply strict_for_loop_O
  | |- strict (for_loop (S _) _ _ _) => apply strict_for_loop_S; [| intros ?]
  | |- strict (match ?x with (_, _) => _ end) => destruct x
  | |- strict (if ?c then _ else _) => destruct c
  | |- strict (let _ := _ in _) => cbv zeta
  | |- strict ?m => let f := head_of m in unfold f
  end.

Ltac strict_auto :=
  repeat (change (Z.to_nat NUM_REGISTERS) with 8%nat; strict_step).

Lemma strict_step2 (E : sdk) (h : Z) : strict (step2_clear_control E h).
Proof. strict_auto. Qed.

Lemma strict_poll_loop (E : sdk) (h : Z) (fuel : nat) :
  forall st pc, max_polls <= pc + Z.of_nat fuel -> strict (poll_loop E fuel h st pc).
Proof.
  induction fuel as [| fuel IH]; intros st pc Hle; simpl.
  - destruct (Z.ltb_spec pc max_polls) as [Hlt | Hge]; [lia |].
    rewrite andb_false_r. apply strict_ret.
  - destruct ((Z.land st DONE_BIT =? 0) && (pc <? max_polls)); [| apply strict_ret].
    strict_auto. apply IH. lia.
Qed.

Lemma strict_step7 (E : sdk) (h : Z) : strict (step7_wait E h).
Proof.
  unfold step7_wait. cbv zeta. apply strict_bind; [apply strict_printf | intros _].
  apply strict_bind; [apply strict_poll_loop; vm_compute; discriminate | intros [st pc]].
  strict_auto.
Qed.

Lemma strict_cycle (E : sdk) (h : Z) :
  strict (printf "\n=== Testing Add-One Operation ===\n" [] ;;
          test_data <- step1_init_test_data ;;
          command_cycle E h test_data).
Proof.
  apply strict_bind; [apply strict_printf | intros _].
  apply strict_bind; [strict_auto | intros d].
  unfold command_cycle, after_readback, from_start.
  repeat lazymatch goal with
         | |- strict (bind (step7_wait _ _) _) =>
             apply strict_bind; [apply strict_step7 | intros ?]
         | |- strict (bind _ _) => apply strict_bind; [solve [strict_auto] | intros ?]
         end.
  strict_auto.
Qed.

Lemma io_failed_not_ok (l : list event) (e : event) :
  forallb io_ok l = true -> In e l -> io_failed e = true -> False.
Proof.
  intros Hl Hin He. apply (forallb_In _ _ _ Hl) in Hin. unfold io_ok in Hin.
  rewrite He in Hin. discriminate.
Qed.

Lemma aborted_at_inv (rc : Z) (ev : list event) (e : event) :
  aborted_at rc ev -> In e ev -> io_failed e = true ->
  rc = io_code e /\
  exists pre msg, ev = pre ++ [e; msg] /\ is_printf msg = true /\ forallb io_ok pre = true.
Proof.
  intros (pre & e' & msg & -> & Hpre & He' & Hc & Hm) Hin He.
  apply in_app_or in Hin as [Hin | [Hin | [Hin | []]]].
  - destruct (io_failed_not_ok _ _ Hpre Hin He).
  - subst e'. split; [symmetry; exact Hc |]. exists pre, msg. auto.
  - subst e. destruct msg; discriminate.
Qed.

(** X1.  In a run of [test_add_one_operation], a register access for
    which the SDK returns a code other than 0 ends the run: no access
    failed before it, exactly one message follows it, and the function
    returns that code.  When no access fails the function returns 0 or 1. *)
Theorem io_error_aborts_cycle (E : sdk) (h : Z) (t : history) :
  let (o, ev) := test_add_one_operation E h t in
  (forall e, In e ev -> io_failed e = true ->
     o = Val (io_code e) /\ io_code e <> 0 /\
     exists pre msg,
       ev = pre ++ [e; msg] /\ is_printf msg = true /\ forallb io_ok pre = true) /\
  (forallb io_ok ev = true -> o = Val 0 \/ o = Val 1).
Proof.
  unfold test_add_one_operation.
  match goal with
  | |- context [call ?b t] =>
      rewrite (call_run b t); pose proof (strict_cycle E h t) as Hs;
      destruct (b t) as [o ev]
  end.
  destruct o as [[] | rc |]; [| contradiction]. split.
  - intros e Hin He. destruct Hs as [[Hok _] | Hab].
    + destruct (io_failed_not_ok _ _ Hok Hin He).
    + destruct (aborted_at_inv _ _ _ Hab Hin He) as [-> Hev].
      split; [reflexivity |]. split; [| exact Hev].
      destruct e; try discriminate; unfold io_failed, nonzero, neq in He; simpl;
        intro Hz; rewrite Hz in He; discriminate.
  - intro Hok. destruct Hs as [[_ [-> | ->]] | (pre & e & msg & -> & _ & He & _)]; auto.
    exfalso. apply (io_failed_not_ok _ e Hok); [| exact He].
    apply in_or_app. right. left. reflexivity.
Qed.

Lemma io_error_aborts_cycle_witness :
  fst (test_add_one_operation (with_failing_read (sim_sdk healthy) 0x28 (-5)) 0 [])
  = Val (-5).
Proof.
  pose proof (io_error_aborts_cycle (with_failing_read (sim_sdk healthy) 0x28 (-5)) 0 []) as H.
  set (run := test_add_one_operation (with_failing_read (sim_sdk healthy) 0x28 (-5)) 0 []) in *.
  assert (Hread : existsb (peek_is 0 0x28 (-5) 0) (snd run) = true)
    by (vm_compute; reflexivity).
  clearbody run. destruct run as [o ev]. cbn [fst snd] in *.
  apply peek_is_In in Hread.
  exact (proj1 (proj1 H _ Hread eq_refl)).
Defined.

(** ** Every return is announced *)

Section Announced.

Variable E : sdk.

Lemma announced_ret {A : Type} (a : A) : announced (ret a).
Proof. intro t. exact I. Qed.

Lemma announced_printf (fmt : string) (args : list arg) : announced (printf fmt args).
Proof. intro t. exact I. Qed.

Lemma announced_usleep (usec : Z) : announced (usleep usec).
Proof. intro t. exact I. Qed.

Lemma announced_poke (h a v : Z) : announced (fpga_pci_poke E h a v).
Proof. intro t. exact I. Qed.

Lemma announced_peek (h a : Z) : announced (fpga_pci_peek E h a).
Proof. intro t. unfold fpga_pci_peek. destruct (sdk_pci_peek E t h a). exact I. Qed.

Lemma announced_bind {A B : Type} (m : M A) (f : A -> M B) :
  announced m -> (forall a, announced (f a)) -> announced (bind m f).
Proof.
  intros Hm Hf t. rewrite bind_run. specialize (Hm t).
  destruct (m t) as [[a | rc |] ev]; [| exact Hm | contradiction].
  specialize (Hf a (t ++ ev)). destruct (f a (t ++ ev)) as [[b | rc |] ev']; simpl; trivial.
  destruct Hf as (pre & e & -> & He). exists (ev ++ pre), e.
  rewrite app_assoc. auto.
Qed.

Lemma announced_return {A : Type} (rc : Z) (fmt : string) (args : list arg) :
  announces rc (Printf fmt args) = true ->
  announced (printf fmt args ;; @Return A rc).
Proof. intros H t. exists [], (Printf fmt args). auto. Qed.

Lemma announces_error (rc : Z) (e : event) :
  rc <> 0 -> is_error_msg e = true -> announces rc e = true.
Proof.
  intros Hrc He. unfold announces. rewrite (proj2 (Z.eqb_neq rc 0) Hrc), He. reflexivity.
Qed.

Lemma announced_fail_if_nonzero (rc : Z) (fmt : string) (args : list arg) :
  is_error_msg (Printf fmt args) = true ->
  announced (when (nonzero rc) (printf fmt args ;; Return rc)).
Proof.
  intros H t. unfold nonzero, neq. destruct (Z.eqb_spec rc 0) as [Hz | Hnz]; simpl; trivial.
  exists [], (Printf fmt args). split; [reflexivity |]. apply announces_error; assumption.
Qed.

Lemma announced_fail_1 (c : bool) (fmt : string) (args : list arg) :
  is_error_msg (Printf fmt args) = true ->
  announced (when c (printf fmt args ;; Return 1)).
Proof.
  intros H t. destruct c; simpl; trivial.
  exists [], (Printf fmt args). split; [reflexivity |].
  apply announces_error; [discriminate | exact H].
Qed.

Lemma announced_when_printf (c : bool) (fmt : string) (args : list arg) :
  announced (when c (printf fmt args)).
Proof. intro t. destruct c; exact I. Qed.

Lemma announced_for_loop_O {St : Type} (i : Z) (body : Z -> St -> M St) (s : St) :
  announced (for_loop 0 i body s).
Proof. apply announced_ret. Qed.

Lemma announced_for_loop_S {St : Type} (n : nat) (i : Z) (body : Z -> St -> M St) (s : St) :
  announced (body i s) ->
  (forall s', announced (for_loop n (i + 1) body s')) ->
  announced (for_loop (S n) i body s).
Proof. intros H1 H2. simpl. apply announced_bind; assumption. Qed.

End Announced.

Ltac announced_step :=
  lazymatch goal with
  | |- announced (bind (printf _ _) (fun _ => Return _)) =>
      apply announced_return; reflexivity
  | |- announced (bind _ _) => apply announced_bind; [| intros ?]
  | |- announced (ret _) => apply announced_ret
  | |- announced (when (nonzero ?rc) (bind (printf _ _) (fun _ => Return ?rc))) =>
      apply announced_fail_if_nonzero; reflexivity
  | |- announced (when _ (bind (printf _ _) (fun _ => Return 1))) =>
      apply announced_fail_1; reflexivity
  | |- announced (when _ (printf _ _)) => apply announced_when_printf
  | |- announced (printf _ _) => apply announced_printf
  | |- announced (usleep _) => apply announced_usleep
  | |- announced (fpga_pci_poke _ _ _ _) => apply announced_poke
  | |- announced (fpga_pci_peek _ _ _) => apply announced_peek
  | |- announced (for_loop O _ _ _) => apply announced_for_loop_O
  | |- announced (for_loop (S _) _ _ _) => apply announced_for_loop_S; [| intros ?]
  | |- announced (match ?x with (_, _) => _ end) => destruct x
  | |- announced (if ?c then _ else _) => destruct c
  | |- announced (let _ := _ in _) => cbv zeta
  | |- announced ?m => let f := head_of m in unfold f
  end.

Ltac announced_auto :=
  repeat (change (Z.to_nat NUM_REGISTERS) with 8%nat; announced_step).

Lemma is_msg_eq (fmt : string) (e : event) : is_msg fmt e = true -> e = Printf fmt [].
Proof.
  destruct e as [f args | | | | | | |]; try discriminate. simpl.
  destruct args; [| discriminate]. intro H. apply String.eqb_eq in H. congruence.
Qed.

Lemma announces_spec (rc : Z) (e : event) :
  announces rc e = true ->
  (rc = 0 /\ e = all_correct_msg) \/
  (rc <> 0 /\ (is_error_msg e = true \/ e = some_incorrect_msg)).
Proof.
  unfold announces. destruct (Z.eqb_spec rc 0) as [Hz | Hnz]; intro H.
  - left. split; [exact Hz |]. apply is_msg_eq. exact H.
  - right. split; [exact Hnz |]. apply orb_prop in H as [H | H]; [left; exact H | right].
    apply is_msg_eq. exact H.
Qed.

Lemma announced_poll_loop (E : sdk) (h : Z) (fuel : nat) :
  forall st pc, max_polls <= pc + Z.of_nat fuel -> announced (poll_loop E fuel h st pc).
Proof.
  induction fuel as [| fuel IH]; intros st pc Hle; simpl.
  - destruct (Z.ltb_spec pc max_polls) as [Hlt | Hge]; [lia |].
    rewrite andb_false_r. apply announced_ret.
  - destruct ((Z.land st DONE_BIT =? 0) && (pc <? max_polls)); [| apply announced_ret].
    announced_auto. apply IH. lia.
Qed.

Lemma announced_step7 (E : sdk) (h : Z) : announced (step7_wait E h).
Proof.
  unfold step7_wait. cbv zeta. apply announced_bind; [apply announced_printf | intros _].
  apply announced_bind; [apply announced_poll_loop; vm_compute; discriminate | intros [st pc]].
  announced_auto.
Qed.

Lemma announced_cycle (E : sdk) (h : Z) :
  announced (printf "\n=== Testing Add-One Operation ===\n" [] ;;
             test_data <- step1_init_test_data ;;
             command_cycle E h test_data).
Proof.
  apply announced_bind; [apply announced_printf | intros _].
  apply announced_bind; [announced_auto | intros d].
  unfold command_cycle, after_readback, from_start.
  repeat lazymatch goal with
         | |- announced (bind (step7_wait _ _) _) =>
             apply announced_bind; [apply announced_step7 | intros ?]
         | |- announced (bind _ _) => apply announced_bind; [solve [announced_auto] | intros ?]
         end.
  announced_auto.
Qed.

(** X2.  [test_add_one_operation] never returns silently: the last
    event of every run is a message, printed right before the return.  It
    is the message that all outputs are correct exactly when the result is
    0; otherwise it is a message that begins with "ERROR: " or the message
    that some outputs are incorrect. *)
Theorem every_return_is_announced (E : sdk) (h : Z) (t : history) :
  let (o, ev) := test_add_one_operation E h t in
  exists rc pre e,
    o = Val rc /\ ev = pre ++ [e] /\
    ((rc = 0 /\ e = all_correct_msg) \/
     (rc <> 0 /\ (is_error_msg e = true \/ e = some_incorrect_msg))).
Proof.
  unfold test_add_one_operation.
  match goal with
  | |- context [call ?b t] =>
      rewrite (call_run b t); pose proof (announced_cycle E h t) as Ha;
      destruct (b t) as [o ev]
  end.
  destruct o as [[] | rc |]; [| contradiction].
  destruct Ha as (pre & e & -> & He). exists rc, pre, e.
  split; [reflexivity |]. split; [reflexivity |].
  apply announces_spec. exact He.
Qed.

(** ** The shape of the polling phase *)

Lemma sdk_calls_printf (l : list event) : forallb is_printf l = true -> sdk_calls l = [].
Proof.
  intro H. unfold sdk_calls. apply filter_none.
  revert H. apply forallb_impl. intros e He. rewrite He. reflexivity.
Qed.

Section PollShape.

Variable E : sdk.
Variable h : Z.

(** The SDK calls of the polling loop are one sleep and one status read
    per attempt; the attempts are at most the remaining budget, and they
    are what the loop adds to [poll_count]. *)
Lemma poll_loop_shape (fuel : nat) :
  forall (st pc : Z) (t : history) (o : outcome (Z * Z)) (ev : list event),
    poll_loop E fuel h st pc t = (o, ev) ->
    pc + Z.of_nat fuel = max_polls ->
    exists rs : list (Z * Z),
      (List.length rs <= fuel)%nat /\
      sdk_calls ev = flat_map (poll_pair h) rs /\
      match o with
      | Val (_, pc') => pc' = pc + Z.of_nat (List.length rs)
      | Ret rc => rc <> 0
      | Fuel => False
      end.
Proof.
  induction fuel as [| fuel IH]; intros st pc t o ev Hrun Hpc.
  - rewrite poll_loop_exit in Hrun by (right; simpl in Hpc; lia).
    injection Hrun as <- <-. exists []. simpl. split; [lia |]. split; [reflexivity | lia].
  - destruct (Z.eq_dec (Z.land st DONE_BIT) 0) as [Hst | Hst].
    + apply poll_loop_step in Hrun; [| exact Hst | lia].
      destruct Hrun as (rc & v & [(Hrc & -> & ->) | (-> & msg & t' & ev' & Hmsg & Hrec & ->)]).
      * exists [(rc, v)]. simpl. split; [lia |]. split; [reflexivity | exact Hrc].
      * apply IH in Hrec; [| lia]. destruct Hrec as (rs & Hlen & Hcalls & Ho).
        exists ((0, v) :: rs). split; [simpl; lia |]. split.
        -- change (Usleep 1000 :: PciPeek h STATUS_REG_ADDR 0 v :: msg ++ ev')
             with ([Usleep 1000; PciPeek h STATUS_REG_ADDR 0 v] ++ msg ++ ev').
           rewrite !sdk_calls_app, Hcalls, (sdk_calls_printf _ Hmsg). reflexivity.
        -- destruct o as [[st' pc'] | rc |]; trivial. simpl List.length. lia.
    + rewrite poll_loop_exit in Hrun by (left; exact Hst).
      injection Hrun as <- <-. exists []. simpl. split; [lia |]. split; [reflexivity | lia].
Qed.

Lemma poll_loop_events (fuel : nat) (st pc : Z) :
  max_polls <= pc + Z.of_nat fuel -> safe poll_event (poll_loop E fuel h st pc).
Proof.
  intro Hle. apply safe_poll_loop; trivial; intros; reflexivity.
Qed.

(** Step 7, from the run of its loop. *)
Lemma step7_inv (t : history) (o : outcome unit) (ev : list event) :
  step7_wait E h t = (o, ev) ->
  exists o7 evp,
    poll_loop E (Z.to_nat max_polls) h 0 0
              (t ++ [Printf "Step 7: Waiting for computation to complete\n" []]) = (o7, evp) /\
    match o7 with
    | Val (_, pc) =>
        if pc >=? max_polls
        then o = Ret 1 /\
             ev = Printf "Step 7: Waiting for computation to complete\n" [] :: evp
                    ++ [timeout_msg pc]
        else o = Val tt /\
             ev = Printf "Step 7: Waiting for computation to complete\n" [] :: evp
                    ++ [completed_msg pc]
    | Ret rc => o = Ret rc /\
                ev = Printf "Step 7: Waiting for computation to complete\n" [] :: evp
    | Fuel => False
    end.
Proof.
  unfold step7_wait. cbv zeta. intro Hrun.
  apply bind_inv in Hrun as [(a & ev1 & ev2 & Hm & Hrun & ->) | [(rc & Hm & _) | (Hm & _)]];
    [| discriminate Hm | discriminate Hm].
  injection Hm as _ <-.
  destruct (poll_loop_events (Z.to_nat max_polls) 0 0 ltac:(vm_compute; discriminate)
              (t ++ [Printf "Step 7: Waiting for computation to complete\n" []])) as [Hnf _].
  apply bind_inv in Hrun as [(a' & ev3 & ev4 & Hm & Hrun & ->) | [(rc & Hm & ->) | (Hm & ->)]];
    rewrite Hm in Hnf; simpl in Hnf; [| | contradiction]; do 2 eexists; (split; [exact Hm |]).
  - destruct a' as [st pc]. unfold bind, when, printf, Return, ret in Hrun.
    destruct (pc >=? max_polls); simpl in Hrun; injection Hrun as <- <-; auto.
  - simpl. auto.
Qed.

Lemma step8_inv (t : history) (o : outcome unit) (ev : list event) :
  step8_clear_start E h t = (o, ev) ->
  exists rc,
    (rc <> 0 /\ o = Ret rc /\
     ev = [Printf "Step 8: Clearing start bit\n" [];
           PciPoke h CONTROL_REG_ADDR 0 rc;
           Printf "ERROR: Failed to clear start bit\n" []]) \/
    (rc = 0 /\ o = Val tt /\
     ev = [Printf "Step 8: Clearing start bit\n" [];
           PciPoke h CONTROL_REG_ADDR 0 0]).
Proof.
  unfold step8_clear_start, bind, printf, fpga_pci_poke, when, Return, ret, nonzero, neq.
  simpl. set (rc := sdk_pci_poke E _ h CONTROL_REG_ADDR 0).
  exists rc. destruct (Z.eqb_spec rc 0) as [Hz | Hnz]; simpl in H; injection H as <- <-.
  - right. rewrite Hz. auto.
  - left. auto.
Qed.

End PollShape.

Section FromStart.

Variable E : sdk.
Variable h : Z.

Lemma reach_start_quiet (t : history) (o : outcome Empty_set) (ev : list event) :
  (printf "\n=== Testing Add-One Operation ===\n" [] ;;
   test_data <- step1_init_test_data ;;
   command_cycle E h test_data) t = (o, ev) ->
  (exists rc, o = Ret rc /\ forallb before_start ev = true) \/
  (exists evA t' ev' d,
     forallb before_start evA = true /\ ev = evA ++ ev' /\ from_start E h d t' = (o, ev')).
Proof.
  intro Hrun.
  peel before_start Hrun u0 e0. peel before_start Hrun d e1. unfold command_cycle in Hrun.
  peel before_start Hrun u2 e2. peel before_start Hrun u3 e3.
  peel before_start Hrun u4 e4. peel before_start Hrun u5 e5.
  right. exists (e0 ++ e1 ++ e2 ++ e3 ++ e4 ++ e5). do 2 eexists. exists d.
  split; [all_true |]. split; [| exact Hrun].
  rewrite <- !app_assoc. reflexivity.
Qed.

Lemma after_poll_steps (d : list Z) :
  safe after_poll (step8_clear_start E h ;;
                   output_data <- step9_read_outputs E h ;;
                   step10_verify_results d output_data).
Proof. safe_auto. Qed.

(** The steps from 6 on: the write of the start bit, the polling loop,
    and, when the loop is left below the budget, the completion message
    and steps 8 to 10, which begin with the write of 0 to Control. *)
Lemma from_start_inv (d : list Z) (t : history) (o : outcome Empty_set) (ev : list event) :
  from_start E h d t = (o, ev) ->
  exists rc6,
    (rc6 <> 0 /\ o = Ret rc6 /\
     ev = [Printf "Step 6: Starting Add-One computation\n" [];
           PciPoke h CONTROL_REG_ADDR START_BIT rc6;
           Printf "ERROR: Failed to start computation\n" []]) \/
    (rc6 = 0 /\
     exists t7 o7 evp tail,
       poll_loop E (Z.to_nat max_polls) h 0 0 t7 = (o7, evp) /\
       ev = [Printf "Step 6: Starting Add-One computation\n" [];
             PciPoke h CONTROL_REG_ADDR START_BIT 0;
             Printf "Computation started\n" [];
             Printf "Step 7: Waiting for computation to complete\n" []] ++ evp ++ tail /\
       match o7 with
       | Val (_, pc) =>
           if pc >=? max_polls
           then o = Ret 1 /\ tail = [timeout_msg pc]
           else exists rc8 rest,
                  tail = completed_msg pc :: Printf "Step 8: Clearing start bit\n" []
                           :: PciPoke h CONTROL_REG_ADDR 0 rc8 :: rest /\
                  forallb after_poll tail = true
       | Ret rc => o = Ret rc /\ tail = []
       | Fuel => False
       end).
Proof.
  unfold from_start. intro Hrun.
  apply bind_inv in Hrun as [(a & ev6 & ev2 & H6 & Hrun & ->) | [(rc & H6 & ->) | (H6 & ->)]];
    apply step6_inv in H6 as (rc6 & [(Hrc & Ho & Hev) | (Hrc & Ho & Hev)]);
    try discriminate Ho; exists rc6; [right | left; injection Ho as ->; subst; auto].
  subst. split; [reflexivity |].
  apply bind_inv in Hrun as [(a7 & ev7 & ev3 & H7 & Hrun & ->) | [(rc & H7 & ->) | (H7 & ->)]];
    apply step7_inv in H7 as (o7 & evp & Hp & H7).
  - (* step 7 fell through *)
    destruct o7 as [[st pc] | rc |]; [| destruct H7; discriminate | contradiction].
    destruct (pc >=? max_polls) eqn:Hpc; destruct H7 as [Ho7 ->]; [discriminate |].
    pose proof (after_poll_steps d) as Hsafe.
    match type of Hrun with ?m ?t8 = _ => specialize (Hsafe t8) end.
    rewrite Hrun in Hsafe. destruct Hsafe as [_ Hsafe]. simpl in Hsafe.
    apply bind_inv in Hrun as [(a8 & ev8 & ev4 & H8 & Hrun & ->) | [(rc & H8 & ->) | (H8 & ->)]];
      apply step8_inv in H8 as (rc8 & [(Hrc & Ho8 & Hev) | (Hrc & Ho8 & Hev)]);
      try discriminate Ho8; subst.
    + apply (f_equal (andb (after_poll (completed_msg pc)))) in Hsafe.
      do 4 eexists. split; [exact Hp |]. split.
      * simpl. rewrite <- !app_assoc. reflexivity.
      * rewrite Hpc. exists 0. eexists. split; [reflexivity |]. exact Hsafe.
    + apply (f_equal (andb (after_poll (completed_msg pc)))) in Hsafe.
      do 4 eexists. split; [exact Hp |]. split.
      * simpl. rewrite <- !app_assoc. reflexivity.
      * rewrite Hpc. exists rc8. eexists. split; [reflexivity |]. exact Hsafe.
  - (* step 7 returned *)
    destruct o7 as [[st pc] | rc7 |]; [| | contradiction].
    + destruct (pc >=? max_polls) eqn:Hpc; destruct H7 as [Ho7 ->]; [| discriminate].
      injection Ho7 as ->.
      do 2 eexists. exists evp, [timeout_msg pc]. split; [exact Hp |]. split.
      * reflexivity.
      * rewrite Hpc. auto.
    + destruct H7 as [Ho7 ->]. injection Ho7 as ->.
      do 2 eexists. exists evp, []. split; [exact Hp |]. split.
      * simpl. rewrite app_nil_r. reflexivity.
      * auto.
  - destruct o7 as [[st pc] | rc7 |]; [| | contradiction].
    + destruct (pc >=? max_polls); destruct H7; discriminate.
    + destruct H7; discriminate.
Qed.

End FromStart.

(** ** Views of the polling phase *)

Lemma slept_app (l1 l2 : list event) : slept (l1 ++ l2) = slept l1 + slept l2.
Proof.
  induction l1 as [| e l1 IH]; simpl; [lia |]. destruct e; rewrite ?IH; lia.
Qed.

Lemma slept_none (P : event -> bool) (l : list event) :
  (forall e, P e = true -> is_usleep e = false) -> forallb P l = true -> slept l = 0.
Proof.
  intros HP. induction l as [| e l IH]; simpl; trivial.
  intro H. apply andb_prop in H as [He Hl]. apply HP in He.
  destruct e; try discriminate; auto.
Qed.

Lemma slept_sdk_calls (l : list event) : slept (sdk_calls l) = slept l.
Proof.
  induction l as [| e l IH]; simpl; trivial. destruct e; simpl; rewrite ?IH; reflexivity.
Qed.

Lemma slept_poll_pairs (h : Z) (rs : list (Z * Z)) :
  slept (flat_map (poll_pair h) rs) = 1000 * Z.of_nat (List.length rs).
Proof.
  induction rs as [| r rs IH]; [reflexivity |].
  change (slept (flat_map (poll_pair h) (r :: rs)))
    with (1000 + slept (flat_map (poll_pair h) rs)).
  rewrite IH. change (List.length (r :: rs)) with (S (List.length rs)). lia.
Qed.

Lemma reg_ops_sdk_calls (l : list event) : reg_ops (sdk_calls l) = reg_ops l.
Proof.
  induction l as [| e l IH]; simpl; trivial. destruct e; simpl; rewrite ?IH; reflexivity.
Qed.

Lemma reg_ops_poll_pairs (h : Z) (rs : list (Z * Z)) :
  reg_ops (flat_map (poll_pair h) rs) = repeat (Rd STATUS_REG_ADDR) (List.length rs).
Proof.
  induction rs as [| r rs IH]; simpl; [reflexivity |]. rewrite IH. reflexivity.
Qed.

Lemma poll_calls_sdk_calls (l : list event) :
  filter is_poll_call (sdk_calls l) = filter is_poll_call l.
Proof.
  induction l as [| e l IH]; simpl; trivial. destruct e; simpl; rewrite ?IH; reflexivity.
Qed.

Lemma poll_calls_poll_pairs (h : Z) (rs : list (Z * Z)) :
  filter is_poll_call (flat_map (poll_pair h) rs) = flat_map (poll_pair h) rs.
Proof.
  induction rs as [| r rs IH]; simpl; [reflexivity |]. rewrite IH. reflexivity.
Qed.

Lemma poll_calls_none (P : event -> bool) (l : list event) :
  (forall e, P e = true -> is_poll_call e = false) ->
  forallb P l = true -> filter is_poll_call l = [].
Proof.
  intros HP H. apply filter_none. revert H. apply forallb_impl.
  intros e He. rewrite (HP e He). reflexivity.
Qed.

Lemma after_start_none (l : list event) :
  forallb (fun e => negb (is_start_write e)) l = true -> after_start l = [].
Proof.
  intro H. rewrite <- (app_nil_r l). rewrite after_start_app by exact H. reflexivity.
Qed.

Lemma before_start_spec (e : event) :
  before_start e = true ->
  is_start_write e = false /\ is_usleep e = false /\ is_timeout e = false /\
  is_progress e = false.
Proof. unfold before_start. rewrite !andb_true_iff, !negb_true_iff. tauto. Qed.

Lemma before_start_not_start (l : list event) :
  forallb before_start l = true -> forallb (fun e => negb (is_start_write e)) l = true.
Proof.
  apply forallb_impl. intros e He. apply before_start_spec in He as (He & _).
  rewrite He. reflexivity.
Qed.

Lemma before_start_no_sleep (e : event) : before_start e = true -> is_usleep e = false.
Proof. intro He. apply before_start_spec in He. tauto. Qed.

Lemma after_poll_no_sleep (e : event) : after_poll e = true -> is_usleep e = false.
Proof.
  unfold after_poll. intro He. apply andb_prop in He as [He _].
  apply before_start_no_sleep. exact He.
Qed.

Lemma after_poll_no_poll_call (e : event) : after_poll e = true -> is_poll_call e = false.
Proof.
  intro He. unfold is_poll_call. rewrite (after_poll_no_sleep e He).
  unfold after_poll in He. apply andb_prop in He as [_ He].
  apply negb_true_iff in He. rewrite He. reflexivity.
Qed.

(** The events that follow the write of the start bit in a run that
    reached it. *)
Lemma after_start_reached (h rc : Z) (evA l : list event) :
  forallb before_start evA = true ->
  after_start (evA ++ Printf "Step 6: Starting Add-One computation\n" []
                 :: PciPoke h CONTROL_REG_ADDR START_BIT rc :: l) = l.
Proof.
  intro HA. rewrite after_start_app by (apply before_start_not_start; exact HA).
  reflexivity.
Qed.

(** ** Sleeps *)

Lemma sleeps_body (E : sdk) (h : Z) (t : history) (o : outcome Empty_set)
      (ev : list event) :
  (printf "\n=== Testing Add-One Operation ===\n" [] ;;
   test_data <- step1_init_test_data ;;
   command_cycle E h test_data) t = (o, ev) ->
  exists rs : list (Z * Z),
    (List.length rs <= 1000)%nat /\
    filter is_poll_call (after_start ev) = flat_map (poll_pair h) rs /\
    slept ev = 1000 * Z.of_nat (List.length rs).
Proof.
  intro Hrun.
  apply reach_start_quiet in Hrun as [(rc & -> & Hall) | (evA & t' & ev' & d & HA & -> & Hrun)].
  { exists []. split; [simpl; lia |].
    rewrite (after_start_none _ (before_start_not_start _ Hall)).
    rewrite (slept_none _ _ before_start_no_sleep Hall). split; reflexivity. }
  pose proof (slept_none _ _ before_start_no_sleep HA) as HsA.
  apply from_start_inv in Hrun
      as (rc6 & [(Hrc & -> & ->) | (-> & t7 & o7 & evp & tail & Hp & -> & Htail)]).
  { exists []. split; [simpl; lia |].
    rewrite (after_start_reached h rc6 evA _ HA), slept_app, HsA. split; reflexivity. }
  destruct (poll_loop_shape E h _ _ _ _ _ _ Hp eq_refl) as (rs & Hlen & Hcalls & Ho7).
  assert (Htl : filter is_poll_call tail = [] /\ slept tail = 0).
  { destruct o7 as [[st pc] | rc7 |]; [| destruct Htail as [_ ->]; auto | contradiction].
    destruct (pc >=? max_polls).
    - destruct Htail as [_ ->]. auto.
    - destruct Htail as (rc8 & rest & _ & Hsafe). split.
      + exact (poll_calls_none _ _ after_poll_no_poll_call Hsafe).
      + exact (slept_none _ _ after_poll_no_sleep Hsafe). }
  destruct Htl as [Hf Hs].
  exists rs. split; [exact Hlen |]. split.
  - change ([?a; ?b; ?c; ?d] ++ ?l) with (a :: b :: [c; d] ++ l).
    rewrite (after_start_reached h 0 evA _ HA), !filter_app, Hf, app_nil_r.
    rewrite <- (poll_calls_sdk_calls evp), Hcalls. apply poll_calls_poll_pairs.
  - rewrite !slept_app, HsA, Hs, <- (slept_sdk_calls evp), Hcalls, slept_poll_pairs.
    simpl. lia.
Qed.

(** X3.  In every run of [test_add_one_operation] the sleeps and the
    reads of the Status register that follow the write of the start bit
    alternate: one sleep of 1000 microseconds, then one read, at most 1000
    times; there is no other sleep, so the time slept is 1 ms per polling
    attempt and at most one second. *)
Theorem polling_sleeps_once_per_read (E : sdk) (h : Z) (t : history) :
  let (o, ev) := test_add_one_operation E h t in
  exists rs : list (Z * Z),
    (List.length rs <= 1000)%nat /\
    filter is_poll_call (after_start ev) = flat_map (poll_pair h) rs /\
    slept ev = 1000 * Z.of_nat (List.length rs) /\
    slept ev <= 1000000.
Proof.
  unfold test_add_one_operation.
  match goal with
  | |- context [call ?b t] => rewrite (call_run b t); destruct (b t) as [o ev] eqn:Hrun
  end.
  destruct (sleeps_body E h t o ev Hrun) as (rs & Hlen & Hcalls & Hs).
  assert (H : exists rs : list (Z * Z),
             (List.length rs <= 1000)%nat /\
             filter is_poll_call (after_start ev) = flat_map (poll_pair h) rs /\
             slept ev = 1000 * Z.of_nat (List.length rs) /\
             slept ev <= 1000000).
  { exists rs. split; [exact Hlen |]. split; [exact Hcalls |]. split; [exact Hs | lia]. }
  destruct o as [[] | rc |]; exact H.
Qed.

(** ** After a timeout *)

Lemma not_timeout_in (P : event -> bool) (l : list event) (n : Z) :
  (forall e, P e = true -> is_timeout e = false) ->
  forallb P l = true -> ~ In (timeout_msg n) l.
Proof.
  intros HP Hl Hin. apply (forallb_In _ _ _ Hl) in Hin. apply HP in Hin. discriminate.
Qed.

Lemma before_start_no_timeout (e : event) : before_start e = true -> is_timeout e = false.
Proof. intro He. apply before_start_spec in He. tauto. Qed.

Lemma after_poll_no_timeout (e : event) : after_poll e = true -> is_timeout e = false.
Proof.
  unfold after_poll. intro He. apply andb_prop in He as [He _].
  apply before_start_no_timeout. exact He.
Qed.

Lemma poll_event_no_timeout (e : event) : poll_event e = true -> is_timeout e = false.
Proof.
  destruct e; simpl; try reflexivity. intro He. apply negb_true_iff in He. exact He.
Qed.

Lemma timeout_leaves_body (E : sdk) (h : Z) (t : history) (o : outcome Empty_set)
      (ev : list event) (n : Z) :
  (printf "\n=== Testing Add-One Operation ===\n" [] ;;
   test_data <- step1_init_test_data ;;
   command_cycle E h test_data) t = (o, ev) ->
  In (timeout_msg n) ev ->
  n = 1000 /\ o = Ret 1 /\
  exists pre post,
    ev = pre ++ PciPoke h CONTROL_REG_ADDR START_BIT 0 :: post /\
    reg_ops post = repeat (Rd STATUS_REG_ADDR) 1000.
Proof.
  intros Hrun Hin.
  apply reach_start_quiet in Hrun as [(rc & -> & Hall) | (evA & t' & ev' & d & HA & -> & Hrun)].
  { destruct (not_timeout_in _ _ n before_start_no_timeout Hall Hin). }
  apply in_app_or in Hin as [Hin | Hin];
    [destruct (not_timeout_in _ _ n before_start_no_timeout HA Hin) |].
  apply from_start_inv in Hrun
      as (rc6 & [(Hrc & -> & ->) | (-> & t7 & o7 & evp & tail & Hp & -> & Htail)]).
  { exfalso. destruct Hin as [Hin | [Hin | [Hin | []]]]; discriminate. }
  destruct (poll_loop_shape E h _ _ _ _ _ _ Hp eq_refl) as (rs & Hlen & Hcalls & Ho7).
  assert (Hpe : forallb poll_event evp = true).
  { destruct (poll_loop_events E h (Z.to_nat max_polls) 0 0 ltac:(vm_compute; discriminate) t7)
      as [_ Hpe]. rewrite Hp in Hpe. exact Hpe. }
  apply in_app_or in Hin as [Hin | Hin].
  { exfalso. destruct Hin as [Hin | [Hin | [Hin | [Hin | []]]]]; discriminate. }
  apply in_app_or in Hin as [Hin | Hin];
    [destruct (not_timeout_in _ _ n poll_event_no_timeout Hpe Hin) |].
  destruct o7 as [[st pc] | rc7 |]; [| destruct Htail as [_ ->]; destruct Hin | contradiction].
  destruct (Z.geb_spec pc max_polls) as [Hge | Hlt].
  - destruct Htail as [-> ->]. destruct Hin as [Hin | []]. injection Hin as <-.
    assert (Hk : List.length rs = 1000%nat).
    { change (Z.to_nat max_polls) with 1000%nat in Hlen. unfold max_polls in Hge. lia. }
    split; [rewrite Ho7, Hk; reflexivity |]. split; [reflexivity |].
    exists (evA ++ [Printf "Step 6: Starting Add-One computation\n" []]),
           ([Printf "Computation started\n" [];
             Printf "Step 7: Waiting for computation to complete\n" []]
              ++ evp ++ [timeout_msg pc]).
    split.
    + rewrite <- app_assoc. reflexivity.
    + rewrite !reg_ops_app. change (reg_ops [timeout_msg pc]) with (@nil regop).
      change (reg_ops [Printf "Computation started\n" [];
                       Printf "Step 7: Waiting for computation to complete\n" []])
        with (@nil regop).
      cbn [app].
      rewrite app_nil_r, <- reg_ops_sdk_calls, Hcalls, reg_ops_poll_pairs, Hk. reflexivity.
  - destruct Htail as (rc8 & rest & _ & Hsafe).
    destruct (not_timeout_in _ _ n after_poll_no_timeout Hsafe Hin).
Qed.

(** X4.  A run of [test_add_one_operation] that prints the timeout
    message prints it with 1000 attempts and returns 1; the write of the
    start bit succeeded, and the register operations after it are the 1000
    reads of the Status register and nothing else: the Control register is
    left with the start bit set and no output is read. *)
Theorem timeout_leaves_start_bit_set (E : sdk) (h : Z) (t : history) (n : Z) :
  let (o, ev) := test_add_one_operation E h t in
  In (timeout_msg n) ev ->
  n = 1000 /\ o = Val 1 /\
  exists pre post,
    ev = pre ++ PciPoke h CONTROL_REG_ADDR START_BIT 0 :: post /\
    reg_ops post = repeat (Rd STATUS_REG_ADDR) 1000.
Proof.
  unfold test_add_one_operation.
  match goal with
  | |- context [call ?b t] => rewrite (call_run b t); destruct (b t) as [o ev] eqn:Hrun
  end.
  pose proof (timeout_leaves_body E h t o ev n Hrun) as Hbody.
  destruct o as [[] | rc |]; intro Hin;
    destruct (Hbody Hin) as (Hn & Ho & Hev); try discriminate Ho.
  injection Ho as ->. auto.
Qed.

Lemma timeout_leaves_start_bit_set_witness :
  exists pre post,
    snd (test_add_one_operation (sim_sdk never_done) 0 [])
    = pre ++ PciPoke 0 CONTROL_REG_ADDR START_BIT 0 :: post /\
    reg_ops post = repeat (Rd STATUS_REG_ADDR) 1000.
Proof.
  pose proof (timeout_leaves_start_bit_set (sim_sdk never_done) 0 [] 1000) as H.
  set (run := test_add_one_operation (sim_sdk never_done) 0 []) in *.
  assert (Hmsg : printed "ERROR: Timeout waiting for computation completion after %d polls\n"
                         [AInt 1000] (snd run) = true)
    by (vm_compute; reflexivity).
  clearbody run. destruct run as [o ev]. cbn [fst snd] in *.
  apply printed_In in Hmsg.
  exact (proj2 (proj2 (H Hmsg))).
Defined.

(** ** The first read that shows the done bit ends the polling *)

Lemma status_reads_app (l1 l2 : list event) :
  status_reads (l1 ++ l2) = status_reads l1 ++ status_reads l2.
Proof. apply filter_app. Qed.

Lemma status_reads_none (P : event -> bool) (l : list event) :
  (forall e, P e = true -> is_status_read e = false) ->
  forallb P l = true -> status_reads l = [].
Proof.
  intros HP H. apply filter_none. revert H. apply forallb_impl.
  intros e He. rewrite (HP e He). reflexivity.
Qed.

Lemma after_poll_no_status_read (e : event) : after_poll e = true -> is_status_read e = false.
Proof.
  unfold after_poll. intro He. apply andb_prop in He as [_ He].
  apply negb_true_iff in He. exact He.
Qed.

Section StopsAtDone.

Variable E : sdk.
Variable h : Z.

(** When the status reads of the loop begin with the values [vs], without
    the done bit, and then [v], with it, the loop is left at [v]: it makes
    no further read. *)
Lemma poll_loop_stops_at_done (fuel : nat) :
  forall (st pc : Z) (t : history) (o : outcome (Z * Z)) (ev : list event)
         (vs : list Z) (v : Z) (more : list event),
    poll_loop E fuel h st pc t = (o, ev) ->
    Z.land st DONE_BIT = 0 ->
    pc + Z.of_nat fuel = max_polls ->
    status_reads ev = map (fun x => PciPeek h STATUS_REG_ADDR 0 x) (vs ++ [v]) ++ more ->
    Forall (fun x => Z.land x DONE_BIT = 0) vs ->
    Z.land v DONE_BIT <> 0 ->
    o = Val (v, pc + Z.of_nat (List.length vs) + 1) /\
    more = [] /\
    reg_ops ev = repeat (Rd STATUS_REG_ADDR) (List.length vs + 1).
Proof.
  induction fuel as [| fuel IH]; intros st pc t o ev vs v more Hrun Hst Hpc Hreads Hvs Hv.
  - rewrite poll_loop_exit in Hrun by (right; simpl in Hpc; lia).
    injection Hrun as <- <-. destruct vs; discriminate Hreads.
  - apply poll_loop_step in Hrun; [| exact Hst | lia].
    destruct Hrun as (rc & v0 & [(Hrc & -> & ->) | (-> & msg & t' & ev' & Hmsg & Hrec & ->)]).
    + exfalso. unfold status_reads in Hreads. simpl in Hreads.
      destruct vs; injection Hreads as Hz _; contradiction.
    + assert (Hsplit : status_reads (Usleep 1000 :: PciPeek h STATUS_REG_ADDR 0 v0 :: msg ++ ev')
                       = PciPeek h STATUS_REG_ADDR 0 v0 :: status_reads ev').
      { unfold status_reads. simpl. rewrite filter_app.
        fold (status_reads msg). rewrite (status_reads_printf _ Hmsg). reflexivity. }
      assert (Hops : reg_ops (Usleep 1000 :: PciPeek h STATUS_REG_ADDR 0 v0 :: msg ++ ev')
                     = Rd STATUS_REG_ADDR :: reg_ops ev').
      { simpl. rewrite reg_ops_app, (reg_ops_printf _ Hmsg). reflexivity. }
      rewrite Hsplit in Hreads. rewrite Hops. destruct vs as [| v1 vs]; simpl in Hreads.
      * injection Hreads as -> Hmore.
        rewrite poll_loop_exit in Hrec by (left; exact Hv).
        injection Hrec as <- <-. simpl in Hmore. split; [| split].
        -- simpl. f_equal. f_equal. lia.
        -- symmetry. exact Hmore.
        -- reflexivity.
      * injection Hreads as -> Hreads. inversion_clear Hvs as [| ? ? Hv1 Hvs'].
        destruct (IH _ _ _ _ _ _ _ _ Hrec Hv1 ltac:(lia) Hreads Hvs' Hv) as (-> & -> & ->).
        split; [| split; reflexivity].
        f_equal. f_equal. simpl List.length. lia.
Qed.

Lemma stops_at_done_body (t : history) (o : outcome Empty_set) (ev : list event)
      (vs : list Z) (v : Z) (more : list event) :
  (printf "\n=== Testing Add-One Operation ===\n" [] ;;
   test_data <- step1_init_test_data ;;
   command_cycle E h test_data) t = (o, ev) ->
  status_reads (after_start ev)
  = map (fun x => PciPeek h STATUS_REG_ADDR 0 x) (vs ++ [v]) ++ more ->
  Forall (fun x => Z.land x DONE_BIT = 0) vs ->
  Z.land v DONE_BIT <> 0 ->
  more = [] /\
  ((List.length vs < 999)%nat ->
   In (completed_msg (Z.of_nat (List.length vs) + 1)) ev /\
   exists tail,
     reg_ops (after_start ev)
     = repeat (Rd STATUS_REG_ADDR) (List.length vs + 1) ++ Wr CONTROL_REG_ADDR 0 :: tail) /\
  (List.length vs = 999%nat ->
   o = Ret 1 /\ In (timeout_msg 1000) ev /\
   reg_ops (after_start ev) = repeat (Rd STATUS_REG_ADDR) 1000).
Proof.
  intros Hrun Hreads Hvs Hv.
  assert (Hne : forall l : list event,
             [] = map (fun x => PciPeek h STATUS_REG_ADDR 0 x) (vs ++ [v]) ++ l -> False).
  { intros l H. destruct vs; discriminate H. }
  apply reach_start_quiet in Hrun as [(rc & -> & Hall) | (evA & t' & ev' & d & HA & -> & Hrun)].
  { exfalso. rewrite (after_start_none _ (before_start_not_start _ Hall)) in Hreads.
    exact (Hne _ Hreads). }
  apply from_start_inv in Hrun
      as (rc6 & [(Hrc & -> & ->) | (-> & t7 & o7 & evp & tail & Hp & -> & Htail)]).
  { exfalso. rewrite (after_start_reached h rc6 evA _ HA) in Hreads. exact (Hne _ Hreads). }
  change ([?a; ?b; ?c; ?d] ++ ?l) with (a :: b :: [c; d] ++ l) in *.
  rewrite (after_start_reached h 0 evA _ HA) in *.
  assert (Htl : status_reads tail = []).
  { destruct o7 as [[st pc] | rc7 |]; [| destruct Htail as [_ ->]; reflexivity | contradiction].
    destruct (pc >=? max_polls).
    - destruct Htail as [_ ->]. reflexivity.
    - destruct Htail as (rc8 & rest & _ & Hsafe).
      exact (status_reads_none _ _ after_poll_no_status_read Hsafe). }
  rewrite !status_reads_app, Htl, app_nil_r in Hreads.
  change (status_reads [Printf "Computation started\n" [];
                        Printf "Step 7: Waiting for computation to complete\n" []])
    with (@nil event) in Hreads.
  cbn [app] in Hreads.
  destruct (poll_loop_stops_at_done _ _ _ _ _ _ _ _ _ Hp eq_refl eq_refl Hreads Hvs Hv)
    as (-> & -> & Hops).
  split; [reflexivity |].
  assert (Hreg : forall l, reg_ops ([Printf "Computation started\n" [];
                                     Printf "Step 7: Waiting for computation to complete\n" []]
                                      ++ evp ++ l)
                           = repeat (Rd STATUS_REG_ADDR) (List.length vs + 1) ++ reg_ops l).
  { intro l. rewrite !reg_ops_app, Hops. reflexivity. }
  rewrite Hreg. cbn beta iota in Htail. split.
  - intro Hlt.
    destruct (Z.geb_spec (0 + Z.of_nat (List.length vs) + 1) max_polls) as [Hge | _];
      [unfold max_polls in Hge; lia |].
    destruct Htail as (rc8 & rest & -> & _). split.
    + apply in_or_app. right. right. right. apply in_or_app. right.
      apply in_or_app. right. left. reflexivity.
    + exists (reg_ops rest). reflexivity.
  - intro Heq.
    destruct (Z.geb_spec (0 + Z.of_nat (List.length vs) + 1) max_polls) as [_ | Hlt];
      [| unfold max_polls in Hlt; lia].
    destruct Htail as [-> ->]. split; [reflexivity |]. split.
    + apply in_or_app. right. right. right. apply in_or_app. right.
      apply in_or_app. right. left. unfold timeout_msg. do 3 f_equal. lia.
    + rewrite Heq. simpl reg_ops. rewrite app_nil_r. reflexivity.
Qed.

End StopsAtDone.

(** X5.  In a run of [test_add_one_operation] whose status reads after
    the write of the start bit begin with [k - 1] successful reads without
    the done bit and then a successful read with it, that read is the last
    status read of the run.  When [k] is below 1000 the completion message
    shows [k] and the register operation after the [k] reads is the write of
    0 to Control; when [k] is 1000 the function returns 1 with the timeout
    message, and nothing follows the reads. *)
Theorem polling_stops_at_first_done (E : sdk) (h : Z) (t : history)
        (vs : list Z) (v : Z) (more : list event) :
  let (o, ev) := test_add_one_operation E h t in
  status_reads (after_start ev)
  = map (fun x => PciPeek h STATUS_REG_ADDR 0 x) (vs ++ [v]) ++ more ->
  Forall (fun x => Z.land x DONE_BIT = 0) vs ->
  Z.land v DONE_BIT <> 0 ->
  more = [] /\
  ((List.length vs < 999)%nat ->
   In (completed_msg (Z.of_nat (List.length vs) + 1)) ev /\
   exists tail,
     reg_ops (after_start ev)
     = repeat (Rd STATUS_REG_ADDR) (List.length vs + 1) ++ Wr CONTROL_REG_ADDR 0 :: tail) /\
  (List.length vs = 999%nat ->
   o = Val 1 /\ In (timeout_msg 1000) ev /\
   reg_ops (after_start ev) = repeat (Rd STATUS_REG_ADDR) 1000).
Proof.
  unfold test_add_one_operation.
  match goal with
  | |- context [call ?b t] => rewrite (call_run b t); destruct (b t) as [o ev] eqn:Hrun
  end.
  pose proof (stops_at_done_body E h t o ev vs v more Hrun) as Hbody.
  destruct o as [[] | rc |]; intros Hreads Hvs Hv;
    destruct (Hbody Hreads Hvs Hv) as (Hmore & Hlt & Heq);
    (split; [exact Hmore |]); (split; [exact Hlt |]);
    intro Hk; destruct (Heq Hk) as (Ho & Hin & Hops); try discriminate Ho.
  injection Ho as ->. auto.
Qed.

Lemma polling_stops_at_first_done_witness :
  In (completed_msg 3) (snd (test_add_one_operation (sim_sdk healthy) 0 [])).
Proof.
  pose proof (polling_stops_at_first_done (sim_sdk healthy) 0 [] [0; 0] 1 []) as H.
  set (run := test_add_one_operation (sim_sdk healthy) 0 []) in *.
  assert (Hreads : status_reads (after_start (snd run))
                   = map (fun x => PciPeek 0 STATUS_REG_ADDR 0 x) ([0; 0] ++ [1]) ++ [])
    by (vm_compute; reflexivity).
  clearbody run. destruct run as [o ev]. cbn [fst snd] in *.
  assert (Hvs : Forall (fun x => Z.land x DONE_BIT = 0) [0; 0])
    by (repeat constructor).
  assert (Hv : Z.land 1 DONE_BIT <> 0) by (vm_compute; discriminate).
  destruct (H Hreads Hvs Hv) as (_ & Hlt & _).
  assert (Hlen : (List.length [0; 0] < 999)%nat) by (simpl; lia).
  exact (proj1 (Hlt Hlen)).
Defined.

(** ** Progress lines of the polling loop *)

Lemma not_progress_in (P : event -> bool) (l : list event) (c v : Z) :
  (forall e, P e = true -> is_progress e = false) ->
  forallb P l = true -> ~ In (progress_msg c v) l.
Proof.
  intros HP Hl Hin. apply (forallb_In _ _ _ Hl) in Hin. apply HP in Hin. discriminate.
Qed.

Lemma before_start_no_progress (e : event) : before_start e = true -> is_progress e = false.
Proof. intro He. apply before_start_spec in He. tauto. Qed.

Lemma after_poll_no_progress (e : event) : after_poll e = true -> is_progress e = false.
Proof.
  unfold after_poll. intro He. apply andb_prop in He as [He _].
  apply before_start_no_progress. exact He.
Qed.

Section Progress.

Variable E : sdk.
Variable h : Z.

(** One attempt of the polling loop, with the progress line it prints. *)
Lemma poll_loop_step_msg (fuel : nat) (st pc : Z) (t : history)
      (o : outcome (Z * Z)) (ev : list event) :
  poll_loop E (S fuel) h st pc t = (o, ev) ->
  Z.land st DONE_BIT = 0 -> pc < max_polls ->
  exists rc v,
    (rc <> 0 /\ o = Ret rc /\
     ev = [Usleep 1000; PciPeek h STATUS_REG_ADDR rc v;
           Printf "ERROR: Failed to read status register during polling\n" []]) \/
    (rc = 0 /\
     exists t' ev',
       poll_loop E fuel h v (pc + 1) t' = (o, ev') /\
       ev = Usleep 1000 :: PciPeek h STATUS_REG_ADDR 0 v
              :: (if Z.rem (pc + 1) 100 =? 0 then [progress_msg (pc + 1) v] else []) ++ ev').
Proof.
  intros Hrun Hst Hpc. simpl in Hrun.
  apply Z.eqb_eq in Hst. apply Z.ltb_lt in Hpc. rewrite Hst, Hpc in Hrun. simpl in Hrun.
  unfold bind, usleep, fpga_pci_peek, when, printf, Return, ret in Hrun.
  destruct (sdk_pci_peek E (t ++ [Usleep 1000]) h STATUS_REG_ADDR) as [rc v].
  exists rc, v. unfold nonzero, neq in Hrun.
  destruct (Z.eqb_spec rc 0) as [-> | Hrc]; simpl in Hrun.
  - right. split; trivial.
    destruct (Z.rem (pc + 1) 100 =? 0); simpl in Hrun.
    + match type of Hrun with
      | context [poll_loop E fuel h v (pc + 1) ?t'] =>
          destruct (poll_loop E fuel h v (pc + 1) t') as [o' ev'] eqn:Hrec; exists t', ev'
      end.
      injection Hrun as <- <-. auto.
    + match type of Hrun with
      | context [poll_loop E fuel h v (pc + 1) ?t'] =>
          destruct (poll_loop E fuel h v (pc + 1) t') as [o' ev'] eqn:Hrec; exists t', ev'
      end.
      injection Hrun as <- <-. auto.
  - left. injection Hrun as <- <-. auto.
Qed.

(** In the loop entered at [poll_count = pc], a progress line with the
    count [c] is printed exactly when [c] is a multiple of 100 among the
    attempts whose read succeeded; it shows the value of a successful
    read. *)
Lemma poll_loop_progress (fuel : nat) :
  forall (st pc : Z) (t : history) (o : outcome (Z * Z)) (ev : list event),
    poll_loop E fuel h st pc t = (o, ev) ->
    pc + Z.of_nat fuel = max_polls ->
    forall c,
      ((exists v, In (progress_msg c v) ev) <->
       (pc < c <= pc + ok_status_reads ev /\ Z.rem c 100 = 0)) /\
      (forall v, In (progress_msg c v) ev -> In (PciPeek h STATUS_REG_ADDR 0 v) ev).
Proof.
  induction fuel as [| fuel IH]; intros st pc t o ev Hrun Hpc c.
  - rewrite poll_loop_exit in Hrun by (right; simpl in Hpc; lia).
    injection Hrun as <- <-. unfold ok_status_reads. simpl. split; [| intros v []].
    split; [intros (v & []) | lia].
  - destruct (Z.eq_dec (Z.land st DONE_BIT) 0) as [Hst | Hst].
    + apply poll_loop_step_msg in Hrun; [| exact Hst | lia].
      destruct Hrun as (rc & v0 & [(Hrc & -> & ->) | (-> & t' & ev' & Hrec & ->)]).
      * assert (Hoks : ok_status_reads [Usleep 1000; PciPeek h STATUS_REG_ADDR rc v0;
                            Printf "ERROR: Failed to read status register during polling\n" []]
                       = 0).
        { unfold ok_status_reads, status_reads, io_ok. simpl. unfold nonzero, neq.
          rewrite (proj2 (Z.eqb_neq rc 0) Hrc). reflexivity. }
        rewrite Hoks. split.
        -- split; [| lia]. intros (v & Hin). exfalso.
           destruct Hin as [Hin | [Hin | [Hin | []]]]; discriminate.
        -- intros v Hin. exfalso. destruct Hin as [Hin | [Hin | [Hin | []]]]; discriminate.
      * destruct (IH _ _ _ _ _ Hrec ltac:(lia) c) as [Hiff Hval].
        set (msg := if Z.rem (pc + 1) 100 =? 0 then [progress_msg (pc + 1) v0] else []) in *.
        assert (Hoks : ok_status_reads (Usleep 1000 :: PciPeek h STATUS_REG_ADDR 0 v0 :: msg ++ ev')
                       = 1 + ok_status_reads ev').
        { unfold ok_status_reads, status_reads. simpl. rewrite filter_app.
          assert (Hm : filter is_status_read msg = []).
          { unfold msg. destruct (Z.rem (pc + 1) 100 =? 0); reflexivity. }
          rewrite Hm. simpl. lia. }
        rewrite Hoks.
        assert (Hmsg : forall v, In (progress_msg c v) msg <->
                                 (c = pc + 1 /\ v = v0 /\ Z.rem c 100 = 0)).
        { intro v. unfold msg. destruct (Z.eqb_spec (Z.rem (pc + 1) 100) 0) as [Hr | Hr].
          - split.
            + intros [Hin | []]. injection Hin as <- <-. auto.
            + intros (-> & -> & _). left. reflexivity.
          - split; [intros [] |]. intros (-> & _ & Hr'). contradiction. }
        assert (Hin : forall v,
                   In (progress_msg c v)
                      (Usleep 1000 :: PciPeek h STATUS_REG_ADDR 0 v0 :: msg ++ ev')
                   <-> In (progress_msg c v) msg \/ In (progress_msg c v) ev').
        { intro v. split.
          - intros [H | [H | H]]; try discriminate. apply in_app_or. exact H.
          - intro H. right. right. apply in_or_app. exact H. }
        assert (Hnn : 0 <= ok_status_reads ev') by (unfold ok_status_reads; lia).
        split.
        -- split.
           ++ intros (v & Hv). apply Hin in Hv as [Hv | Hv].
              ** apply Hmsg in Hv as (-> & _ & Hr). lia.
              ** destruct (proj1 Hiff (ex_intro _ v Hv)) as [Hc Hr]. lia.
           ++ intros [Hc Hr]. destruct (Z.eq_dec c (pc + 1)) as [Heq | Hne].
              ** exists v0. apply Hin. left. apply Hmsg. auto.
              ** destruct (proj2 Hiff) as (v & Hv); [lia |].
                 exists v. apply Hin. right. exact Hv.
        -- intros v Hv. apply Hin in Hv as [Hv | Hv].
           ++ apply Hmsg in Hv as (_ & -> & _). right. left. reflexivity.
           ++ right. right. apply in_or_app. right. exact (Hval v Hv).
    + rewrite poll_loop_exit in Hrun by (left; exact Hst).
      injection Hrun as <- <-. unfold ok_status_reads. simpl. split; [| intros v []].
      split; [intros (v & []) | lia].
Qed.

End Progress.

Lemma ok_status_reads_app (l1 l2 : list event) :
  ok_status_reads (l1 ++ l2) = ok_status_reads l1 + ok_status_reads l2.
Proof.
  unfold ok_status_reads. rewrite status_reads_app, filter_app, length_app. lia.
Qed.

Lemma ok_status_reads_none (P : event -> bool) (l : list event) :
  (forall e, P e = true -> is_status_read e = false) ->
  forallb P l = true -> ok_status_reads l = 0.
Proof.
  intros HP Hl. unfold ok_status_reads. rewrite (status_reads_none P l HP Hl). reflexivity.
Qed.

Lemma progress_body (E : sdk) (h : Z) (t : history) (o : outcome Empty_set)
      (ev : list event) (c : Z) :
  (printf "\n=== Testing Add-One Operation ===\n" [] ;;
   test_data <- step1_init_test_data ;;
   command_cycle E h test_data) t = (o, ev) ->
  ((exists v, In (progress_msg c v) ev) <-> (1 <= c <= polls_ok ev /\ Z.rem c 100 = 0)) /\
  (forall v, In (progress_msg c v) ev -> In (PciPeek h STATUS_REG_ADDR 0 v) (after_start ev)).
Proof.
  intro Hrun. unfold polls_ok.
  apply reach_start_quiet in Hrun as [(rc & -> & Hall) | (evA & t' & ev' & d & HA & -> & Hrun)].
  { rewrite (after_start_none _ (before_start_not_start _ Hall)).
    change (ok_status_reads []) with 0. split.
    - split; [| lia]. intros (v & Hin).
      destruct (not_progress_in _ _ c v before_start_no_progress Hall Hin).
    - intros v Hin. destruct (not_progress_in _ _ c v before_start_no_progress Hall Hin). }
  assert (HnA : forall v, ~ In (progress_msg c v) evA).
  { intro v. exact (not_progress_in _ _ c v before_start_no_progress HA). }
  apply from_start_inv in Hrun
      as (rc6 & [(Hrc & -> & ->) | (-> & t7 & o7 & evp & tail & Hp & -> & Htail)]).
  { rewrite (after_start_reached h rc6 evA _ HA).
    change (ok_status_reads [Printf "ERROR: Failed to start computation\n" []]) with 0.
    assert (Hno : forall v,
               ~ In (progress_msg c v)
                    (evA ++ [Printf "Step 6: Starting Add-One computation\n" [];
                             PciPoke h CONTROL_REG_ADDR START_BIT rc6;
                             Printf "ERROR: Failed to start computation\n" []])).
    { intros v Hin. apply in_app_or in Hin as [Hin | Hin]; [exact (HnA v Hin) |].
      destruct Hin as [Hin | [Hin | [Hin | []]]]; discriminate. }
    split.
    - split; [| lia]. intros (v & Hin). destruct (Hno v Hin).
    - intros v Hin. destruct (Hno v Hin). }
  change ([?a; ?b; ?c; ?d] ++ ?l) with (a :: b :: [c; d] ++ l).
  rewrite (after_start_reached h 0 evA _ HA).
  assert (Htl : (forall v, ~ In (progress_msg c v) tail) /\ ok_status_reads tail = 0).
  { destruct o7 as [[st pc] | rc7 |];
      [| destruct Htail as [_ ->]; split; [intros v [] | reflexivity] | contradiction].
    destruct (pc >=? max_polls).
    - destruct Htail as [_ ->]. split; [| reflexivity].
      intros v [Hin | []]. discriminate.
    - destruct Htail as (rc8 & rest & _ & Hsafe). split.
      + intro v. exact (not_progress_in _ _ c v after_poll_no_progress Hsafe).
      + exact (ok_status_reads_none _ _ after_poll_no_status_read Hsafe). }
  destruct Htl as [Hnt Hot].
  rewrite !ok_status_reads_app, Hot.
  change (ok_status_reads [Printf "Computation started\n" [];
                           Printf "Step 7: Waiting for computation to complete\n" []])
    with 0.
  destruct (poll_loop_progress E h _ _ _ _ _ _ Hp eq_refl c) as [Hiff Hval].
  assert (Hin : forall v,
             In (progress_msg c v)
                (evA ++ Printf "Step 6: Starting Add-One computation\n" []
                   :: PciPoke h CONTROL_REG_ADDR START_BIT 0
                   :: [Printf "Computation started\n" [];
                       Printf "Step 7: Waiting for computation to complete\n" []]
                   ++ evp ++ tail)
             <-> In (progress_msg c v) evp).
  { intro v. split.
    - intro Hin. apply in_app_or in Hin as [Hin | Hin]; [destruct (HnA v Hin) |].
      destruct Hin as [Hin | [Hin | Hin]]; try discriminate.
      apply in_app_or in Hin as [Hin | Hin].
      { exfalso. destruct Hin as [Hin | [Hin | []]]; discriminate. }
      apply in_app_or in Hin as [Hin | Hin]; [exact Hin | destruct (Hnt v Hin)].
    - intro Hin. apply in_or_app. right. right. right.
      apply in_or_app. right. apply in_or_app. left. exact Hin. }
  split.
  - split.
    + intros (v & Hv). apply Hin in Hv. destruct (proj1 Hiff (ex_intro _ v Hv)). lia.
    + intros [Hc Hr]. destruct (proj2 Hiff) as (v & Hv); [lia |].
      exists v. apply Hin. exact Hv.
  - intros v Hv. apply Hin in Hv. apply in_or_app. right. apply in_or_app. left.
    exact (Hval v Hv).
Qed.

(** X6.  The progress lines of a run of [test_add_one_operation]: a line
    with the count [c] is printed exactly when [c] is a multiple of 100
    and at least [c] reads of the Status register succeeded after the write
    of the start bit; the status on the line is the value of one of these
    reads. *)
Theorem progress_every_hundred_polls (E : sdk) (h : Z) (t : history) (c : Z) :
  let (o, ev) := test_add_one_operation E h t in
  ((exists v, In (progress_msg c v) ev) <-> (1 <= c <= polls_ok ev /\ Z.rem c 100 = 0)) /\
  (forall v, In (progress_msg c v) ev -> In (PciPeek h STATUS_REG_ADDR 0 v) (after_start ev)).
Proof.
  unfold test_add_one_operation.
  match goal with
  | |- context [call ?b t] => rewrite (call_run b t); destruct (b t) as [o ev] eqn:Hrun
  end.
  pose proof (progress_body E h t o ev c Hrun) as Hbody.
  destruct o as [[] | rc |]; exact Hbody.
Qed.

Lemma progress_every_hundred_polls_witness :
  exists v, In (progress_msg 1000 v) (snd (test_add_one_operation (sim_sdk never_done) 0 [])).
Proof.
  pose proof (progress_every_hundred_polls (sim_sdk never_done) 0 [] 1000) as H.
  set (run := test_add_one_operation (sim_sdk never_done) 0 []) in *.
  assert (Hp : polls_ok (snd run) = 1000) by (vm_compute; reflexivity).
  clearbody run. destruct run as [o ev]. cbn [fst snd] in *.
  apply (proj2 (proj1 H)). rewrite Hp. split; [lia | reflexivity].
Defined.

(** ** A run passes exactly when the outputs read are the inputs plus one *)

Lemma In_reg_ops_Rd (ev : list event) (a : Z) :
  In (Rd a) (reg_ops ev) -> exists h rc v, In (PciPeek h a rc v) ev.
Proof.
  induction ev as [| e ev IH]; simpl; [intros [] |].
  destruct e; simpl; intro H;
    try (destruct (IH H) as (h' & rc' & v' & Hin); exists h', rc', v'; auto; fail).
  - destruct H as [H | H]; [discriminate |].
    destruct (IH H) as (h' & rc' & v' & Hin). exists h', rc', v'. auto.
  - destruct H as [H | H].
    + injection H as ->. do 3 eexists. left. reflexivity.
    + destruct (IH H) as (h' & rc' & v' & Hin). exists h', rc', v'. auto.
Qed.

Section Pass.

Variable E : sdk.
Variable h : Z.

Lemma step9_runs :
  runs (step9_read_outputs E h) (one (map (fun i => Rd (OUTPUT_BASE_ADDR + i * 4)) slots)).
Proof.
  eapply runs_conseq; [runs_auto |].
  intros ops H. flatten_ops. reflexivity.
Qed.

(** The command cycle on the operands [d] returns 0 exactly when the run
    holds, for every slot, a successful read of the output register with
    the operand plus one modulo 2^32. *)
Lemma cycle_pass_iff (d : list Z) (t : history) (o : outcome Empty_set) (ev : list event) :
  command_cycle E h d t = (o, ev) ->
  o = Ret 0 <->
  (forall i, 0 <= i < 8 ->
             In (PciPeek h (OUTPUT_BASE_ADDR + i * 4) 0 ((aget d i + 1) mod 2 ^ 32)) ev).
Proof.
  intro Hrun.
  pose proof (command_cycle_finishes E h d t) as Hfin. rewrite Hrun in Hfin.
  apply reach_outputs in Hrun as [(rc & -> & Hall) | (evA & t' & ev' & HA & -> & Hrun)].
  { split.
    - intro Ho. injection Ho as ->. exfalso.
      destruct Hfin as (ops & (k & _ & ->) & _ & Hops). specialize (Hops eq_refl).
      assert (Hin : In (Rd (OUTPUT_BASE_ADDR + 0 * 4)) (reg_ops ev)).
      { rewrite Hops. unfold code_order. do 7 (apply in_or_app; right). left. reflexivity. }
      apply In_reg_ops_Rd in Hin as (h' & rc' & v' & Hin).
      exact (before_outputs_no_output_read _ _ 0 _ _ ltac:(lia) Hall Hin).
    - intro Hreads. exfalso.
      exact (before_outputs_no_output_read _ _ 0 _ _ ltac:(lia) Hall (Hreads 0 ltac:(lia))). }
  clear Hfin.
  pose proof (step9_runs t') as Hr9.
  apply bind_inv in Hrun as [(od & ev9 & ev10 & H9 & H10 & ->) | [(rc & H9 & ->) | (H9 & ->)]];
    rewrite H9 in Hr9.
  - (* all outputs read; step 10 runs on them *)
    pose proof (step9_all_read E h _ _ _ H9) as Hall9.
    apply step9_reads in H9.
    assert (Hpr : forallb is_printf ev10 = true).
    { destruct (step10_only_printf d od (t' ++ ev9)) as [_ Hp].
      rewrite H10 in Hp. exact Hp. }
    rewrite step10_run in H10. injection H10 as <- _.
    pose proof (count_correct_all d od) as Hcc. split.
    + intros Ho i Hi.
      destruct (Z.eqb_spec (count_correct d od) NUM_REGISTERS) as [Hc | Hc];
        [| discriminate Ho].
      rewrite <- (proj1 Hcc Hc i Hi).
      apply in_or_app. right. apply in_or_app. left. exact (Hall9 i Hi).
    + intro Hreads.
      assert (Hc : count_correct d od = NUM_REGISTERS).
      { apply Hcc. intros i Hi. specialize (Hreads i Hi).
        apply in_app_or in Hreads as [Hin | Hin];
          [destruct (before_outputs_no_output_read _ _ _ _ _ Hi HA Hin) |].
        apply in_app_or in Hin as [Hin | Hin].
        - symmetry. exact (H9 _ _ Hi Hin).
        - apply (forallb_In _ _ _ Hpr) in Hin. discriminate. }
      rewrite Hc. reflexivity.
  - (* a read of an output failed *)
    apply step9_reads in H9. destruct Hr9 as [Hrc _]. split.
    + intro Ho. injection Ho as ->. contradiction.
    + intro Hreads. exfalso. destruct H9 as (j & Hj & Hnone). specialize (Hreads j Hj).
      apply in_app_or in Hreads as [Hin | Hin].
      * exact (before_outputs_no_output_read _ _ _ _ _ Hj HA Hin).
      * exact (Hnone _ Hin).
  - contradiction.
Qed.

End Pass.

Lemma step1_only_printf : safe is_printf step1_init_test_data.
Proof. safe_auto. Qed.

Lemma incremented_operands (i : Z) :
  0 <= i < 8 -> (aget operands i + 1) mod 2 ^ 32 = 0x10000001 + i.
Proof.
  intro Hi.
  assert (Hc : i = 0 \/ i = 1 \/ i = 2 \/ i = 3 \/ i = 4 \/ i = 5 \/ i = 6 \/ i = 7) by lia.
  destruct Hc as [-> | [-> | [-> | [-> | [-> | [-> | [-> | ->]]]]]]]; reflexivity.
Qed.

(** X7.  [test_add_one_operation] returns 0 exactly when its run holds,
    for each of the 8 slots, a successful read of the output register with
    the value of the operand plus one, 0x10000001 + i: no path returns 0
    without having read every incremented output, and a run that read them
    all returns 0. *)
Theorem passes_iff_outputs_incremented (E : sdk) (h : Z) (t : history) :
  let (o, ev) := test_add_one_operation E h t in
  o = Val 0 <->
  (forall i, 0 <= i < 8 ->
             In (PciPeek h (OUTPUT_BASE_ADDR + i * 4) 0 (0x10000001 + i)) ev).
Proof.
  unfold test_add_one_operation.
  match goal with
  | |- context [call ?b t] => rewrite (call_run b t); destruct (b t) as [o ev] eqn:Hrun
  end.
  apply bind_inv in Hrun as [(a & ev0 & ev' & H0 & Hrun & ->) | [(rc & H0 & _) | (H0 & _)]];
    [| discriminate H0 | discriminate H0].
  injection H0 as _ <-.
  destruct (step1_run (t ++ [Printf "\n=== Testing Add-One Operation ===\n" []]))
    as (ev1 & H1 & Hops1).
  destruct (step1_only_printf (t ++ [Printf "\n=== Testing Add-One Operation ===\n" []]))
    as [_ Hp1].
  rewrite H1 in Hp1. simpl in Hp1.
  apply bind_inv in Hrun as [(a1 & ev1' & ev2 & H1' & Hrun & ->) | [(rc & H1' & _) | (H1' & _)]];
    rewrite H1 in H1'; try discriminate H1'.
  injection H1' as <- <-.
  pose proof (command_cycle_finishes E h operands
                ((t ++ [Printf "\n=== Testing Add-One Operation ===\n" []]) ++ ev1)) as Hfin.
  rewrite Hrun in Hfin.
  apply cycle_pass_iff in Hrun.
  assert (Hev : forall i v,
             In (PciPeek h (OUTPUT_BASE_ADDR + i * 4) 0 v)
                ([Printf "\n=== Testing Add-One Operation ===\n" []] ++ ev1 ++ ev2)
             <-> In (PciPeek h (OUTPUT_BASE_ADDR + i * 4) 0 v) ev2).
  { intros i v. split.
    - intro Hin. apply in_app_or in Hin. destruct Hin as [[Hin | []] | Hin]; [discriminate |].
      apply in_app_or in Hin. destruct Hin as [Hin | Hin].
      + apply (forallb_In _ _ _ Hp1) in Hin. discriminate.
      + exact Hin.
    - intro Hin. apply in_or_app. right. apply in_or_app. right. exact Hin. }
  destruct o as [[] | rc |]; [| contradiction]. split.
  - intros Ho i Hi. injection Ho as ->. apply Hev.
    rewrite <- (incremented_operands i Hi). apply Hrun; trivial.
  - intro Hreads. f_equal. assert (Ho : @Ret Empty_set rc = Ret 0); [| congruence].
    apply Hrun. intros i Hi. rewrite (incremented_operands i Hi). apply Hev, Hreads, Hi.
Qed.

(** ** The register map and the handle *)

Ltac safe_step_by tac :=
  lazymatch goal with
  | |- safe _ (bind _ _) => apply safe_bind; [| intros ?]
  | |- safe _ (ret _) => apply safe_ret
  | |- safe _ (Return _) => apply safe_Return
  | |- safe _ (call _) => apply safe_call
  | |- safe _ (when _ _) => apply safe_when
  | |- safe _ (printf _ _) => apply safe_printf; tac
  | |- safe _ (usleep _) => apply safe_usleep; tac
  | |- safe _ (fpga_pci_poke _ _ _ _) => apply safe_poke; intros; tac
  | |- safe _ (fpga_pci_peek _ _ _) => apply safe_peek; intros; tac
  | |- safe _ (for_loop O _ _ _) => apply safe_for_loop_O
  | |- safe _ (for_loop (S _) _ _ _) => apply safe_for_loop_S; [| intros ?]
  | |- safe _ (poll_loop _ _ _ _ _) =>
      apply safe_poll_loop;
      [tac | intros; tac | tac | intros; tac | vm_compute; discriminate]
  | |- safe _ (match ?x with (_, _) => _ end) => destruct x
  | |- safe _ (if ?c then _ else _) => destruct c
  | |- safe _ (let _ := _ in _) => cbv zeta
  | |- safe _ ?m => let f := head_of m in unfold f
  end.

Ltac safe_auto_by tac :=
  repeat (change (Z.to_nat NUM_REGISTERS) with 8%nat; safe_step_by tac).

Section RegisterMap.

Variable E : sdk.
Variable h : Z.

Lemma command_cycle_on_handle (d : list Z) : safe (on_handle h) (command_cycle E h d).
Proof.
  unfold command_cycle, after_readback, from_start.
  safe_auto_by ltac:(first [reflexivity | apply Z.eqb_refl]).
Qed.

Lemma command_cycle_in_register_map :
  safe in_register_map (command_cycle E h operands).
Proof.
  unfold command_cycle, after_readback, from_start. safe_auto.
Qed.

End RegisterMap.

(** A run of [test_add_one_operation]: the banner, the messages of step
    1, and a run of the command cycle on the operands of step 1, whose
    code is the result. *)
Lemma test_add_one_operation_run (E : sdk) (h : Z) (t : history) :
  exists rc ev1 ev2 t',
    test_add_one_operation E h t
    = (Val rc, Printf "\n=== Testing Add-One Operation ===\n" [] :: ev1 ++ ev2) /\
    forallb is_printf ev1 = true /\
    command_cycle E h operands t' = (Ret rc, ev2).
Proof.
  unfold test_add_one_operation.
  match goal with
  | |- context [call ?b t] => rewrite (call_run b t); destruct (b t) as [o ev] eqn:Hrun
  end.
  apply bind_inv in Hrun as [(a & ev0 & ev' & H0 & Hrun & ->) | [(rc & H0 & _) | (H0 & _)]];
    [| discriminate H0 | discriminate H0].
  injection H0 as _ <-.
  destruct (step1_run (t ++ [Printf "\n=== Testing Add-One Operation ===\n" []]))
    as (ev1 & H1 & Hops1).
  destruct (step1_only_printf (t ++ [Printf "\n=== Testing Add-One Operation ===\n" []]))
    as [_ Hp1].
  rewrite H1 in Hp1. simpl in Hp1.
  apply bind_inv in Hrun as [(a1 & ev1' & ev2 & H1' & Hrun & ->) | [(rc & H1' & _) | (H1' & _)]];
    rewrite H1 in H1'; try discriminate H1'.
  injection H1' as <- <-.
  pose proof (command_cycle_finishes E h operands
                ((t ++ [Printf "\n=== Testing Add-One Operation ===\n" []]) ++ ev1)) as Hfin.
  rewrite Hrun in Hfin. destruct o as [[] | rc |]; [| contradiction].
  exists rc, ev1, ev2. eexists. split; [reflexivity |]. split; [exact Hp1 | exact Hrun].
Qed.

Lemma test_add_one_operation_events (E : sdk) (h : Z) (P : event -> bool) :
  (forall fmt args, P (Printf fmt args) = true) ->
  safe P (command_cycle E h operands) ->
  forall t, forallb P (snd (test_add_one_operation E h t)) = true.
Proof.
  intros Hpr Hsafe t.
  destruct (test_add_one_operation_run E h t) as (rc & ev1 & ev2 & t' & -> & Hp1 & Hrun).
  destruct (Hsafe t') as [_ H2]. rewrite Hrun in H2. simpl in H2.
  cbn [snd forallb]. rewrite Hpr, forallb_app, H2, andb_true_r. simpl.
  revert Hp1. apply forallb_impl. intros e He. destruct e; try discriminate. apply Hpr.
Qed.

Lemma slot_addr_spec (base a : Z) :
  slot_addr base a = true -> exists i, 0 <= i < 8 /\ a = base + i * 4.
Proof.
  unfold slot_addr. rewrite existsb_exists. intros (i & Hin & Ha).
  apply Z.eqb_eq in Ha. exists i. split; [| exact Ha].
  unfold slots in Hin. simpl in Hin. lia.
Qed.

Lemma operand_write_spec (a v : Z) :
  operand_write a v = true ->
  exists i, 0 <= i < 8 /\ a = INPUT_BASE_ADDR + i * 4 /\ v = 0x10000000 + i.
Proof.
  unfold operand_write. rewrite existsb_exists. intros (i & Hin & Ha).
  apply andb_prop in Ha as [Ha Hv]. apply Z.eqb_eq in Ha, Hv.
  exists i. split; [| auto]. unfold slots in Hin. simpl in Hin. lia.
Qed.

(** The register accesses of a run of [test_add_one_operation], in
    words: each goes through the handle it was given; a write stores the
    operand of a slot in its input register, or 0 or the start bit in
    Control; a read is of an input slot, an output slot or Status. *)
Lemma test_add_one_operation_accesses (E : sdk) (h : Z) (t : history) :
  let ev := snd (test_add_one_operation E h t) in
  (forall h' a v rc, In (PciPoke h' a v rc) ev ->
     h' = h /\
     ((exists i, 0 <= i < 8 /\ a = INPUT_BASE_ADDR + i * 4 /\ v = 0x10000000 + i) \/
      (a = CONTROL_REG_ADDR /\ (v = 0 \/ v = START_BIT)))) /\
  (forall h' a rc v, In (PciPeek h' a rc v) ev ->
     h' = h /\
     ((exists i, 0 <= i < 8 /\
                 (a = INPUT_BASE_ADDR + i * 4 \/ a = OUTPUT_BASE_ADDR + i * 4)) \/
      a = STATUS_REG_ADDR)) /\
  (forall e, In e ev -> is_pci e = true -> is_access e = true).
Proof.
  intro ev.
  pose proof (test_add_one_operation_events E h (on_handle h) (fun _ _ => eq_refl)
                (command_cycle_on_handle E h operands) t) as Hh.
  pose proof (test_add_one_operation_events E h in_register_map (fun _ _ => eq_refl)
                (command_cycle_in_register_map E h) t) as Hm.
  fold ev in Hh, Hm. split; [| split].
  - intros h' a v rc Hin.
    pose proof (forallb_In _ _ _ Hh Hin) as H1. pose proof (forallb_In _ _ _ Hm Hin) as H2.
    simpl in H1, H2. apply Z.eqb_eq in H1. split; [exact H1 |].
    apply orb_prop in H2 as [H2 | H2].
    + left. apply operand_write_spec. exact H2.
    + right. apply andb_prop in H2 as [Ha Hv]. apply Z.eqb_eq in Ha.
      split; [exact Ha |]. apply orb_prop in Hv as [Hv | Hv]; apply Z.eqb_eq in Hv; auto.
  - intros h' a rc v Hin.
    pose proof (forallb_In _ _ _ Hh Hin) as H1. pose proof (forallb_In _ _ _ Hm Hin) as H2.
    simpl in H1, H2. apply Z.eqb_eq in H1. split; [exact H1 |].
    apply orb_prop in H2 as [H2 | H2]; [apply orb_prop in H2 as [H2 | H2] |].
    + left. apply slot_addr_spec in H2 as (i & Hi & Ha). exists i. auto.
    + left. apply slot_addr_spec in H2 as (i & Hi & Ha). exists i. auto.
    + right. apply Z.eqb_eq. exact H2.
  - intros e Hin Hpci. pose proof (forallb_In _ _ _ Hm Hin) as H2.
    destruct e; try discriminate; reflexivity.
Qed.

(** ** The session: attach, cycle, detach *)

Lemma test_add_one_operation_cycle_events (E : sdk) (h : Z) :
  safe cycle_event (test_add_one_operation E h).
Proof. safe_auto. Qed.

(** The runs of [peek_poke_example], by what the attach answers. *)
Lemma peek_poke_example_cases (E : sdk) (slot pf bar : Z) (t : history) :
  exists rc_a h,
    (rc_a <> 0 /\
     peek_poke_example E slot pf bar t =
     (Val rc_a,
      [attach_banner; PciAttach slot pf bar 0 rc_a h;
       Printf "ERROR: Unable to attach to the AFI on slot id %d, pf id %d, bar id %d\n"
              [AInt slot; AInt pf; AInt bar]])) \/
    (rc_a = 0 /\
     exists rc_c ev_c,
       test_add_one_operation E h (attached t slot pf bar h) = (Val rc_c, ev_c) /\
       forallb cycle_event ev_c = true /\
       ((0 <= h /\
         exists rc_d,
           peek_poke_example E slot pf bar t =
           (Val rc_d,
            [attach_banner; PciAttach slot pf bar 0 0 h;
             Printf "PCI BAR attached successfully\n" []]
              ++ ev_c ++ cycle_failed_msg rc_c ++ [PciDetach h rc_d; detach_msg rc_d])) \/
        (h < 0 /\
         peek_poke_example E slot pf bar t =
         (Val rc_c,
          [attach_banner; PciAttach slot pf bar 0 0 h;
           Printf "PCI BAR attached successfully\n" []]
            ++ ev_c ++ cycle_failed_msg rc_c)))).
Proof.
  destruct (sdk_pci_attach E (t ++ [attach_banner]) slot pf bar 0) as [rc h] eqn:Ha.
  exists rc, h. destruct (Z.eq_dec rc 0) as [-> | Hrc].
  - right. split; [reflexivity |].
    destruct (test_add_one_operation_returns E h (attached t slot pf bar h)) as [rc_c Hret].
    destruct (test_add_one_operation_cycle_events E h (attached t slot pf bar h)) as [_ Hce].
    destruct (test_add_one_operation E h (attached t slot pf bar h)) as [o_c ev_c] eqn:Hc.
    simpl in Hret, Hce. subst o_c. exists rc_c, ev_c. split; [reflexivity |].
    split; [exact Hce |].
    rewrite (peek_poke_example_attached E slot pf bar t h rc_c ev_c Ha Hc).
    destruct (Z.geb_spec h 0) as [Hh | Hh].
    + left. split; [lia |]. eexists. reflexivity.
    + right. split; [lia | reflexivity].
  - left. split; [exact Hrc |].
    exact (peek_poke_example_attach_failed E slot pf bar t rc h Ha Hrc).
Qed.

Lemma cycle_failed_msg_none (rc : Z) (e : event) :
  In e (cycle_failed_msg rc) -> e = Printf "ERROR: Add-One operation test failed\n" [] /\ rc <> 0.
Proof.
  unfold cycle_failed_msg, nonzero, neq.
  destruct (Z.eqb_spec rc 0) as [Hz | Hnz]; simpl; [intros [] |].
  intros [<- | []]. auto.
Qed.

(** In a run with a successful attach, an SDK call other than the attach
    and the detach is one of the command cycle. *)
Lemma session_inner (slot pf bar h rc_c : Z) (ev_c tail : list event) (e : event) :
  In e ([attach_banner; PciAttach slot pf bar 0 0 h;
         Printf "PCI BAR attached successfully\n" []]
          ++ ev_c ++ cycle_failed_msg rc_c ++ tail) ->
  is_access e = true ->
  In e ev_c \/ In e tail.
Proof.
  intros Hin He. apply in_app_or in Hin as [Hin | Hin].
  { exfalso. destruct Hin as [<- | [<- | [<- | []]]]; discriminate. }
  apply in_app_or in Hin as [Hin | Hin]; [left; exact Hin |].
  apply in_app_or in Hin as [Hin | Hin]; [| right; exact Hin].
  exfalso. apply cycle_failed_msg_none in Hin as [-> _]. discriminate.
Qed.

(** X8.  In every run of [peek_poke_example], each register access goes
    through the handle that a successful attach of the run returned, and
    so does the detach, which is made only for a handle that is not
    negative.  A write stores the operand 0x10000000 + i in input slot i, or
    0 or the start bit in Control; a read is of an input slot, of an output
    slot or of Status: the Output zone and Status are never written, and
    Control is never read. *)
Theorem accesses_stay_in_session_and_map (E : sdk) (slot pf bar : Z) (t : history) :
  let (o, ev) := peek_poke_example E slot pf bar t in
  (forall h a v rc, In (PciPoke h a v rc) ev ->
     In (PciAttach slot pf bar 0 0 h) ev /\
     ((exists i, 0 <= i < 8 /\ a = INPUT_BASE_ADDR + i * 4 /\ v = 0x10000000 + i) \/
      (a = CONTROL_REG_ADDR /\ (v = 0 \/ v = START_BIT)))) /\
  (forall h a rc v, In (PciPeek h a rc v) ev ->
     In (PciAttach slot pf bar 0 0 h) ev /\
     ((exists i, 0 <= i < 8 /\
                 (a = INPUT_BASE_ADDR + i * 4 \/ a = OUTPUT_BASE_ADDR + i * 4)) \/
      a = STATUS_REG_ADDR)) /\
  (forall h rc, In (PciDetach h rc) ev ->
     In (PciAttach slot pf bar 0 0 h) ev /\ 0 <= h).
Proof.
  destruct (peek_poke_example_cases E slot pf bar t)
    as (rc_a & h & [(Hrc & ->) | (-> & rc_c & ev_c & Hc & Hce & Hrun)]).
  { split; [| split]; intros; exfalso;
      match goal with H : In _ _ |- _ => destruct H as [H | [H | [H | []]]]; discriminate end. }
  destruct (test_add_one_operation_accesses E h (attached t slot pf bar h))
    as (Hpoke & Hpeek & _).
  rewrite Hc in Hpoke, Hpeek. cbn [snd] in Hpoke, Hpeek.
  assert (Hcyc : forall h' r, ~ In (PciDetach h' r) ev_c).
  { intros h' r Hin. apply (forallb_In _ _ _ Hce) in Hin. discriminate. }
  destruct Hrun as [(Hh & rc_d & ->) | (Hh & ->)].
  - assert (Hatt : In (PciAttach slot pf bar 0 0 h)
                      ([attach_banner; PciAttach slot pf bar 0 0 h;
                        Printf "PCI BAR attached successfully\n" []]
                         ++ ev_c ++ cycle_failed_msg rc_c
                         ++ [PciDetach h rc_d; detach_msg rc_d])).
    { right. left. reflexivity. }
    split; [| split].
    + intros h' a v rc Hin. apply session_inner in Hin as [Hin | Hin]; [| | reflexivity].
      * destruct (Hpoke _ _ _ _ Hin) as [-> Hmap]. auto.
      * exfalso. destruct Hin as [Hin | [Hin | []]]; [discriminate |].
        unfold detach_msg in Hin. destruct (nonzero rc_d); discriminate.
    + intros h' a rc v Hin. apply session_inner in Hin as [Hin | Hin]; [| | reflexivity].
      * destruct (Hpeek _ _ _ _ Hin) as [-> Hmap]. auto.
      * exfalso. destruct Hin as [Hin | [Hin | []]]; [discriminate |].
        unfold detach_msg in Hin. destruct (nonzero rc_d); discriminate.
    + intros h' r Hin. apply in_app_or in Hin as [Hin | Hin].
      { exfalso. destruct Hin as [Hin | [Hin | [Hin | []]]]; discriminate. }
      apply in_app_or in Hin as [Hin | Hin]; [destruct (Hcyc _ _ Hin) |].
      apply in_app_or in Hin as [Hin | Hin].
      { exfalso. apply cycle_failed_msg_none in Hin as [Hin _]. discriminate. }
      destruct Hin as [Hin | [Hin | []]].
      * injection Hin as <- _. auto.
      * exfalso. unfold detach_msg in Hin. destruct (nonzero rc_d); discriminate.
  - assert (Hatt : In (PciAttach slot pf bar 0 0 h)
                      ([attach_banner; PciAttach slot pf bar 0 0 h;
                        Printf "PCI BAR attached successfully\n" []]
                         ++ ev_c ++ cycle_failed_msg rc_c)).
    { right. left. reflexivity. }
    rewrite <- (app_nil_r (cycle_failed_msg rc_c)) in *.
    split; [| split].
    + intros h' a v rc Hin. apply session_inner in Hin as [Hin | []]; [| reflexivity].
      destruct (Hpoke _ _ _ _ Hin) as [-> Hmap]. auto.
    + intros h' a rc v Hin. apply session_inner in Hin as [Hin | []]; [| reflexivity].
      destruct (Hpeek _ _ _ _ Hin) as [-> Hmap]. auto.
    + intros h' r Hin. exfalso. apply in_app_or in Hin as [Hin | Hin].
      { destruct Hin as [Hin | [Hin | [Hin | []]]]; discriminate. }
      apply in_app_or in Hin as [Hin | Hin]; [destruct (Hcyc _ _ Hin) |].
      apply in_app_or in Hin as [Hin | []].
      apply cycle_failed_msg_none in Hin as [Hin _]. discriminate.
Qed.

Lemma accesses_stay_in_session_and_map_witness :
  In (PciAttach 0 0 0 0 0 0) (snd (peek_poke_example (sim_sdk healthy) 0 0 0 [])).
Proof.
  pose proof (accesses_stay_in_session_and_map (sim_sdk healthy) 0 0 0 []) as H.
  set (run := peek_poke_example (sim_sdk healthy) 0 0 0 []) in *.
  assert (Hstart : existsb (poke_is 0 CONTROL_REG_ADDR START_BIT 0) (snd run) = true)
    by (vm_compute; reflexivity).
  clearbody run. destruct run as [o ev]. cbn [fst snd] in *.
  apply poke_is_In in Hstart.
  exact (proj1 (proj1 H _ _ _ _ Hstart)).
Defined.

Lemma cycle_event_not_failed_msg (l : list event) :
  forallb cycle_event l = true ->
  ~ In (Printf "ERROR: Add-One operation test failed\n" []) l.
Proof. intros Hl Hin. apply (forallb_In _ _ _ Hl) in Hin. discriminate. Qed.

(** X9.  The value that [peek_poke_example] returns, on every path.  When
    the attach fails it is the code of the attach, and no register is
    accessed.  When the attach succeeds the command cycle runs; its
    failure is reported by a message, and then: with a handle that is not
    negative the detach is made and the function returns the code of the
    detach; with a negative handle no detach is made and the function
    returns the code of the cycle. *)
Theorem peek_poke_example_result (E : sdk) (slot pf bar : Z) (t : history) :
  let (o, ev) := peek_poke_example E slot pf bar t in
  exists rc_a h,
    In (PciAttach slot pf bar 0 rc_a h) ev /\
    (rc_a <> 0 -> o = Val rc_a /\ forall e, In e ev -> is_access e = false) /\
    (rc_a = 0 ->
     exists rc_c,
       fst (test_add_one_operation E h (attached t slot pf bar h)) = Val rc_c /\
       (In (Printf "ERROR: Add-One operation test failed\n" []) ev <-> rc_c <> 0) /\
       (0 <= h ->
        exists rc_d, In (PciDetach h rc_d) ev /\ In (detach_msg rc_d) ev /\ o = Val rc_d) /\
       (h < 0 -> (forall e, In e ev -> is_detach e = false) /\ o = Val rc_c)).
Proof.
  destruct (peek_poke_example_cases E slot pf bar t)
    as (rc_a & h & [(Hrc & ->) | (-> & rc_c & ev_c & Hc & Hce & Hrun)]).
  { exists rc_a, h. split; [right; left; reflexivity |]. split; [| contradiction].
    intros _. split; [reflexivity |].
    intros e [<- | [<- | [<- | []]]]; reflexivity. }
  assert (Hmsg : forall tail,
             ~ In (Printf "ERROR: Add-One operation test failed\n" []) tail ->
             In (Printf "ERROR: Add-One operation test failed\n" [])
                ([attach_banner; PciAttach slot pf bar 0 0 h;
                  Printf "PCI BAR attached successfully\n" []]
                   ++ ev_c ++ cycle_failed_msg rc_c ++ tail) <-> rc_c <> 0).
  { intros tail Htail. split.
    - intro Hin. apply in_app_or in Hin as [Hin | Hin].
      { exfalso. destruct Hin as [Hin | [Hin | [Hin | []]]]; discriminate. }
      apply in_app_or in Hin as [Hin | Hin];
        [destruct (cycle_event_not_failed_msg _ Hce Hin) |].
      apply in_app_or in Hin as [Hin | Hin]; [| contradiction].
      apply cycle_failed_msg_none in Hin. tauto.
    - intro Hnz. apply in_or_app. right. apply in_or_app. right. apply in_or_app. left.
      unfold cycle_failed_msg, nonzero, neq. rewrite (proj2 (Z.eqb_neq rc_c 0) Hnz).
      left. reflexivity. }
  destruct Hrun as [(Hh & rc_d & ->) | (Hh & ->)]; exists 0, h.
  - split; [right; left; reflexivity |]. split; [intro H; contradiction |].
    intros _. exists rc_c. rewrite Hc. split; [reflexivity |]. split; [| split].
    + apply Hmsg. intros [Hin | [Hin | []]]; [discriminate |].
      unfold detach_msg in Hin. destruct (nonzero rc_d); discriminate.
    + intros _. exists rc_d. split; [| split; [| reflexivity]].
      * do 3 (apply in_or_app; right). left. reflexivity.
      * do 3 (apply in_or_app; right). right. left. reflexivity.
    + intro Hneg. lia.
  - split; [right; left; reflexivity |]. split; [intro H; contradiction |].
    intros _. exists rc_c. rewrite Hc. split; [reflexivity |]. split; [| split].
    + rewrite <- (app_nil_r (cycle_failed_msg rc_c)). apply Hmsg. intros [].
    + intro Hpos. lia.
    + intros _. split; [| reflexivity].
      intros e Hin. apply in_app_or in Hin as [Hin | Hin].
      { destruct Hin as [<- | [<- | [<- | []]]]; reflexivity. }
      apply in_app_or in Hin as [Hin | Hin].
      * apply (forallb_In _ _ _ Hce) in Hin. destruct e; try discriminate; reflexivity.
      * apply cycle_failed_msg_none in Hin as [-> _]. reflexivity.
Qed.

Lemma peek_poke_example_result_witness :
  fst (peek_poke_example (with_attach (sim_sdk stuck3) 0 (-1)) 0 0 0 []) = Val 1 /\
  forall e, In e (snd (peek_poke_example (with_attach (sim_sdk stuck3) 0 (-1)) 0 0 0 [])) ->
            is_detach e = false.
Proof.
  pose proof (peek_poke_example_result (with_attach (sim_sdk stuck3) 0 (-1)) 0 0 0 []) as H.
  assert (Hc : fst (test_add_one_operation (with_attach (sim_sdk stuck3) 0 (-1)) (-1)
                      (attached [] 0 0 0 (-1))) = Val 1)
    by (vm_compute; reflexivity).
  set (run := peek_poke_example (with_attach (sim_sdk stuck3) 0 (-1)) 0 0 0 []) in *.
  assert (Ha : forallb (attach_is 0 (-1)) (snd run) = true) by (vm_compute; reflexivity).
  clearbody run. destruct run as [o ev]. cbn [fst snd] in *.
  destruct H as (rc_a & h & Hin & _ & Hok).
  apply (forallb_In _ _ _ Ha) in Hin. simpl in Hin.
  apply andb_prop in Hin as [Hrc Hh]. apply Z.eqb_eq in Hrc, Hh. subst rc_a h.
  destruct (Hok eq_refl) as (rc_c & Hcyc & _ & _ & Hneg).
  rewrite Hc in Hcyc. injection Hcyc as <-.
  destruct (Hneg ltac:(lia)) as [Hnone Ho]. split; [exact Ho | exact Hnone].
Defined.

(** ** The readiness check and [main] *)

(** The runs of [check_afi_ready], by what the query answers. *)
Lemma check_afi_ready_cases (K : sdk_header) (E : sdk) (slot : Z) (t : history) :
  exists rc info,
    (rc <> 0 /\
     check_afi_ready K E slot t =
     (Val rc,
      [DescribeLocalImage slot 0 rc info;
       Printf "ERROR: Unable to get AFI information from slot %d. Are you running as root?\n"
              [AInt slot]])) \/
    (rc = 0 /\ status info <> FPGA_STATUS_LOADED K /\
     check_afi_ready K E slot t =
     (Val 1,
      [DescribeLocalImage slot 0 0 info; afi_ids_msg K info;
       Printf "ERROR: AFI is not in LOADED state!\n" [];
       Printf "       AFI status: %s\n" [AStr (status_name K (status info))]])) \/
    (rc = 0 /\ status info = FPGA_STATUS_LOADED K /\
     check_afi_ready K E slot t =
     (Val 0,
      [DescribeLocalImage slot 0 0 info; afi_ids_msg K info;
       Printf "AFI is loaded and ready\n" []])).
Proof.
  destruct (sdk_describe_local_image E t slot 0) as [rc info] eqn:Hq.
  exists rc, info.
  unfold check_afi_ready, call, bind, fpga_mgmt_describe_local_image, when, printf.
  rewrite Hq. unfold nonzero, neq.
  destruct (Z.eqb_spec rc 0) as [-> | Hrc]; simpl.
  - destruct (Z.eqb_spec (status info) (FPGA_STATUS_LOADED K)) as [Hl | Hl]; simpl.
    + right. right. auto.
    + right. left. auto.
  - left. auto.
Qed.

(** The value of [check_afi_ready], from what the query answers. *)
Lemma check_afi_ready_value (K : sdk_header) (E : sdk) (slot : Z) (t : history) :
  fst (check_afi_ready K E slot t) =
  Val (if nonzero (fst (sdk_describe_local_image E t slot 0))
       then fst (sdk_describe_local_image E t slot 0)
       else if neq (status (snd (sdk_describe_local_image E t slot 0)))
                   (FPGA_STATUS_LOADED K)
            then 1 else 0).
Proof.
  unfold check_afi_ready, call, bind, fpga_mgmt_describe_local_image, when, printf.
  destruct (sdk_describe_local_image E t slot 0) as [rc info]. cbn [fst snd].
  destruct (nonzero rc); simpl; [reflexivity |].
  destruct (neq (status info) (FPGA_STATUS_LOADED K)); reflexivity.
Qed.

(** X10.  The result of [check_afi_ready] depends on the code of the
    query and on the status of the image only: two queries that agree on
    these give the same result, whatever PCI vendor and device identifiers
    the image reports; the identifiers are printed and compared with
    nothing. *)
Theorem readiness_ignores_pci_ids (K : sdk_header) (E1 E2 : sdk) (slot : Z)
        (t1 t2 : history) :
  fst (sdk_describe_local_image E1 t1 slot 0) = fst (sdk_describe_local_image E2 t2 slot 0) ->
  status (snd (sdk_describe_local_image E1 t1 slot 0))
  = status (snd (sdk_describe_local_image E2 t2 slot 0)) ->
  fst (check_afi_ready K E1 slot t1) = fst (check_afi_ready K E2 slot t2).
Proof.
  intros Hrc Hst. rewrite !check_afi_ready_value, Hrc, Hst. reflexivity.
Qed.

Lemma readiness_ignores_pci_ids_witness :
  fst (check_afi_ready sample_header (sim_sdk healthy) 0 [])
  = fst (check_afi_ready sample_header (with_pci_ids (sim_sdk healthy) 0xDEAD 0xBEEF) 0 []) /\
  In (Printf "AFI PCI  Vendor ID: 0x%x, Device ID 0x%x\n" [AInt 0xDEAD; AInt 0xBEEF])
     (snd (check_afi_ready sample_header (with_pci_ids (sim_sdk healthy) 0xDEAD 0xBEEF) 0 [])).
Proof.
  split.
  - apply (readiness_ignores_pci_ids sample_header (sim_sdk healthy)
             (with_pci_ids (sim_sdk healthy) 0xDEAD 0xBEEF) 0 [] []); reflexivity.
  - apply printed_In. vm_compute. reflexivity.
Defined.

(** The runs of [main], by what the initialisation, the readiness check
    and [peek_poke_example] return. *)
Lemma main_cases (K : sdk_header) (E : sdk) (t : history) :
  exists rc0,
    (rc0 <> 0 /\
     main K E t =
     (Val 1,
      [Printf "\n=== AWS FPGA Simple Add-One Test ===\n" [];
       MgmtInit rc0;
       Printf "ERROR: Unable to initialize the FPGA management library\n" []])) \/
    (rc0 = 0 /\
     exists t1 rc1 ev1,
       check_afi_ready K E 0 t1 = (Val rc1, ev1) /\
       ((rc1 <> 0 /\
         main K E t =
         (Val rc1,
          main_prologue ++ ev1 ++ [Printf "ERROR: AFI is not ready\n" []; cleanup_msg])) \/
        (rc1 = 0 /\
         exists t2 rc2 ev2,
           peek_poke_example E 0 (FPGA_APP_PF K) (APP_PF_BAR0 K) t2 = (Val rc2, ev2) /\
           main K E t =
           (Val rc2,
            main_prologue ++ ev1 ++ [Printf "AFI is ready, proceeding with test\n" []]
              ++ ev2 ++ [main_verdict rc2; cleanup_msg])))).
Proof.
  cbv beta iota zeta delta [main call bind printf fpga_mgmt_init when Return main_cleanup ret].
  set (rc0 := sdk_mgmt_init E _). exists rc0.
  destruct (Z.eq_dec rc0 0) as [Hz | Hnz].
  2: { left. split; [exact Hnz |]. unfold nonzero at 1, neq.
       rewrite (proj2 (Z.eqb_neq rc0 0) Hnz). reflexivity. }
  right. split; [exact Hz |]. rewrite Hz.
  cbn [nonzero neq negb Z.eqb]. cbv beta iota zeta.
  match goal with
  | |- context [check_afi_ready K E 0 ?t1] =>
      exists t1;
      destruct (check_afi_ready_cases K E 0 t1)
        as (rc & info & [(Hrc & H1) | [(Hrc & Hst & H1) | (Hrc & Hst & H1)]]);
      rewrite H1; cbv beta iota zeta
  end.
  - exists rc. eexists. split; [reflexivity |]. left. split; [exact Hrc |].
    unfold nonzero, neq. rewrite (proj2 (Z.eqb_neq rc 0) Hrc). reflexivity.
  - exists 1. eexists. split; [reflexivity |]. left. split; [discriminate | reflexivity].
  - exists 0. eexists. split; [reflexivity |]. right. split; [reflexivity |].
    cbn [nonzero neq Z.eqb negb].
    match goal with
    | |- context [peek_poke_example E 0 _ _ ?t2] =>
        exists t2;
        destruct (peek_poke_example_cases E 0 (FPGA_APP_PF K) (APP_PF_BAR0 K) t2)
          as (rc_a & h & [(Hra & H2) | (Hra & rc_c & ev_c & Hc & Hce &
                                        [(Hh & rc_d & H2) | (Hh & H2)])]);
        rewrite H2; cbv beta iota zeta
    end.
    + exists rc_a. eexists. split; [reflexivity |].
      unfold main_verdict. destruct (nonzero rc_a); cbv beta iota;
        cbn [app]; rewrite ?app_nil_r; reflexivity.
    + exists rc_d. eexists. split; [reflexivity |].
      unfold main_verdict. destruct (nonzero rc_d); cbv beta iota;
        cbn [app]; rewrite ?app_nil_r; reflexivity.
    + exists rc_c. eexists. split; [reflexivity |].
      unfold main_verdict. destruct (nonzero rc_c); cbv beta iota;
        cbn [app]; rewrite ?app_nil_r; reflexivity.
Qed.

Lemma cycle_event_session_event (e : event) : cycle_event e = true -> session_event e = true.
Proof.
  destruct e; simpl; try discriminate; trivial.
  intro H. apply andb_prop in H as [H H3]. apply andb_prop in H as [_ H2].
  rewrite H2, H3. reflexivity.
Qed.

Lemma peek_poke_example_session_events (E : sdk) (slot pf bar : Z) (t : history) :
  forallb session_event (snd (peek_poke_example E slot pf bar t)) = true.
Proof.
  destruct (peek_poke_example_cases E slot pf bar t)
    as (rc_a & h & [(Hrc & ->) | (-> & rc_c & ev_c & Hc & Hce & Hrun)]); [reflexivity |].
  assert (Hs : forallb session_event ev_c = true).
  { revert Hce. apply forallb_impl. exact cycle_event_session_event. }
  assert (Hm : forallb session_event (cycle_failed_msg rc_c) = true).
  { unfold cycle_failed_msg. destruct (nonzero rc_c); reflexivity. }
  destruct Hrun as [(Hh & rc_d & ->) | (Hh & ->)]; cbn [snd];
    rewrite !forallb_app, Hs, Hm; [| reflexivity].
  unfold detach_msg. destruct (nonzero rc_d); reflexivity.
Qed.

Ltac in_list H :=
  repeat match type of H with
         | In _ (_ ++ _) => apply in_app_or in H; destruct H as [H | H]
         | In _ (_ :: _) => destruct H as [H | H]
         | In _ [] => destruct H
         end.

(** X11.  [main] calls the PCI part of the SDK only after the management
    library was initialised and the image of slot 0 was described, both
    with code 0, and the status of the image was LOADED. *)
Theorem main_touches_device_only_when_loaded (K : sdk_header) (E : sdk) (t : history) :
  let (o, ev) := main K E t in
  (exists e, In e ev /\ is_pci e = true) ->
  exists info pre post,
    ev = pre ++ post /\
    forallb (fun e => negb (is_pci e)) pre = true /\
    In (MgmtInit 0) pre /\
    In (DescribeLocalImage 0 0 0 info) pre /\
    status info = FPGA_STATUS_LOADED K.
Proof.
  destruct (main_cases K E t)
    as (rc0 & [(Hrc0 & ->) | (-> & t1 & rc1 & ev1 & H1 & Hm)]).
  { intros (e & Hin & He). exfalso. in_list Hin; subst e; discriminate. }
  destruct (check_afi_ready_cases K E 0 t1)
    as (rc & info & [(Hrc & H1') | [(Hrc & Hst & H1') | (Hrc & Hst & H1')]]);
    rewrite H1 in H1'; injection H1' as -> ->;
    destruct Hm as [(Hrc1 & ->) | (Hrc1 & t2 & rc2 & ev2 & H2 & ->)];
    try contradiction; try discriminate.
  - intros (e & Hin & He). exfalso. unfold main_prologue, cleanup_msg in Hin.
    in_list Hin; subst e; discriminate.
  - intros (e & Hin & He). exfalso. unfold main_prologue, cleanup_msg, afi_ids_msg in Hin.
    in_list Hin; subst e; discriminate.
  - intros _. subst rc.
    exists info,
      (main_prologue ++ [DescribeLocalImage 0 0 0 info; afi_ids_msg K info;
                         Printf "AFI is loaded and ready\n" []]
         ++ [Printf "AFI is ready, proceeding with test\n" []]),
      (ev2 ++ [main_verdict rc2; cleanup_msg]).
    split; [rewrite <- !app_assoc; reflexivity |].
    split; [reflexivity |]. split; [right; left; reflexivity |].
    split; [| exact Hst]. do 3 right. left. reflexivity.
Qed.

Lemma main_touches_device_only_when_loaded_witness :
  exists info pre post,
    snd (main sample_header (sim_sdk healthy) []) = pre ++ post /\
    forallb (fun e => negb (is_pci e)) pre = true /\
    In (MgmtInit 0) pre /\
    In (DescribeLocalImage 0 0 0 info) pre /\
    status info = FPGA_STATUS_LOADED sample_header.
Proof.
  pose proof (main_touches_device_only_when_loaded sample_header (sim_sdk healthy) []) as H.
  set (run := main sample_header (sim_sdk healthy) []) in *.
  assert (Hpci : existsb is_pci (snd run) = true) by (vm_compute; reflexivity).
  clearbody run. destruct run as [o ev]. cbn [fst snd] in *.
  apply H. apply existsb_exists in Hpci. exact Hpci.
Defined.

Lemma detach_is_In (h rc : Z) (ev : list event) :
  existsb (detach_is h rc) ev = true -> In (PciDetach h rc) ev.
Proof.
  rewrite existsb_exists. intros (e & Hin & He). destruct e; try discriminate.
  simpl in He. apply andb_prop in He as [H1 H2]. apply Z.eqb_eq in H1, H2.
  subst. exact Hin.
Qed.

Lemma snoc2 {A : Type} (l : list A) (x y : A) : l ++ [x; y] = (l ++ [x]) ++ [y].
Proof. rewrite <- app_assoc. reflexivity. Qed.

Lemma session_event_In (l : list event) (e : event) :
  forallb session_event l = true -> In e l -> session_event e = true.
Proof. apply forallb_In. Qed.

(** X12.  The exit code of [main], on every path.  A failed
    initialisation gives 1, with no other SDK call and without the
    "Cleaning up" message; a failed query of the image gives the code of
    the query; an image that is not LOADED gives 1; a failed attach gives
    the code of the attach; and whenever a detach is made the exit code is
    the code of the detach.  The exit code is 0 exactly when the message of
    success is printed.  [main] always returns, and once the
    initialisation succeeded its last message is "Cleaning up". *)
Theorem main_exit_code (K : sdk_header) (E : sdk) (t : history) :
  let (o, ev) := main K E t in
  (exists rc, o = Val rc) /\
  (In (MgmtInit 0) ev -> exists pre, ev = pre ++ [cleanup_msg]) /\
  (forall rc, In (MgmtInit rc) ev -> rc <> 0 ->
     o = Val 1 /\ sdk_calls ev = [MgmtInit rc] /\ ~ In cleanup_msg ev) /\
  (forall s f rc info, In (DescribeLocalImage s f rc info) ev -> rc <> 0 -> o = Val rc) /\
  (forall s f info, In (DescribeLocalImage s f 0 info) ev ->
     status info <> FPGA_STATUS_LOADED K -> o = Val 1) /\
  (forall s p b f rc h, In (PciAttach s p b f rc h) ev -> rc <> 0 -> o = Val rc) /\
  (forall h rc, In (PciDetach h rc) ev -> o = Val rc) /\
  (o = Val 0 <-> In success_msg ev).
Proof.
  destruct (main_cases K E t)
    as (rc0 & [(Hrc0 & ->) | (-> & t1 & rc1 & ev1 & H1 & Hm)]).
  { (* the initialisation failed *)
    split; [exists 1; reflexivity |].
    split; [intro Hin; exfalso; in_list Hin; try discriminate;
            injection Hin as Hz; contradiction |].
    split; [| split; [| split; [| split; [| split]]]].
    - intros rc Hin Hrc. in_list Hin; try discriminate. injection Hin as <-.
      split; [reflexivity |]. split; [reflexivity |].
      intro Hc. in_list Hc; discriminate.
    - intros s f rc info Hin. in_list Hin; discriminate.
    - intros s f info Hin. in_list Hin; discriminate.
    - intros s p b f rc h Hin. in_list Hin; discriminate.
    - intros h rc Hin. in_list Hin; discriminate.
    - split; [discriminate |]. intro Hin. in_list Hin; discriminate. }
  destruct (check_afi_ready_cases K E 0 t1)
    as (rc & info & [(Hrc & H1') | [(Hrc & Hst & H1') | (Hrc & Hst & H1')]]);
    rewrite H1 in H1'; injection H1' as -> ->;
    destruct Hm as [(Hrc1 & ->) | (Hrc1 & t2 & rc2 & ev2 & H2 & ->)];
    try contradiction; try discriminate.
  - (* the query of the image failed *)
    split; [exists rc; reflexivity |].
    split; [intros _; rewrite !app_assoc, snoc2; eexists; reflexivity |].
    unfold main_prologue, cleanup_msg, success_msg.
    split; [| split; [| split; [| split; [| split]]]].
    + intros rc' Hin Hnz. in_list Hin; try discriminate. injection Hin as <-. contradiction.
    + intros s f rc' info' Hin _. in_list Hin; try discriminate.
      injection Hin as _ _ <- _. reflexivity.
    + intros s f info' Hin. in_list Hin; try discriminate.
      injection Hin as _ _ Hz _. contradiction.
    + intros s p b f rc' h Hin. in_list Hin; discriminate.
    + intros h rc' Hin. in_list Hin; discriminate.
    + split.
      * intro Ho. injection Ho as ->. contradiction.
      * intro Hin. in_list Hin; discriminate.
  - (* the image is not LOADED *)
    split; [exists 1; reflexivity |].
    split; [intros _; rewrite !app_assoc, snoc2; eexists; reflexivity |].
    unfold main_prologue, cleanup_msg, success_msg, afi_ids_msg.
    split; [| split; [| split; [| split; [| split]]]].
    + intros rc' Hin Hnz. in_list Hin; try discriminate. injection Hin as <-. contradiction.
    + intros s f rc' info' Hin Hnz. in_list Hin; try discriminate.
      injection Hin as _ _ <- _. subst rc. contradiction.
    + intros s f info' Hin _. reflexivity.
    + intros s p b f rc' h Hin. in_list Hin; discriminate.
    + intros h rc' Hin. in_list Hin; discriminate.
    + split; [discriminate |]. intro Hin. in_list Hin; discriminate.
  - (* the image is LOADED: peek_poke_example runs *)
    subst rc.
    pose proof (peek_poke_example_session_events E 0 (FPGA_APP_PF K) (APP_PF_BAR0 K) t2) as Hse.
    pose proof (peek_poke_example_returns_detach_code
                  E 0 (FPGA_APP_PF K) (APP_PF_BAR0 K) t2) as Hdet.
    pose proof (peek_poke_example_cases E 0 (FPGA_APP_PF K) (APP_PF_BAR0 K) t2) as Hatt.
    rewrite H2 in Hse, Hdet, Hatt. cbn [snd] in Hse.
    split; [exists rc2; reflexivity |].
    split; [intros _; rewrite !app_assoc, snoc2; eexists; reflexivity |].
    unfold main_prologue, afi_ids_msg, cleanup_msg.
    split; [| split; [| split; [| split; [| split]]]].
    + intros rc' Hin Hnz. exfalso.
      in_list Hin; try discriminate;
        try (unfold main_verdict in Hin; destruct (nonzero rc2); discriminate).
      * injection Hin as <-. contradiction.
      * apply (session_event_In _ _ Hse) in Hin. discriminate.
    + intros s f rc' info' Hin Hnz. exfalso.
      in_list Hin; try discriminate;
        try (unfold main_verdict in Hin; destruct (nonzero rc2); discriminate).
      * injection Hin as _ _ <- _. contradiction.
      * apply (session_event_In _ _ Hse) in Hin. discriminate.
    + intros s f info' Hin Hnl. exfalso.
      in_list Hin; try discriminate;
        try (unfold main_verdict in Hin; destruct (nonzero rc2); discriminate).
      * injection Hin as _ _ <-. contradiction.
      * apply (session_event_In _ _ Hse) in Hin. discriminate.
    + intros s p b f rc' h Hin Hnz.
      in_list Hin; try discriminate;
        try (unfold main_verdict in Hin; destruct (nonzero rc2); discriminate).
      destruct Hatt
        as (rc_a & h' & [(Hra & Heq) | (Hra & rc_c & ev_c & Hc & Hce &
                                         [(Hh & rc_d & Heq) | (Hh & Heq)])]);
        injection Heq as -> ->.
      * in_list Hin; try discriminate. injection Hin as _ _ _ _ <- _. reflexivity.
      * exfalso. in_list Hin; try discriminate.
        -- injection Hin as _ _ _ _ <- _. contradiction.
        -- apply (forallb_In _ _ _ Hce) in Hin. discriminate.
        -- apply cycle_failed_msg_none in Hin as [Hin _]. discriminate.
        -- unfold detach_msg in Hin. destruct (nonzero rc_d); discriminate.
      * exfalso. in_list Hin; try discriminate.
        -- injection Hin as _ _ _ _ <- _. contradiction.
        -- apply (forallb_In _ _ _ Hce) in Hin. discriminate.
        -- apply cycle_failed_msg_none in Hin as [Hin _]. discriminate.
    + intros h rc' Hin.
      in_list Hin; try discriminate;
        try (unfold main_verdict in Hin; destruct (nonzero rc2); discriminate).
      apply (Hdet h). exact Hin.
    + split.
      * intro Ho. injection Ho as ->. do 4 (apply in_or_app; right). left. reflexivity.
      * intro Hin. unfold success_msg in Hin. in_list Hin; try discriminate.
        -- apply (session_event_In _ _ Hse) in Hin. discriminate.
        -- unfold main_verdict, nonzero, neq in Hin.
           destruct (Z.eqb_spec rc2 0) as [-> | Hnz]; [reflexivity | discriminate].
Qed.

Lemma main_exit_code_witness :
  fst (main sample_header (sim_sdk failing_detach) []) = Val 7.
Proof.
  pose proof (main_exit_code sample_header (sim_sdk failing_detach) []) as H.
  set (run := main sample_header (sim_sdk failing_detach) []) in *.
  assert (Hd : existsb (detach_is 0 7) (snd run) = true) by (vm_compute; reflexivity).
  clearbody run. destruct run as [o ev]. cbn [fst snd] in *.
  apply detach_is_In in Hd.
  destruct H as (_ & _ & _ & _ & _ & _ & Hdet & _).
  exact (Hdet _ _ Hd).
Defined.
